(** * Reconciliation pipeline of covid-data-public

    Shallow embedding of the two update scripts

    - [scripts/update_covid_county_data.py]  (module [CovidCountyData])
    - [scripts/update_forecast_hub.py]       (module [ForecastHub])

    A pandas DataFrame is a list of rows in frame order.  A null cell
    (NaN / None / NaT) is [None].  Exceptions are values of [error];
    structlog calls are collected in a log that is returned next to the
    result. *)

From Stdlib Require Import ZArith List String Ascii Lia DecimalString.
From stdpp Require Import base option list strings finite gmap.

Open Scope string_scope.
Open Scope list_scope.
Open Scope Z_scope.

(** ** Calendar dates

    A date is carried by its proleptic Gregorian ordinal, as
    [datetime.date.toordinal] computes it, so that comparing dates and
    subtracting a [timedelta(days=n)] are integer operations.  The dates
    of a feed are taken to be in the range of pandas timestamps; what is
    computed from them is checked against the ranges below. *)

Module Calendar.

Abbreviation date := Z (only parsing).

Definition is_leap (y : Z) : bool :=
  (y mod 4 =? 0) && (negb (y mod 100 =? 0) || (y mod 400 =? 0)).

Definition days_before_year (y : Z) : Z :=
  let p := y - 1 in p * 365 + p / 4 - p / 100 + p / 400.

Definition days_before_month_table : list Z :=
  [0; 31; 59; 90; 120; 151; 181; 212; 243; 273; 304; 334].

Definition days_before_month (y m : Z) : Z :=
  nth (Z.to_nat (m - 1)) days_before_month_table 0
  + (if (2 <? m) && is_leap y then 1 else 0).

(** [ymd y m d] is [datetime.date(y, m, d).toordinal()]. *)
Definition ymd (y m d : Z) : date :=
  days_before_year y + days_before_month y m + d.

(** [timedelta(days = n)] and [pd.Timedelta(weeks = n)] added to a date. *)
Definition sub_days (d : date) (n : Z) : date := d - n.
Definition add_weeks (d : date) (n : Z) : date := d + 7 * n.

(** Year, month and day of an ordinal (the inverse of [ymd] on valid
    dates), by searching the month table. *)
Definition year_of (d : date) : Z :=
  let y := (d - 1) * 400 / 146097 + 1 in
  if d <=? days_before_year y then y - 1
  else if days_before_year (y + 1) <? d then y + 1 else y.

Definition month_of (d : date) : Z :=
  let y := year_of d in
  let n := d - days_before_year y in
  Z.of_nat (length (filter (fun m => days_before_month y m <? n)
                           [1; 2; 3; 4; 5; 6; 7; 8; 9; 10; 11; 12])).

Definition day_of (d : date) : Z :=
  let y := year_of d in
  d - days_before_year y - days_before_month y (month_of d).

Definition digits (n : Z) : string :=
  NilZero.string_of_int (Z.to_int n).

Definition zfill (width : nat) (s : string) : string :=
  string_of_list_ascii (repeat "0"%char (width - String.length s)) +:+ s.

(** [datetime.date.isoformat], e.g. ["2020-05-14"]. *)
Definition isoformat (d : date) : string :=
  zfill 4 (digits (year_of d)) +:+ "-" +:+ zfill 2 (digits (month_of d))
  +:+ "-" +:+ zfill 2 (digits (day_of d)).


(** The ranges of [pd.Timedelta] and [pd.Timestamp]: a count of
    nanoseconds, of the delta itself or since 1970-01-01 for a
    timestamp, that fits in 64 bits, the least value being kept for
    NaT.  A delta of whole weeks is in range up to 15250 weeks. *)
Definition int64_max : Z := 2 ^ 63 - 1.
Definition nanoseconds_per_day : Z := 86400 * 10 ^ 9.

Definition in_timedelta_range (days : Z) : bool :=
  Z.abs (days * nanoseconds_per_day) <=? int64_max.

Definition in_timestamp_range (d : date) : bool :=
  Z.abs ((d - ymd 1970 1 1) * nanoseconds_per_day) <=? int64_max.

End Calendar.

Import Calendar.

(** ** Exceptions and the log *)

Inductive error : Type :=
| StaleDataError (msg : string)
    (* raised by [_fail_if_no_recent_dates] *)
| OverflowError
    (* pandas: a [Timedelta] or a [Timestamp] out of its range *)
| ValueError_duplicate_keys (dups : list (option string * option date))
    (* pandas: "Index has duplicate keys", from
       [set_index(..., verify_integrity=True)] *)
| ValueError_invalid_literal (token : string)
    (* Python: "invalid literal for int() with base 10" *)
| ValueError_duplicate_entries
    (* pandas: "Index contains duplicate entries, cannot reshape",
       from [DataFrame.pivot] *)
| ValueError_cannot_insert (column : string)
    (* pandas: "cannot insert ..., already exists", from
       [DataFrame.reset_index] *)
| ValueError_cannot_set_frame
    (* pandas: a frame assigned to one column, which is what
       [DataFrame.apply] returns on a frame without rows *).

Inductive result (A : Type) : Type :=
| Ok (a : A)
| Raise (e : error).
Arguments Ok {A} a.
Arguments Raise {A} e.

#[global] Instance error_eq_dec : EqDecision error.
Proof. solve_decision. Defined.

#[global] Instance result_eq_dec {A} `{EqDecision A} : EqDecision (result A).
Proof. solve_decision. Defined.

Definition is_ok {A} (r : result A) : bool :=
  match r with Ok _ => true | Raise _ => false end.

#[global] Instance result_ret : MRet result := fun A (a : A) => Ok a.

#[global] Instance result_bind : MBind result :=
  fun A B (f : A -> result B) (r : result A) =>
    match r with Ok a => f a | Raise e => Raise e end.

(** A loop that stops at the first exception. *)
Fixpoint traverse {A B} (f : A -> result B) (l : list A) : result (list B) :=
  match l with
  | [] => Ok []
  | x :: l' => y ← f x ; ys ← traverse f l' ; Ok (y :: ys)
  end.

(** Decimal rendering of an integer and left padding, as in the format
    specification [0>w]. *)
Definition str_int (n : Z) : string := digits n.

Definition pad_left (c : ascii) (width : nat) (s : string) : string :=
  string_of_list_ascii (repeat c (width - String.length s)) +:+ s.

(** [Series.unique()]: the distinct elements in order of first
    appearance. *)
Fixpoint unique_from {A} `{EqDecision A} (seen l : list A) : list A :=
  match l with
  | [] => []
  | x :: l' =>
      if bool_decide (x ∈ seen) then unique_from seen l'
      else x :: unique_from (x :: seen) l'
  end.

Definition unique {A} `{EqDecision A} (l : list A) : list A :=
  unique_from [] l.

(** [Index.duplicated()]: the elements that repeat an earlier one. *)
Fixpoint duplicated_from {A} `{EqDecision A} (seen l : list A) : list A :=
  match l with
  | [] => []
  | x :: l' =>
      if bool_decide (x ∈ seen) then x :: duplicated_from seen l'
      else duplicated_from (x :: seen) l'
  end.

Definition duplicated {A} `{EqDecision A} (l : list A) : list A :=
  duplicated_from [] l.


(** * scripts/update_covid_county_data.py *)

Module CovidCountyData.

(** The members of [covidactnow.datapublic.common_fields.CommonFields]
    that the script names. *)
Inductive CommonFields : Set :=
| FIPS | DATE | COUNTRY | STATE | COUNTY | AGGREGATE_LEVEL
| NEGATIVE_TESTS | POSITIVE_TESTS | TOTAL_TESTS
| CASES | RECOVERED | DEATHS
| STAFFED_BEDS | HOSPITAL_BEDS_IN_USE_ANY | CURRENT_HOSPITALIZED
| ICU_BEDS | CURRENT_ICU_TOTAL | CURRENT_ICU | CURRENT_VENTILATED.

#[global] Instance CommonFields_eq_dec : EqDecision CommonFields.
Proof. solve_decision. Defined.

Definition CommonFields_all : list CommonFields :=
  [FIPS; DATE; COUNTRY; STATE; COUNTY; AGGREGATE_LEVEL;
   NEGATIVE_TESTS; POSITIVE_TESTS; TOTAL_TESTS;
   CASES; RECOVERED; DEATHS;
   STAFFED_BEDS; HOSPITAL_BEDS_IN_USE_ANY; CURRENT_HOSPITALIZED;
   ICU_BEDS; CURRENT_ICU_TOTAL; CURRENT_ICU; CURRENT_VENTILATED].

#[global] Program Instance CommonFields_finite : Finite CommonFields :=
  {| enum := CommonFields_all |}.
Next Obligation. apply (bool_decide_unpack _). vm_compute. exact I. Qed.
Next Obligation. intros []; apply (bool_decide_unpack _); vm_compute; exact I. Qed.

(** [COMMON_FIELDS_TIMESERIES_KEYS], the pair (FIPS, DATE). *)
Definition COMMON_FIELDS_TIMESERIES_KEYS : list CommonFields := [FIPS; DATE].

(** The interface [FieldNameAndCommonField]: every member of a source's
    field enumeration has the source's column name and at most one
    common field. *)
Class FieldNameAndCommonField (F : Type) `{Countable F} := {
  members : list F;
  field_name : F -> string;
  common_field : F -> option CommonFields
}.

(** [class Fields], lines 38-80. *)
Inductive Fields : Set :=
| LOCATION | DT
| NEGATIVE_TESTS_TOTAL | POSITIVE_TESTS_TOTAL | TESTS_TOTAL
| ACTIVE_TOTAL | CASES_TOTAL | CASES_CONFIRMED | CASES_SUSPECTED
| RECOVERED_TOTAL | DEATHS_TOTAL | DEATHS_CONFIRMED | DEATHS_SUSPECTED
| HOSPITAL_BEDS_CAPACITY_COUNT | HOSPITAL_BEDS_IN_USE_COVID_CONFIRMED
| HOSPITAL_BEDS_IN_USE_COVID_NEW | HOSPITAL_BEDS_IN_USE_COVID_SUSPECTED
| HOSPITAL_BEDS_IN_USE_ANY_ | HOSPITAL_BEDS_IN_USE_COVID_TOTAL
| NUM_HOSPITALS_REPORTING | NUM_OF_HOSPITALS
| ICU_BEDS_CAPACITY_COUNT | ICU_BEDS_IN_USE_COVID_CONFIRMED
| ICU_BEDS_IN_USE_COVID_SUSPECTED | ICU_BEDS_IN_USE_ANY
| ICU_BEDS_IN_USE_COVID_TOTAL
| VENTILATORS_IN_USE_ANY | VENTILATORS_CAPACITY_COUNT
| VENTILATORS_IN_USE_COVID_TOTAL | VENTILATORS_IN_USE_COVID_CONFIRMED
| VENTILATORS_IN_USE_COVID_SUSPECTED.

#[global] Instance Fields_eq_dec : EqDecision Fields.
Proof. solve_decision. Defined.

Definition Fields_all : list Fields :=
  [LOCATION; DT;
   NEGATIVE_TESTS_TOTAL; POSITIVE_TESTS_TOTAL; TESTS_TOTAL;
   ACTIVE_TOTAL; CASES_TOTAL; CASES_CONFIRMED; CASES_SUSPECTED;
   RECOVERED_TOTAL; DEATHS_TOTAL; DEATHS_CONFIRMED; DEATHS_SUSPECTED;
   HOSPITAL_BEDS_CAPACITY_COUNT; HOSPITAL_BEDS_IN_USE_COVID_CONFIRMED;
   HOSPITAL_BEDS_IN_USE_COVID_NEW; HOSPITAL_BEDS_IN_USE_COVID_SUSPECTED;
   HOSPITAL_BEDS_IN_USE_ANY_; HOSPITAL_BEDS_IN_USE_COVID_TOTAL;
   NUM_HOSPITALS_REPORTING; NUM_OF_HOSPITALS;
   ICU_BEDS_CAPACITY_COUNT; ICU_BEDS_IN_USE_COVID_CONFIRMED;
   ICU_BEDS_IN_USE_COVID_SUSPECTED; ICU_BEDS_IN_USE_ANY;
   ICU_BEDS_IN_USE_COVID_TOTAL;
   VENTILATORS_IN_USE_ANY; VENTILATORS_CAPACITY_COUNT;
   VENTILATORS_IN_USE_COVID_TOTAL; VENTILATORS_IN_USE_COVID_CONFIRMED;
   VENTILATORS_IN_USE_COVID_SUSPECTED].

#[global] Program Instance Fields_finite : Finite Fields :=
  {| enum := Fields_all |}.
Next Obligation. apply (bool_decide_unpack _). vm_compute. exact I. Qed.
Next Obligation. intros []; apply (bool_decide_unpack _); vm_compute; exact I. Qed.

#[global] Instance Fields_mapping : FieldNameAndCommonField Fields := {|
  members := Fields_all;
  field_name f :=
    match f with
    | LOCATION => "location"
    | DT => "dt"
    | NEGATIVE_TESTS_TOTAL => "negative_tests_total"
    | POSITIVE_TESTS_TOTAL => "positive_tests_total"
    | TESTS_TOTAL => "tests_total"
    | ACTIVE_TOTAL => "active_total"
    | CASES_TOTAL => "cases_total"
    | CASES_CONFIRMED => "cases_confirmed"
    | CASES_SUSPECTED => "cases_suspected"
    | RECOVERED_TOTAL => "recovered_total"
    | DEATHS_TOTAL => "deaths_total"
    | DEATHS_CONFIRMED => "deaths_confirmed"
    | DEATHS_SUSPECTED => "deaths_suspected"
    | HOSPITAL_BEDS_CAPACITY_COUNT => "hospital_beds_capacity_count"
    | HOSPITAL_BEDS_IN_USE_COVID_CONFIRMED =>
        "hospital_beds_in_use_covid_confirmed"
    | HOSPITAL_BEDS_IN_USE_COVID_NEW => "hospital_beds_in_use_covid_new"
    | HOSPITAL_BEDS_IN_USE_COVID_SUSPECTED =>
        "hospital_beds_in_use_covid_suspected"
    | HOSPITAL_BEDS_IN_USE_ANY_ => "hospital_beds_in_use_any"
    | HOSPITAL_BEDS_IN_USE_COVID_TOTAL => "hospital_beds_in_use_covid_total"
    | NUM_HOSPITALS_REPORTING => "num_hospitals_reporting"
    | NUM_OF_HOSPITALS => "num_of_hospitals"
    | ICU_BEDS_CAPACITY_COUNT => "icu_beds_capacity_count"
    | ICU_BEDS_IN_USE_COVID_CONFIRMED => "icu_beds_in_use_covid_confirmed"
    | ICU_BEDS_IN_USE_COVID_SUSPECTED => "icu_beds_in_use_covid_suspected"
    | ICU_BEDS_IN_USE_ANY => "icu_beds_in_use_any"
    | ICU_BEDS_IN_USE_COVID_TOTAL => "icu_beds_in_use_covid_total"
    | VENTILATORS_IN_USE_ANY => "ventilators_in_use_any"
    | VENTILATORS_CAPACITY_COUNT => "ventilators_capacity_count"
    | VENTILATORS_IN_USE_COVID_TOTAL => "ventilators_in_use_covid_total"
    | VENTILATORS_IN_USE_COVID_CONFIRMED =>
        "ventilators_in_use_covid_confirmed"
    | VENTILATORS_IN_USE_COVID_SUSPECTED =>
        "ventilators_in_use_covid_suspected"
    end;
  common_field f :=
    match f with
    | LOCATION => None (* Special transformation to FIPS *)
    | DT => Some DATE
    | NEGATIVE_TESTS_TOTAL => Some NEGATIVE_TESTS
    | POSITIVE_TESTS_TOTAL => Some POSITIVE_TESTS
    | TESTS_TOTAL => Some TOTAL_TESTS
    | CASES_TOTAL => Some CASES
    | RECOVERED_TOTAL => Some RECOVERED
    | DEATHS_TOTAL => Some DEATHS
    | HOSPITAL_BEDS_CAPACITY_COUNT => Some STAFFED_BEDS
    | HOSPITAL_BEDS_IN_USE_ANY_ => Some HOSPITAL_BEDS_IN_USE_ANY
    | HOSPITAL_BEDS_IN_USE_COVID_TOTAL => Some CURRENT_HOSPITALIZED
    | ICU_BEDS_CAPACITY_COUNT => Some ICU_BEDS
    | ICU_BEDS_IN_USE_ANY => Some CURRENT_ICU_TOTAL
    | ICU_BEDS_IN_USE_COVID_TOTAL => Some CURRENT_ICU
    | VENTILATORS_IN_USE_COVID_TOTAL => Some CURRENT_VENTILATED
    | _ => None
    end
|}.

(** [class UsaFactsFields], lines 85-90.  Its members are prefixed, as
    [DT] and [CASES_TOTAL] are taken by [Fields]. *)
Inductive UsaFactsFields : Set :=
| UF_FIPS | UF_DT | UF_CASES_TOTAL | UF_DEATHS_TOTAL.

#[global] Instance UsaFactsFields_eq_dec : EqDecision UsaFactsFields.
Proof. solve_decision. Defined.

#[global] Program Instance UsaFactsFields_finite : Finite UsaFactsFields :=
  {| enum := [UF_FIPS; UF_DT; UF_CASES_TOTAL; UF_DEATHS_TOTAL] |}.
Next Obligation. apply (bool_decide_unpack _). vm_compute. exact I. Qed.
Next Obligation. intros []; apply (bool_decide_unpack _); vm_compute; exact I. Qed.

#[global] Instance UsaFactsFields_mapping :
  FieldNameAndCommonField UsaFactsFields := {|
  members := [UF_FIPS; UF_DT; UF_CASES_TOTAL; UF_DEATHS_TOTAL];
  field_name f :=
    match f with
    | UF_FIPS => "fips"
    | UF_DT => "dt"
    | UF_CASES_TOTAL => "cases_total"
    | UF_DEATHS_TOTAL => "deaths_total"
    end;
  common_field f :=
    match f with
    | UF_FIPS => None (* Special transformation *)
    | UF_DT => Some DATE
    | UF_CASES_TOTAL => Some CASES
    | UF_DEATHS_TOTAL => Some DEATHS
    end
|}.

(** ** Frames

    A row of the feed as the client returns it: the integer location
    code, the observation date and the numeric columns, keyed by the
    source's field.  A numeric column without a value is absent from
    [raw_values]. *)
Record raw_row (F : Type) `{Countable F} : Type := mk_raw_row {
  location : Z;
  dt : option date;
  raw_values : gmap F Z
}.
Arguments mk_raw_row {F _ _} _ _ _.
Arguments location {F _ _} _.
Arguments dt {F _ _} _.
Arguments raw_values {F _ _} _.

(** A row in common fields.  The key and geography columns are typed;
    the numeric columns are [r_values], where a null cell is an absent
    key.  The order of the columns is not represented, so that
    [common_df.sort_common_field_columns] leaves a frame as it is. *)
Record row : Type := mk_row {
  r_fips : option string;
  r_date : option date;
  r_country : option string;
  r_state : option string;
  r_county : option string;
  r_aggregate_level : option string;
  r_values : gmap CommonFields Z
}.

#[global] Instance row_eq_dec : EqDecision row.
Proof. solve_decision. Defined.

Definition set_date (d : option date) (r : row) : row :=
  mk_row (r_fips r) d (r_country r) (r_state r) (r_county r)
         (r_aggregate_level r) (r_values r).
Definition set_country (c : option string) (r : row) : row :=
  mk_row (r_fips r) (r_date r) c (r_state r) (r_county r)
         (r_aggregate_level r) (r_values r).
Definition set_state_county (s c : option string) (r : row) : row :=
  mk_row (r_fips r) (r_date r) (r_country r) s c
         (r_aggregate_level r) (r_values r).
Definition set_state (s : option string) (r : row) : row :=
  mk_row (r_fips r) (r_date r) (r_country r) s (r_county r)
         (r_aggregate_level r) (r_values r).
Definition set_aggregate_level (a : option string) (r : row) : row :=
  mk_row (r_fips r) (r_date r) (r_country r) (r_state r) (r_county r)
         a (r_values r).
Definition set_values (v : gmap CommonFields Z) (r : row) : row :=
  mk_row (r_fips r) (r_date r) (r_country r) (r_state r) (r_county r)
         (r_aggregate_level r) v.

(** The constant columns that the geo resolver assigns. *)
Definition usa : row -> row := set_country (Some "USA").
Definition county_tag : row -> row := set_aggregate_level (Some "county").
Definition state_tag : row -> row := set_aggregate_level (Some "state").

(** The timeseries key of a row: its cells in
    [COMMON_FIELDS_TIMESERIES_KEYS]. *)
Definition key : Type := option string * option date.
Definition key_of (r : row) : key := (r_fips r, r_date r).

(** ** The log *)

Inductive level : Set := WARNING | INFO.

(** An entry has its level, its event and the keyword arguments of the
    call: [bad_fips], a list, which is empty when the argument is not
    given, and [bad_rows], the text that [str] makes of a frame, which
    pandas abbreviates when the frame is long. *)
Record log_entry : Type := mk_log {
  log_level : level;
  log_event : string;
  log_bad_fips : list (option string);
  log_bad_rows : option string
}.

#[global] Instance level_eq_dec : EqDecision level.
Proof. solve_decision. Defined.

#[global] Instance log_entry_eq_dec : EqDecision log_entry.
Proof. solve_decision. Defined.

(** Computations that log and may raise: the result, and what was
    logged up to the return or the exception. *)
Definition M (A : Type) : Type := result A * list log_entry.

#[global] Instance M_ret : MRet M := fun A (a : A) => (Ok a, []).

#[global] Instance M_bind : MBind M := fun A B (f : A -> M B) (m : M A) =>
  match m with
  | (Ok a, l) => let '(r, l') := f a in (r, l ++ l')
  | (Raise e, l) => (Raise e, l)
  end.

Definition lift {A} (r : result A) : M A := (r, []).

Definition tell (e : log_entry) : M unit := (Ok tt, [e]).

(** ** Helpers of the repository *)

(** Modelled from the spec: [helpers.fips_from_int], which is not among
    the sources.  Section 4.2: raw location codes arrive as integers
    without leading zeros; derivation zero-pads to 2 digits if the
    unpadded value is below 100, else to 5 digits. *)
Definition fips_from_int (v : Z) : string :=
  pad_left "0" (if v <? 100 then 2 else 5) (str_int v).


(** Modelled from the spec: [helpers.rename_fields], which is not among
    the sources.  Section 4.1: the result keeps only the columns with a
    canonical mapping, renamed to the canonical names, and preserves row
    order and row count; a column already transformed (here the derived
    FIPS column) bypasses renaming.  The frame it receives is the feed
    with the FIPS column added. *)
Definition rename_values {F} `{FieldNameAndCommonField F}
    (raw : gmap F Z) : gmap CommonFields Z :=
  list_to_map
    (omap (fun f => c ← common_field f; v ← raw !! f; Some (c, v)) members).

Definition rename_fields {F} `{FieldNameAndCommonField F}
    (df : list (string * raw_row F)) : list row :=
  map (fun '(fips, r) =>
         mk_row (Some fips) (dt r) None None None None
                (rename_values (raw_values r))) df.

(** The reference tables as [helpers.load_county_fips_data] and
    [helpers.load_census_state] return them, indexed by FIPS: for a
    county its state and its name, for a state its abbreviation. *)
Definition county_table : Type := list (string * (option string * option string)).
Definition state_table : Type := list (string * option string).

(** [_fail_if_no_recent_dates], lines 269-273.  [today] is
    [datetime.date.today()]; [str_date] is how Python prints a cell of
    the date column inside an f-string.  The column is a datetime64
    column: [Series.max] skips its nulls, and is NaT when the column
    has no date; [NaT < date] is False, so such a column passes. *)
Definition series_max (dates : list (option date)) : option date :=
  match omap id dates with
  | [] => None
  | d :: ds => Some (fold_left Z.max ds d)
  end.

Definition _fail_if_no_recent_dates (str_date : date -> string)
    (today : date) (dates : list (option date))
    (stale_days_allowed : option Z) : result unit :=
  let stale_days_allowed := default 3 stale_days_allowed in
  match series_max dates with
  | None => Ok tt
  | Some latest_dt =>
      if latest_dt <? sub_days today stale_days_allowed
      then Raise (StaleDataError ("Latest dt is " +:+ str_date latest_dt))
      else Ok tt
  end.

(** ** Frame operations of pandas used by the transformer *)

(** [DataFrame.shift(-1)] on a frame indexed by DATE: the index stays,
    every column moves up by one position, and the last row is left
    with nulls only. *)
Definition null_row (d : option date) : row :=
  mk_row None d None None None None ∅.

Fixpoint shift_up (rows : list row) : list row :=
  match rows with
  | [] => []
  | r :: rest =>
      match rest with
      | [] => [null_row (r_date r)]
      | r' :: _ => set_date (r_date r) r' :: shift_up rest
      end
  end.

(** [DataFrame.dropna(how="all")] on a frame indexed by DATE. *)
Definition all_null (r : row) : Prop :=
  r_fips r = None ∧ r_country r = None ∧ r_state r = None ∧
  r_county r = None ∧ r_aggregate_level r = None ∧ r_values r = ∅.

#[global] Instance all_null_dec r : Decision (all_null r).
Proof. unfold all_null. apply _. Defined.

Definition dropna_all (rows : list row) : list row :=
  filter (fun r => ¬ all_null r) rows.

(** [DataFrame.drop(columns, axis="columns")]. *)
Definition drop_columns (columns : list CommonFields) (r : row) : row :=
  set_values (foldr delete (r_values r) columns) r.

(** [DataFrame.set_index(COMMON_FIELDS_TIMESERIES_KEYS,
    verify_integrity=True)]. *)
Definition set_index_verify (df : list row) : result (list row) :=
  match duplicated (map key_of df) with
  | [] => Ok df
  | dups => Raise (ValueError_duplicate_keys (unique dups))
  end.

(** ** [CovidCountyDataTransformer] *)

Section Transformer.

(** How Python prints a date cell, and [datetime.date.today()]. *)
Variable str_date : date -> string.
Variable today : date.

(** The two reference tables, loaded from [county_fips_csv] and
    [census_state_path]. *)
Variable fips_data : county_table.
Variable state_df : state_table.

(** [update_nytimes_data.remove_county_backfilled_cases] applied to
    [update_nytimes_data.COUNTY_BACKFILLED_CASES]; neither is among the
    sources. *)
Variable remove_county_backfilled_cases : list row -> list row.

(** [str] of a frame, as pandas prints it. *)
Variable str_frame : list row -> string.

Definition state_mask (r : row) : Prop :=
  match r_fips r with
  | Some s => String.length s = 2%nat
  | None => False
  end.

#[global] Instance state_mask_dec r : Decision (state_mask r).
Proof. unfold state_mask. destruct (r_fips r); apply _. Defined.

(** The left joins of lines 240-246 and 257-263: one row for every
    entry of the table under the row's FIPS, and the row itself with
    nulls when there is none. *)
Definition merge_county (r : row) : list row :=
  match filter (fun e => Some e.1 = r_fips r) fips_data with
  | [] => [set_state_county None None r]
  | ms => map (fun e => set_state_county e.2.1 e.2.2 r) ms
  end.

Definition merge_state (r : row) : list row :=
  match filter (fun e => Some e.1 = r_fips r) state_df with
  | [] => [set_state None r]
  | ms => map (fun e => set_state e.2 r) ms
  end.

(** [_counties_states_with_geoattributes], lines 223-266. *)
Definition _counties_states_with_geoattributes (df : list row)
  : M (list row * list row) :=
  let df := map (set_country (Some "USA")) df in
  let states := filter state_mask df in
  let counties := filter (fun r => ¬ state_mask r) df in
  let counties := flat_map merge_county counties in
  let no_match_counties := filter (fun r => r_state r = None) counties in
  (if decide (0 < length no_match_counties)%nat
   then tell (mk_log WARNING "Some counties did not match by fips"
                     (unique (map r_fips no_match_counties)) None)
   else mret tt) ;;
  let counties := filter (fun r => r_state r ≠ None) counties in
  let counties := map (set_aggregate_level (Some "county")) counties in
  let states := flat_map merge_state states in
  let states := map (set_aggregate_level (Some "state")) states in
  mret (counties, states).

(** [_drop_bad_rows], lines 205-221. *)
Definition bad_row (r : row) : Prop :=
  r_fips r = None ∨ r_date r = None ∨ r_state r = None.

#[global] Instance bad_row_dec r : Decision (bad_row r).
Proof. unfold bad_row. apply _. Defined.

Definition ancient_row (r : row) : Prop :=
  match r_date r with
  | Some d => d < ymd 2019 12 1
  | None => False
  end.

#[global] Instance ancient_row_dec r : Decision (ancient_row r).
Proof. unfold ancient_row. destruct (r_date r); apply _. Defined.

Definition _drop_bad_rows (df : list row) : M (list row) :=
  df ← (if decide (Exists bad_row df)
        then tell (mk_log WARNING
                     "Dropping rows with null in important columns"
                     [] (Some (str_frame (filter bad_row df)))) ;;
             mret (filter (fun r => ¬ bad_row r) df)
        else mret df) ;
  df ← (if decide (Exists ancient_row df)
        then tell (mk_log INFO "Dropping rows of ancient data"
                     [] (Some (str_frame (filter ancient_row df)))) ;;
             mret (filter (fun r => ¬ ancient_row r) df)
        else mret df) ;
  mret df.

(** Lines 143-149: the Texas counties are taken out of the frame
    indexed by DATE, shifted, and put back after the other counties. *)
Definition is_tx_county (r : row) : Prop :=
  match r_fips r with
  | Some s => String.prefix "48" s = true
  | None => False
  end.

#[global] Instance is_tx_county_dec r : Decision (is_tx_county r).
Proof. unfold is_tx_county. destruct (r_fips r); apply _. Defined.

Definition shift_tx_counties (counties : list row) : list row :=
  let tx_counties := filter is_tx_county counties in
  let tx_counties := shift_up tx_counties in
  let tx_counties := dropna_all tx_counties in
  filter (fun r => ¬ is_tx_county r) counties ++ tx_counties.

(** Lines 159-165. *)
Definition state_columns_to_drop : list CommonFields :=
  [ICU_BEDS; HOSPITAL_BEDS_IN_USE_ANY; STAFFED_BEDS; CURRENT_ICU_TOTAL].

(** Lines 171-174: a string of misleading FL current_icu values. *)
Definition is_incorrect_fl_icu (r : row) : Prop :=
  r_fips r = Some "12" ∧
  match r_date r with
  | Some d => ymd 2020 5 14 <= d <= ymd 2020 5 20
  | None => False
  end.

#[global] Instance is_incorrect_fl_icu_dec r : Decision (is_incorrect_fl_icu r).
Proof. unfold is_incorrect_fl_icu. destruct (r_date r); apply _. Defined.

Definition null_fl_icu (r : row) : row :=
  if decide (is_incorrect_fl_icu r)
  then set_values (delete CURRENT_ICU (r_values r)) r
  else r.

(** What lines 169-174 make of a frame: [_drop_bad_rows], then the
    Florida correction. *)
Definition clean (l : list row) : list row :=
  map null_fl_icu
    (filter (fun r => ¬ ancient_row r) (filter (fun r => ¬ bad_row r) l)).

(** [transform], lines 122-178, in three parts: up to the frames handed
    to the backfill removal (lines 123-149), up to the frame that is
    indexed (lines 151-174), and the whole. *)
Definition transform_split (df : list (raw_row Fields))
  : M (list row * list row) :=
  lift (_fail_if_no_recent_dates str_date today (map dt df) None) ;;
  let df := map (fun r => (fips_from_int (location r), r)) df in
  let df := rename_fields df in
  '(counties, states) ← _counties_states_with_geoattributes df ;
  let counties := shift_tx_counties counties in
  mret (counties, states).

Definition transform_frame (df : list (raw_row Fields)) : M (list row) :=
  '(counties, states) ← transform_split df ;
  let counties := remove_county_backfilled_cases counties in
  let states := map (drop_columns state_columns_to_drop) states in
  let df := states ++ counties in
  df ← _drop_bad_rows df ;
  let df := map null_fl_icu df in
  mret df.

Definition transform (df : list (raw_row Fields)) : M (list row) :=
  df ← transform_frame df ;
  lift (set_index_verify df).

(** [transform_usafacts], lines 180-203. *)
Definition transform_usafacts_frame (df : list (raw_row UsaFactsFields))
  : M (list row) :=
  lift (_fail_if_no_recent_dates str_date today (map dt df) (Some 7)) ;;
  let df := map (fun r => (fips_from_int (location r), r)) df in
  let df := rename_fields df in
  '(counties, states) ← _counties_states_with_geoattributes df ;
  let df := states ++ counties in
  df ← _drop_bad_rows df ;
  mret df.

Definition transform_usafacts (df : list (raw_row UsaFactsFields))
  : M (list row) :=
  df ← transform_usafacts_frame df ;
  lift (set_index_verify df).

End Transformer.

End CovidCountyData.

(** * scripts/update_forecast_hub.py *)

Module ForecastHub.

(** The common fields of the value columns; their names are those of
    the comment at lines 170-173. *)
Inductive CommonFields : Set :=
| WEEKLY_NEW_CASES | WEEKLY_NEW_DEATHS.

#[global] Instance CommonFields_eq_dec : EqDecision CommonFields.
Proof. solve_decision. Defined.

#[global] Program Instance CommonFields_finite : Finite CommonFields :=
  {| enum := [WEEKLY_NEW_CASES; WEEKLY_NEW_DEATHS] |}.
Next Obligation. apply (bool_decide_unpack _). vm_compute. exact I. Qed.
Next Obligation. intros []; apply (bool_decide_unpack _); vm_compute; exact I. Qed.

Definition common_name (f : CommonFields) : string :=
  match f with
  | WEEKLY_NEW_CASES => "weekly_new_cases"
  | WEEKLY_NEW_DEATHS => "weekly_new_deaths"
  end.

(** [class Fields], lines 37-44: the columns of the key, which are
    typed below, and the two value columns with their source names. *)
Definition index_names : list string :=
  ["model_abbr"; "unit"; "forecast_date"; "target_date"; "quantile"].

Definition value_field (column : string) : option CommonFields :=
  if String.eqb column "case" then Some WEEKLY_NEW_CASES
  else if String.eqb column "death" then Some WEEKLY_NEW_DEATHS
  else None.

(** A float of the quantile column is carried by its shortest decimal
    form, which identifies it and is what [str] prints; NaN is [None]. *)
Definition quantile_t : Type := option string.

Definition str_quantile (q : quantile_t) : string := default "nan" q.

(** A row of [raw.csv] as [load_source_data] reads it. *)
Record forecast_row : Type := mk_forecast_row {
  model_abbr : string;
  unit_ : string;
  forecast_date : date;
  target : string;
  quantile : quantile_t;
  value : Z
}.

(** ** Python strings *)

(** [str.split(sep)] for a separator of one character. *)
Fixpoint split (sep : ascii) (s : string) : list string :=
  match s with
  | EmptyString => [EmptyString]
  | String c s' =>
      if Ascii.eqb c sep then EmptyString :: split sep s'
      else match split sep s' with
           | [] => [String c EmptyString]
           | t :: ts => String c t :: ts
           end
  end.

(** A token: a string without the separator. *)
Fixpoint has_no_space (s : string) : bool :=
  match s with
  | EmptyString => true
  | String c s' => negb (Ascii.eqb c " ") && has_no_space s'
  end.

(** [int(token)] in base 10 on ASCII text: blanks around the literal
    are stripped, a sign is allowed, and digits may be grouped by single
    underscores. *)
Definition is_space (c : ascii) : bool :=
  let n := nat_of_ascii c in
  ((9 <=? n) && (n <=? 13) || (28 <=? n) && (n <=? 32))%nat.

Definition digit_of (c : ascii) : option Z :=
  let n := nat_of_ascii c in
  if ((48 <=? n) && (n <=? 57))%nat then Some (Z.of_nat n - 48) else None.

Fixpoint lstrip (l : list ascii) : list ascii :=
  match l with
  | c :: l' => if is_space c then lstrip l' else l
  | [] => []
  end.

Definition strip (l : list ascii) : list ascii :=
  rev (lstrip (rev (lstrip l))).

(** The digits after the first one: [acc] is the value read so far and
    [after_digit] tells whether the previous character was a digit. *)
Fixpoint int_digits (acc : Z) (after_digit : bool) (l : list ascii)
  : option Z :=
  match l with
  | [] => if after_digit then Some acc else None
  | c :: l' =>
      match digit_of c with
      | Some d => int_digits (10 * acc + d) true l'
      | None =>
          if Ascii.eqb c "_" && after_digit then int_digits acc false l'
          else None
      end
  end.

Definition int_unsigned (l : list ascii) : option Z :=
  match l with
  | c :: l' =>
      match digit_of c with
      | Some d => int_digits d true l'
      | None => None
      end
  | [] => None
  end.

Definition int (token : string) : result Z :=
  let r :=
    match strip (list_ascii_of_string token) with
    | "-"%char :: l => Z.opp <$> int_unsigned l
    | "+"%char :: l => int_unsigned l
    | l => int_unsigned l
    end in
  match r with
  | Some n => Ok n
  | None => Raise (ValueError_invalid_literal token)
  end.

(** [l[-1]] and, as the [.str] accessor of pandas gives it, [l[-2]],
    which is null when the list is too short. *)
Definition last_token (l : list string) : string := List.last l "".

Definition penultimate_token (l : list string) : option string :=
  match rev l with
  | _ :: t :: _ => Some t
  | _ => None
  end.

(** ** Frames

    A pivoted frame: the keys of its rows, its value columns and its
    cells, where a null cell is absent.  The order of rows and of
    columns is not represented. *)
Record frame (K C : Type) `{Countable K} `{Countable C} : Type := mk_frame {
  index : gset K;
  columns : gset C;
  cells : gmap (K * C) Z
}.
Arguments mk_frame {K C _ _ _ _} _ _ _.
Arguments index {K C _ _ _ _} _.
Arguments columns {K C _ _ _ _} _.
Arguments cells {K C _ _ _ _} _.

(** [DataFrame.pivot] of a frame whose index is [K], on a column of
    type [C], with one column of values. *)
Definition pivot {K C} `{Countable K} `{Countable C}
    (long : list (K * C * Z)) : result (frame K C) :=
  match duplicated (map fst long) with
  | [] => Ok (mk_frame (list_to_set (map (fun x => x.1.1) long))
                       (list_to_set (map (fun x => x.1.2) long))
                       (list_to_map long))
  | _ => Raise ValueError_duplicate_entries
  end.

(** The frame with the columns added at lines 116-124. *)
Record parsed_row : Type := mk_parsed_row {
  p_row : forecast_row;
  target_date : date;
  target_type : string;
  target_summation : option string
}.

(** The index of the first pivot (lines 153-161) and of the second
    (lines 177-184). *)
Definition key5 : Type := string * string * date * date * quantile_t.
Definition key4 : Type := string * date * string * date.

Definition key5_of (x : parsed_row) : key5 :=
  (model_abbr (p_row x), unit_ (p_row x), forecast_date (p_row x),
   target_date x, quantile (p_row x)).

Definition key4_of (k : key5) : key4 :=
  let '(model, region, fdate, tdate, _) := k in (region, tdate, model, fdate).

Definition quantile_of (k : key5) : quantile_t := k.2.

(** Line 187. *)
Definition column_name (f : CommonFields) (q : quantile_t) : string :=
  common_name f +:+ "_" +:+ str_quantile q.

(** Lines 126-136.  The forecast dates of a feed are taken to be more
    than four weeks before the end of the range of timestamps, so that
    the right-hand side of the last comparison is a timestamp. *)
Definition mask (x : parsed_row) : Prop :=
  unit_ (p_row x) ≠ "US" ∧
  quantile (p_row x) ≠ None ∧
  target_summation x = Some "inc" ∧
  target_date x <= add_weeks (forecast_date (p_row x)) 4.

#[global] Instance mask_dec x : Decision (mask x).
Proof. unfold mask. apply _. Defined.

(** [pd.Timedelta(weeks=n)], in days, and a timestamp plus a delta;
    both raise when the result is out of range. *)
Definition Timedelta_weeks (n : Z) : result Z :=
  if in_timedelta_range (7 * n) then Ok (7 * n) else Raise OverflowError.

Definition timestamp_add (d : date) (days : Z) : result date :=
  if in_timestamp_range (d + days) then Ok (d + days) else Raise OverflowError.

(** Lines 116-124, for one row. *)
Definition parse_target (x : forecast_row) : result parsed_row :=
  let tokens := split " " (target x) in
  weeks ← int (hd "" tokens) ;
  delta ← Timedelta_weeks weeks ;
  target_date ← timestamp_add (forecast_date x) delta ;
  Ok (mk_parsed_row x target_date
                    (last_token tokens) (penultimate_token tokens)).

(** Lines 162-163: the pivot on the target type, and [reset_index],
    which inserts the levels of the index as columns, from the last to
    the first, and refuses a level named like a value column. *)
Definition pivot_target_type (df : list parsed_row)
  : result (frame key5 string) :=
  pivot ← pivot (map (fun x => (key5_of x, target_type x, value (p_row x))) df) ;
  match filter (fun c => c ∈ columns pivot) (rev index_names) with
  | [] => Ok pivot
  | c :: _ => Raise (ValueError_cannot_insert c)
  end.

(** Modelled from the spec: [helpers.rename_fields], which is not among
    the sources.  Section 4.1: only the columns with a canonical mapping
    are kept, renamed to the canonical names; rows are preserved. *)
Definition rename_cell (kv : key5 * string * Z)
  : option (key5 * CommonFields * Z) :=
  f ← value_field kv.1.2 ; Some (kv.1.1, f, kv.2).

Definition rename_fields (df : frame key5 string)
  : frame key5 CommonFields :=
  mk_frame (index df)
           (list_to_set (omap value_field (elements (columns df))))
           (list_to_map (omap rename_cell (map_to_list (cells df)))).

(** Lines 177-188: the pivot on the quantile, whose columns are the
    pairs of a value column and a quantile, flattened to a name. *)
Definition wide_cell (kv : key5 * CommonFields * Z) : key4 * string * Z :=
  (key4_of kv.1.1, column_name kv.1.2 (quantile_of kv.1.1), kv.2).

Definition pivot_quantile (data : frame key5 CommonFields)
  : frame key4 string :=
  mk_frame (set_map key4_of (index data))
           (list_to_set
              (f ← elements (columns data) ;
               q ← elements (set_map (D:=gset quantile_t) quantile_of (index data)) ;
               [column_name f q]))
           (list_to_map (map wide_cell (map_to_list (cells data)))).

(** [DataFrame.apply(..., axis="columns")] at lines 116-119: the
    function is called on the rows in their order; on a frame without
    rows the result is a frame, which cannot be assigned to the
    column. *)
Definition apply_rows {A B} (f : A -> result B) (df : list A)
  : result (list B) :=
  match df with
  | [] => Raise ValueError_cannot_set_frame
  | _ => traverse f df
  end.

(** [ForecastHubUpdater.transform], lines 114-189. *)
Definition transform (df : list forecast_row) : result (frame key4 string) :=
  df ← apply_rows parse_target df ;
  let df := filter mask df in
  pivot ← pivot_target_type df ;
  let data := rename_fields pivot in
  let wide_df := pivot_quantile data in
  Ok wide_df.

(** ** [get_latest_forecast_date], lines 192-212

    What the function reads of a zoltpy connection: the projects, the
    models of a project, the latest forecast of a model, which is null
    for a model without forecasts, and the date of its time zero, which
    is a date or null. *)
Record zoltar_forecast : Type := mk_zoltar_forecast {
  timezero_date : option date
}.

Record zoltar_model : Type := mk_zoltar_model {
  abbreviation : string;
  latest_forecast : option zoltar_forecast
}.

Record zoltar_project : Type := mk_zoltar_project {
  name : string;
  models : list zoltar_model
}.

(** What the function returns or raises: [l[0]] of an empty list is an
    IndexError, an attribute of [None] an AttributeError. *)
Inductive lookup (A : Type) : Type :=
| Returned (a : A)
| IndexError
| AttributeError.
Arguments Returned {A} a.
Arguments IndexError {A}.
Arguments AttributeError {A}.

Definition item0 {A} (l : list A) : lookup A :=
  match l with
  | x :: _ => Returned x
  | [] => IndexError
  end.

Section LatestForecast.

(** [str] of the date of a time zero. *)
Variable str_date : date -> string.

(** The result, and the messages passed to [_logger.info]. *)
Definition get_latest_forecast_date (projects : list zoltar_project)
    (project_name model_abbr : string) : lookup (string * list string) :=
  match item0 (filter (fun project => name project = project_name) projects) with
  | Returned project =>
      match item0 (filter (fun model => abbreviation model = model_abbr)
                          (models project)) with
      | Returned model =>
          match latest_forecast model with
          | Some forecast =>
              match timezero_date forecast with
              | Some latest_forecast_date =>
                  Returned (str_date latest_forecast_date,
                            ["Latest forecast for " +:+ model_abbr +:+ " is "
                             +:+ str_date latest_forecast_date])
              | None =>
                  Returned ("", ["No forecasts found for " +:+ model_abbr
                                 +:+ " in " +:+ project_name])
              end
          | None => AttributeError
          end
      | IndexError => IndexError
      | AttributeError => AttributeError
      end
  | IndexError => IndexError
  | AttributeError => AttributeError
  end.

End LatestForecast.

End ForecastHub.

(** * Sample data

    Small feeds and reference tables on which the definitions above are
    run in the examples below. *)

Module Samples.
Import CovidCountyData.

Definition sample_fips_data : county_table :=
  [("48001", (Some "TX", Some "Anderson County"));
   ("48003", (Some "TX", Some "Andrews County"));
   ("06037", (Some "CA", Some "Los Angeles County"))].

Definition sample_state_df : state_table :=
  [("06", Some "CA"); ("12", Some "FL"); ("48", Some "TX")].

(** An empty list of backfilled cases: nothing is removed. *)
Definition no_backfill (counties : list row) : list row := counties.

(** A stand-in for [str] of a frame, which tells its number of rows. *)
Definition str_rows (df : list row) : string :=
  str_int (Z.of_nat (length df)) +:+ " rows".

(** A row of the covid_us feed with a case count and an ICU capacity. *)
Definition feed_row (loc : Z) (d : date) (cases : Z) : raw_row Fields :=
  mk_raw_row loc (Some d)
    (<[CASES_TOTAL := cases]> (<[ICU_BEDS_CAPACITY_COUNT := 5]> ∅)).

(** Los Angeles County with a sentinel date next to a current one. *)
Definition feed_with_ancient_row : list (raw_row Fields) :=
  [feed_row 6037 (ymd 1900 1 1) 5; feed_row 6037 (ymd 2020 6 1) 7].

(** A state code that the census table does not have. *)
Definition unmatched_state_row : row :=
  mk_row (Some "99") (Some (ymd 2020 6 1)) None None None None ∅.

(** A county table and a row whose FIPS were left unpadded. *)
Definition unpadded_fips_data : county_table :=
  [("6037", (Some "CA", Some "Los Angeles County"))].

Definition unpadded_county_row : row :=
  mk_row (Some "6037") (Some (ymd 2020 6 1)) None None None None ∅.

(** California and Los Angeles County on one day. *)
Definition feed_state_and_county : list (raw_row Fields) :=
  [feed_row 6 (ymd 2020 6 1) 100; feed_row 6037 (ymd 2020 6 1) 7].

(** A state and a county that the reference tables do not have, next
    to Los Angeles County. *)
Definition feed_unmatched : list (raw_row Fields) :=
  [feed_row 99 (ymd 2020 6 1) 100; feed_row 6999 (ymd 2020 6 1) 3;
   feed_row 6037 (ymd 2020 6 1) 7].

(** Two Texas counties, three consecutive days each. *)
Definition feed_two_tx_counties : list (raw_row Fields) :=
  [feed_row 48001 (ymd 2020 6 1) 10; feed_row 48001 (ymd 2020 6 2) 20;
   feed_row 48001 (ymd 2020 6 3) 30;
   feed_row 48003 (ymd 2020 6 1) 1; feed_row 48003 (ymd 2020 6 2) 2;
   feed_row 48003 (ymd 2020 6 3) 3].

(** What the Texas shift makes of [feed_two_tx_counties]. *)
Definition two_tx_counties_shifted : list row :=
  [mk_row (Some "48001") (Some (ymd 2020 6 1)) (Some "USA") (Some "TX")
     (Some "Anderson County") (Some "county")
     (<[CASES := 20]> (<[ICU_BEDS := 5]> ∅));
   mk_row (Some "48001") (Some (ymd 2020 6 2)) (Some "USA") (Some "TX")
     (Some "Anderson County") (Some "county")
     (<[CASES := 30]> (<[ICU_BEDS := 5]> ∅));
   mk_row (Some "48003") (Some (ymd 2020 6 3)) (Some "USA") (Some "TX")
     (Some "Andrews County") (Some "county")
     (<[CASES := 1]> (<[ICU_BEDS := 5]> ∅));
   mk_row (Some "48003") (Some (ymd 2020 6 1)) (Some "USA") (Some "TX")
     (Some "Andrews County") (Some "county")
     (<[CASES := 2]> (<[ICU_BEDS := 5]> ∅));
   mk_row (Some "48003") (Some (ymd 2020 6 2)) (Some "USA") (Some "TX")
     (Some "Andrews County") (Some "county")
     (<[CASES := 3]> (<[ICU_BEDS := 5]> ∅))].

(** A county row after the resolver. *)
Definition tx_row (fips county : string) (d : date) (cases : Z) : row :=
  mk_row (Some fips) (Some d) (Some "USA") (Some "TX") (Some county)
         (Some "county") (<[CASES := cases]> (<[ICU_BEDS := 5]> ∅)).

(** ** Forecasts *)

Definition forecast (region descriptor : string)
    (q : ForecastHub.quantile_t) (v : Z) : ForecastHub.forecast_row :=
  ForecastHub.mk_forecast_row "COVIDhub-ensemble" region (ymd 2020 8 3)
    descriptor q v.

(** California cases one week ahead at three quantiles, with rows that
    the filters exclude: a point forecast, the national forecast, a
    cumulative target and a horizon of five weeks. *)
Definition forecast_feed : list ForecastHub.forecast_row :=
  [forecast "06" "1 wk inc case" (Some "0.1") 10;
   forecast "06" "1 wk inc case" (Some "0.5") 50;
   forecast "06" "1 wk inc case" (Some "0.9") 90;
   forecast "06" "1 wk inc case" None 50;
   forecast "US" "1 wk inc case" (Some "0.5") 5000;
   forecast "06" "1 wk cum case" (Some "0.5") 777;
   forecast "06" "5 wk inc case" (Some "0.5") 555].

(** A descriptor with three tokens. *)
Definition forecast_feed_short_descriptor : list ForecastHub.forecast_row :=
  [forecast "06" "1 wk inc" (Some "0.5") 50].

(** Forecasts of one target at one quantile from two rows, and a target
    type named like a level of the index. *)
Definition forecast_feed_repeated : list ForecastHub.forecast_row :=
  [forecast "06" "1 wk inc case" (Some "0.5") 50;
   forecast "06" "1 wk ahead inc case" (Some "0.5") 51].

Definition forecast_feed_quantile_type : list ForecastHub.forecast_row :=
  [forecast "06" "1 wk inc quantile" (Some "0.5") 50].

(** ** The usafacts feed *)

Definition usafacts_row (loc : Z) (d : date) (cases : Z)
  : raw_row UsaFactsFields :=
  mk_raw_row loc (Some d) (<[UF_CASES_TOTAL := cases]> ∅).

Definition feed_usafacts : list (raw_row UsaFactsFields) :=
  [usafacts_row 6 (ymd 2020 6 1) 100; usafacts_row 6037 (ymd 2020 6 1) 7].

(** A county table that lists Los Angeles County twice. *)
Definition repeated_fips_data : county_table :=
  [("06037", (Some "CA", Some "Los Angeles County"));
   ("06037", (Some "CA", Some "Los Angeles"))].

(** ** Zoltar *)

(** Two projects of the same name; only the second has the ensemble. *)
Definition zoltar_projects : list ForecastHub.zoltar_project :=
  [ForecastHub.mk_zoltar_project "COVID-19 Forecasts"
     [ForecastHub.mk_zoltar_model "COVIDhub-baseline"
        (Some (ForecastHub.mk_zoltar_forecast (Some (ymd 2020 8 3))));
      ForecastHub.mk_zoltar_model "COVIDhub-baseline" None];
   ForecastHub.mk_zoltar_project "COVID-19 Forecasts"
     [ForecastHub.mk_zoltar_model "COVIDhub-ensemble"
        (Some (ForecastHub.mk_zoltar_forecast (Some (ymd 2020 8 10))))]].

End Samples.

(** * Properties *)

(** ** Lists *)

Section ListFacts.
Context {A : Type} `{EqDecision A}.

Lemma duplicated_from_nil (seen l : list A) :
  duplicated_from seen l = [] <-> NoDup l /\ forall x, x ∈ l -> x ∉ seen.
Proof.
  revert seen. induction l as [|x l IH]; intros seen; simpl.
  - split; [intros _; split; [constructor | intros x Hx; inversion Hx] | done].
  - case_bool_decide as Hin.
    + split; [discriminate |].
      intros [_ Hall]. exfalso. apply (Hall x); [left | exact Hin].
    + rewrite IH. split.
      * intros [Hnd Hall]. split.
        -- constructor; [| exact Hnd].
           intros Hx. apply (Hall x Hx). left.
        -- intros y Hy Hseen. apply elem_of_cons in Hy as [-> | Hy]; [done |].
           apply (Hall y Hy). by right.
      * intros [Hnd Hall]. apply NoDup_cons in Hnd as [Hx Hnd]. split; [done |].
        intros y Hy Hseen. apply elem_of_cons in Hseen as [-> | Hseen]; [done |].
        apply (Hall y); [by right | done].
Qed.

Lemma duplicated_nil (l : list A) : duplicated l = [] <-> NoDup l.
Proof.
  unfold duplicated. rewrite duplicated_from_nil. split; [by intros [? _] |].
  intros Hnd. split; [done |]. intros x _ Hx. inversion Hx.
Qed.

Lemma duplicated_from_elem (seen l : list A) (x : A) :
  x ∈ duplicated_from seen l -> x ∈ l.
Proof.
  revert seen. induction l as [|y l IH]; intros seen; simpl.
  - intros Hx. inversion Hx.
  - case_bool_decide.
    + intros Hx. apply elem_of_cons in Hx as [-> | Hx]; [left | right; eauto].
    + intros Hx. right. eauto.
Qed.

Lemma unique_from_elem (seen l : list A) (x : A) :
  x ∈ unique_from seen l <-> x ∈ l /\ x ∉ seen.
Proof.
  revert seen. induction l as [|y l IH]; intros seen; simpl.
  - split; [intros Hx; inversion Hx | intros [Hx _]; inversion Hx].
  - case_bool_decide as Hin.
    + rewrite IH, elem_of_cons. split; [intros [? ?]; auto |].
      intros [[-> | Hx] Hs]; [done | auto].
    + rewrite !elem_of_cons, IH, elem_of_cons. split.
      * intros [-> | [Hx Hs]]; [auto |]. split; [auto |]. intros ?. apply Hs. auto.
      * intros [[-> | Hx] Hs]; [auto |].
        destruct (decide (x = y)) as [-> | Hne]; [auto |].
        right. split; [done |]. intros [? | ?]; done.
Qed.

Lemma unique_elem (l : list A) (x : A) : x ∈ unique l <-> x ∈ l.
Proof.
  unfold unique. rewrite unique_from_elem. split; [by intros [? _] |].
  intros Hx. split; [done |]. intros Hn. inversion Hn.
Qed.

End ListFacts.

Lemma fold_max_spec (ds : list Z) (d : Z) :
  (fold_left Z.max ds d = d \/ fold_left Z.max ds d ∈ ds) /\
  d <= fold_left Z.max ds d /\
  forall x, x ∈ ds -> x <= fold_left Z.max ds d.
Proof.
  revert d. induction ds as [|y ds IH]; intros d; simpl.
  - split; [by left |]. split; [lia |]. intros x Hx. inversion Hx.
  - destruct (IH (Z.max d y)) as (Hin & Hle & Hall). split; [| split].
    + destruct Hin as [Heq | Hin].
      * rewrite Heq. destruct (Z.max_spec d y) as [[_ ->] | [_ ->]];
          [right; left | by left].
      * right. by right.
    + lia.
    + intros x Hx. apply elem_of_cons in Hx as [-> | Hx]; [lia | auto].
Qed.

(** * The county data transformer *)

Module CountyProofs.
Import CovidCountyData.

(** ** The staleness check *)

Lemma series_max_spec (dates : list (option date)) (latest : date) :
  series_max dates = Some latest ->
  Some latest ∈ dates /\ forall d, Some d ∈ dates -> d <= latest.
Proof.
  unfold series_max. intros Hmax.
  assert (Hmem : forall d, d ∈ omap id dates <-> Some d ∈ dates).
  { intros d. rewrite list_elem_of_omap. split.
    - intros (x & Hx & Hd). destruct x; simpl in Hd; by simplify_eq.
    - intros Hd. by exists (Some d). }
  revert Hmax Hmem. destruct (omap id dates) as [|d ds];
    intros Hmax Hmem; [discriminate Hmax |].
  injection Hmax as <-.
  destruct (fold_max_spec ds d) as (Hin & Hle & Hall). split.
  - apply Hmem. destruct Hin as [-> | Hin]; [left | by right].
  - intros x Hx. apply Hmem in Hx.
    apply elem_of_cons in Hx as [-> | Hx]; auto.
Qed.

Lemma series_max_none (dates : list (option date)) :
  series_max dates = None <-> forall d, Some d ∉ dates.
Proof.
  unfold series_max.
  assert (Hmem : forall d, d ∈ omap id dates <-> Some d ∈ dates).
  { intros d. rewrite list_elem_of_omap. split.
    - intros (x & Hx & Hd). destruct x; simpl in Hd; by simplify_eq.
    - intros Hd. by exists (Some d). }
  destruct (omap id dates) as [|d ds]; split.
  - intros _ d Hd. apply Hmem in Hd. inversion Hd.
  - done.
  - discriminate.
  - intros Hnone. exfalso. apply (Hnone d). apply Hmem. left.
Qed.




(** ** FIPS derivation *)






(** ** The geo resolver *)

Section Resolver.
Variable fips_data : county_table.
Variable state_df : state_table.

Local Abbreviation resolver :=
  (_counties_states_with_geoattributes fips_data state_df).

(** The resolver never raises; its two frames and its log are these. *)
Lemma resolver_result (df : list row) :
  resolver df =
  (Ok (map county_tag
         (filter (fun r => r_state r ≠ None)
            (flat_map (merge_county fips_data)
               (filter (fun r => ¬ state_mask r) (map usa df)))),
       map state_tag
         (flat_map (merge_state state_df) (filter state_mask (map usa df)))),
   if decide (0 < length
                (filter (fun r => r_state r = None)
                   (flat_map (merge_county fips_data)
                      (filter (fun r => ¬ state_mask r) (map usa df)))))%nat
   then [mk_log WARNING "Some counties did not match by fips"
           (unique (map r_fips
              (filter (fun r => r_state r = None)
                 (flat_map (merge_county fips_data)
                    (filter (fun r => ¬ state_mask r) (map usa df))))))
           None]
   else []).
Proof.
  unfold _counties_states_with_geoattributes, usa, county_tag, state_tag.
  destruct (decide _); reflexivity.
Qed.

Lemma elem_of_map_iff {A B} (f : A -> B) (l : list A) (y : B) :
  y ∈ map f l <-> exists x, y = f x /\ x ∈ l.
Proof.
  rewrite list_elem_of_In, in_map_iff. split.
  - intros (x & <- & Hx). exists x. by rewrite list_elem_of_In.
  - intros (x & -> & Hx). exists x. by rewrite <- list_elem_of_In.
Qed.

Lemma elem_of_flat_map_iff {A B} (f : A -> list B) (l : list A) (y : B) :
  y ∈ flat_map f l <-> exists x, x ∈ l /\ y ∈ f x.
Proof.
  rewrite list_elem_of_In, in_flat_map. split.
  - intros (x & Hx & Hy). exists x. by rewrite !list_elem_of_In.
  - intros (x & Hx & Hy). exists x. by rewrite <- !list_elem_of_In.
Qed.

(** What the two joins do to a row. *)
Lemma merge_county_elem (r r' : row) :
  r' ∈ merge_county fips_data r <->
  (exists e, e ∈ fips_data /\ Some e.1 = r_fips r /\
             r' = set_state_county e.2.1 e.2.2 r) \/
  ((forall e, e ∈ fips_data -> Some e.1 ≠ r_fips r) /\
   r' = set_state_county None None r).
Proof.
  unfold merge_county.
  destruct (filter (fun e => Some e.1 = r_fips r) fips_data) as [|m ms] eqn:E.
  - rewrite list_elem_of_singleton. split.
    + intros ->. right. split; [| done]. intros e He Hk.
      assert (Hin : e ∈ filter (fun e => Some e.1 = r_fips r) fips_data)
        by (apply list_elem_of_filter; done).
      rewrite E in Hin. inversion Hin.
    + intros [(e & He & Hk & _) | [_ ->]]; [| done].
      assert (Hin : e ∈ filter (fun e => Some e.1 = r_fips r) fips_data)
        by (apply list_elem_of_filter; done).
      rewrite E in Hin. inversion Hin.
  - rewrite <- E, elem_of_map_iff. split.
    + intros (e & -> & He). apply list_elem_of_filter in He as [Hk He].
      left. by exists e.
    + intros [(e & He & Hk & ->) | [Hnone _]].
      * exists e. split; [done |]. by apply list_elem_of_filter.
      * assert (Hin : m ∈ filter (fun e => Some e.1 = r_fips r) fips_data)
          by (rewrite E; left).
        apply list_elem_of_filter in Hin as [Hk Hm]. by destruct (Hnone m Hm).
Qed.

Lemma merge_state_elem (r r' : row) :
  r' ∈ merge_state state_df r <->
  (exists e, e ∈ state_df /\ Some e.1 = r_fips r /\ r' = set_state e.2 r) \/
  ((forall e, e ∈ state_df -> Some e.1 ≠ r_fips r) /\ r' = set_state None r).
Proof.
  unfold merge_state.
  destruct (filter (fun e => Some e.1 = r_fips r) state_df) as [|m ms] eqn:E.
  - rewrite list_elem_of_singleton. split.
    + intros ->. right. split; [| done]. intros e He Hk.
      assert (Hin : e ∈ filter (fun e => Some e.1 = r_fips r) state_df)
        by (apply list_elem_of_filter; done).
      rewrite E in Hin. inversion Hin.
    + intros [(e & He & Hk & _) | [_ ->]]; [| done].
      assert (Hin : e ∈ filter (fun e => Some e.1 = r_fips r) state_df)
        by (apply list_elem_of_filter; done).
      rewrite E in Hin. inversion Hin.
  - rewrite <- E, elem_of_map_iff. split.
    + intros (e & -> & He). apply list_elem_of_filter in He as [Hk He].
      left. by exists e.
    + intros [(e & He & Hk & ->) | [Hnone _]].
      * exists e. split; [done |]. by apply list_elem_of_filter.
      * assert (Hin : m ∈ filter (fun e => Some e.1 = r_fips r) state_df)
          by (rewrite E; left).
        apply list_elem_of_filter in Hin as [Hk Hm]. by destruct (Hnone m Hm).
Qed.

(** ** The partition by FIPS length *)

(** A resolved FIPS has 2 or 5 characters. *)
Local Abbreviation resolved r :=
  (exists s, r_fips r = Some s /\
             (String.length s = 2%nat \/ String.length s = 5%nat)).


End Resolver.

(** ** Null keys and ancient dates *)

Lemma filter_all {A} (P : A -> Prop) `{forall x, Decision (P x)} (l : list A) :
  ¬ Exists (fun x => ¬ P x) l -> filter P l = l.
Proof.
  induction l as [|x l IH]; intros Hno; [done |].
  rewrite filter_cons. destruct (decide (P x)) as [Hx | Hx].
  - f_equal. apply IH. intros Hex. apply Hno. by right.
  - exfalso. apply Hno. by left.
Qed.

Lemma filter_not_bad (df : list row) :
  ¬ Exists bad_row df -> filter (fun r => ¬ bad_row r) df = df.
Proof.
  intros Hno. apply filter_all. intros Hex. apply Hno.
  apply Exists_exists in Hex as (r & Hr & Hbad). apply Exists_exists.
  exists r. split; [done |]. by destruct (decide (bad_row r)).
Qed.

Lemma filter_not_ancient (df : list row) :
  ¬ Exists ancient_row df -> filter (fun r => ¬ ancient_row r) df = df.
Proof.
  intros Hno. apply filter_all. intros Hex. apply Hno.
  apply Exists_exists in Hex as (r & Hr & Hbad). apply Exists_exists.
  exists r. split; [done |]. by destruct (decide (ancient_row r)).
Qed.

(** [_drop_bad_rows] never raises; it keeps the rows without a null key
    and not before 2019-12-01, in their order, and logs what it drops. *)
Lemma drop_bad_rows_result (str_frame : list row -> string) (df : list row) :
  _drop_bad_rows str_frame df =
  (Ok (filter (fun r => ¬ ancient_row r) (filter (fun r => ¬ bad_row r) df)),
   (if decide (Exists bad_row df)
    then [mk_log WARNING "Dropping rows with null in important columns"
            [] (Some (str_frame (filter bad_row df)))]
    else []) ++
   (if decide (Exists ancient_row (filter (fun r => ¬ bad_row r) df))
    then [mk_log INFO "Dropping rows of ancient data"
            [] (Some (str_frame
                        (filter ancient_row
                           (filter (fun r => ¬ bad_row r) df))))]
    else [])).
Proof.
  unfold _drop_bad_rows.
  destruct (decide (Exists bad_row df)) as [Hbad | Hbad].
  - destruct (decide (Exists ancient_row (filter (fun r => ¬ bad_row r) df)))
      as [Hold | Hold]; cbn.
    + destruct (decide _); [reflexivity | contradiction].
    + destruct (decide _); [contradiction |].
      rewrite (filter_not_ancient _ Hold). reflexivity.
  - rewrite (filter_not_bad _ Hbad).
    destruct (decide (Exists ancient_row df)) as [Hold | Hold]; cbn.
    + destruct (decide _); [reflexivity | contradiction].
    + destruct (decide _); [contradiction |].
      rewrite (filter_not_ancient _ Hold). reflexivity.
Qed.

(** ** Indexing by the timeseries key *)

Lemma set_index_verify_ok (df out : list row) :
  set_index_verify df = Ok out <-> out = df /\ NoDup (map key_of df).
Proof.
  unfold set_index_verify.
  destruct (duplicated (map key_of df)) as [|k ks] eqn:E.
  - apply duplicated_nil in E. split; [intros [= <-]; done | intros [-> _]; done].
  - split; [discriminate |]. intros [_ Hnd].
    apply duplicated_nil in Hnd. congruence.
Qed.

Lemma set_index_verify_raise (df : list row) :
  ¬ NoDup (map key_of df) ->
  exists dups, set_index_verify df = Raise (ValueError_duplicate_keys dups) /\
               dups ≠ [] /\ forall k, k ∈ dups -> k ∈ map key_of df.
Proof.
  intros Hdup. unfold set_index_verify.
  destruct (duplicated (map key_of df)) as [|k ks] eqn:E.
  - apply duplicated_nil in E. contradiction.
  - exists (unique (k :: ks)). split; [done |]. split.
    + intros Hnil. assert (Hk : k ∈ unique (k :: ks)) by (apply unique_elem; left).
      rewrite Hnil in Hk. inversion Hk.
    + intros k' Hk'. apply (proj1 (unique_elem _ _)) in Hk'.
      rewrite <- E in Hk'. by apply duplicated_from_elem in Hk'.
Qed.

(** ** Columns *)

Lemma drop_columns_lookup (columns : list CommonFields) (r : row)
    (c : CommonFields) :
  r_values (drop_columns columns r) !! c
  = if decide (c ∈ columns) then None else r_values r !! c.
Proof.
  unfold drop_columns. simpl.
  induction columns as [|c' columns IH]; simpl.
  - destruct (decide (c ∈ [])) as [Hin | _]; [inversion Hin | done].
  - destruct (decide (c = c')) as [-> | Hne].
    + rewrite lookup_delete_eq.
      destruct (decide (c' ∈ c' :: columns)) as [_ | Hn]; [done |].
      exfalso. apply Hn. left.
    + rewrite lookup_delete_ne by done. rewrite IH.
      destruct (decide (c ∈ columns)) as [Hin | Hn];
        destruct (decide (c ∈ c' :: columns)) as [Hin' | Hn']; try done.
      * exfalso. apply Hn'. by right.
      * apply elem_of_cons in Hin' as [-> | Hin']; done.
Qed.

Lemma drop_columns_keeps (columns : list CommonFields) (r : row) :
  r_fips (drop_columns columns r) = r_fips r /\
  r_date (drop_columns columns r) = r_date r /\
  r_country (drop_columns columns r) = r_country r /\
  r_state (drop_columns columns r) = r_state r /\
  r_county (drop_columns columns r) = r_county r /\
  r_aggregate_level (drop_columns columns r) = r_aggregate_level r.
Proof. done. Qed.

Lemma null_fl_icu_keeps (r : row) :
  r_fips (null_fl_icu r) = r_fips r /\
  r_date (null_fl_icu r) = r_date r /\
  r_country (null_fl_icu r) = r_country r /\
  r_state (null_fl_icu r) = r_state r /\
  r_county (null_fl_icu r) = r_county r /\
  r_aggregate_level (null_fl_icu r) = r_aggregate_level r /\
  forall c, c ≠ CURRENT_ICU ->
            r_values (null_fl_icu r) !! c = r_values r !! c.
Proof.
  unfold null_fl_icu. destruct (decide (is_incorrect_fl_icu r)); simpl.
  - repeat split; try done. intros c Hc. by rewrite lookup_delete_ne.
  - done.
Qed.

Lemma null_fl_icu_nulls (r : row) :
  is_incorrect_fl_icu r -> r_values (null_fl_icu r) !! CURRENT_ICU = None.
Proof.
  intros Hfl. unfold null_fl_icu.
  destruct (decide (is_incorrect_fl_icu r)); [| done]. simpl.
  apply lookup_delete_eq.
Qed.

(** ** The composition of [transform] *)

Section Transform.
Variable str_date : date -> string.
Variable today : date.
Variable fips_data : county_table.
Variable state_df : state_table.
Variable backfill : list row -> list row.
Variable str_frame : list row -> string.

Local Abbreviation resolver :=
  (_counties_states_with_geoattributes fips_data state_df).
Local Abbreviation split := (transform_split str_date today fips_data state_df).
Local Abbreviation frame_of :=
  (transform_frame str_date today fips_data state_df backfill str_frame).
Local Abbreviation run :=
  (transform str_date today fips_data state_df backfill str_frame).
Local Abbreviation drop_rows := (_drop_bad_rows str_frame).
Local Abbreviation renamed :=
  (fun df : list (raw_row Fields) =>
     rename_fields (map (fun r => (fips_from_int (location r), r)) df)).

(** A stale feed stops the run before anything else is done or logged. *)
Lemma transform_stale (df : list (raw_row Fields)) (e : error) :
  _fail_if_no_recent_dates str_date today (map dt df) None = Raise e ->
  split df = (Raise e, []) /\
  frame_of df = (Raise e, []) /\
  run df = (Raise e, []).
Proof.
  intros Hstale.
  unfold transform, transform_frame, transform_split, lift, mbind, M_bind.
  rewrite Hstale. done.
Qed.

(** Past the staleness check the run is the resolver, the shift of the
    Texas counties, the backfill removal on the counties, the drop of
    the state bed columns, the concatenation, [_drop_bad_rows], the
    Florida correction and the indexing, in this order. *)
Lemma transform_fresh (df : list (raw_row Fields)) :
  _fail_if_no_recent_dates str_date today (map dt df) None = Ok tt ->
  exists counties states log1 frame log2,
    resolver (renamed df) = (Ok (counties, states), log1) /\
    drop_rows (map (drop_columns state_columns_to_drop) states
               ++ backfill (shift_tx_counties counties))
      = (Ok frame, log2) /\
    split df = (Ok (shift_tx_counties counties, states), log1) /\
    frame_of df = (Ok (map null_fl_icu frame), log1 ++ log2) /\
    run df = (set_index_verify (map null_fl_icu frame), log1 ++ log2).
Proof.
  intros Hstale.
  pose proof (resolver_result fips_data state_df (renamed df)) as Hres.
  set (counties := map county_tag _) in Hres.
  set (states := map state_tag _) in Hres.
  set (log1 := if decide _ then _ else _) in Hres.
  clearbody counties states log1.
  pose proof (drop_bad_rows_result str_frame
                (map (drop_columns state_columns_to_drop) states
                 ++ backfill (shift_tx_counties counties))) as Hdrop.
  match type of Hdrop with
  | _ = (Ok ?f, ?l) => set (frame := f) in Hdrop; set (log2 := l) in Hdrop
  end.
  clearbody frame log2.
  exists counties, states, log1, frame, log2.
  split; [exact Hres |]. split; [exact Hdrop |].
  unfold transform, transform_frame, transform_split, lift, mbind, M_bind,
    mret, M_ret.
  rewrite Hstale, Hres. cbn. rewrite Hdrop. cbn.
  rewrite !app_nil_r. destruct (set_index_verify _); done.
Qed.

Lemma in_frame_inv (pre : list row) (r : row) :
  r ∈ map null_fl_icu
        (filter (fun r => ¬ ancient_row r) (filter (fun r => ¬ bad_row r) pre)) ->
  exists r0, r = null_fl_icu r0 /\ r0 ∈ pre /\ ¬ bad_row r0 /\ ¬ ancient_row r0.
Proof.
  intros Hr. apply elem_of_map_iff in Hr as (r0 & -> & Hr0).
  apply list_elem_of_filter in Hr0 as [Hold Hr0].
  apply list_elem_of_filter in Hr0 as [Hbad Hr0]. by exists r0.
Qed.

Lemma bad_row_null_fl_icu (r : row) : bad_row (null_fl_icu r) <-> bad_row r.
Proof.
  destruct (null_fl_icu_keeps r) as (Hf & Hd & _ & Hs & _).
  unfold bad_row. by rewrite Hf, Hd, Hs.
Qed.

Lemma ancient_row_null_fl_icu (r : row) :
  ancient_row (null_fl_icu r) <-> ancient_row r.
Proof.
  destruct (null_fl_icu_keeps r) as (_ & Hd & _).
  unfold ancient_row. by rewrite Hd.
Qed.

Lemma is_incorrect_fl_icu_stable (r : row) :
  is_incorrect_fl_icu (null_fl_icu r) <-> is_incorrect_fl_icu r.
Proof.
  destruct (null_fl_icu_keeps r) as (Hf & Hd & _).
  unfold is_incorrect_fl_icu. by rewrite Hf, Hd.
Qed.

(** C3 (amended).  Within [transform] the staleness check comes first:
    a stale feed raises before anything is logged.  On a fresh feed the
    backfill removal is applied to the county partition as the resolver
    and the Texas shift leave it, before any row is rejected.  Then the
    rows with a null FIPS, DATE or STATE are dropped, and a warning is
    logged with the text of the frame of these rows; then, of the rows
    that are left, those dated before 2019-12-01 are dropped, and an
    entry is logged at level INFO with the text of the frame of these
    rows; the Florida ICU values are nulled last, in the rows that are
    left, before indexing.  So no row of the indexed frame has a null
    key or an ancient date, every flagged Florida row of it has no
    CURRENT_ICU, and a row with a null key is in the frame of the
    warning, as it was before any correction, and neither in the frame
    of the ancient rows nor, corrected, in the indexed frame. *)
Theorem quality_filters_order (df : list (raw_row Fields))
    (Hfresh : _fail_if_no_recent_dates str_date today (map dt df) None = Ok tt) :
  (forall df' e,
      _fail_if_no_recent_dates str_date today (map dt df') None = Raise e ->
      run df' = (Raise e, [])) /\
  exists counties states log1,
    split df = (Ok (counties, states), log1) /\
    let pre := map (drop_columns state_columns_to_drop) states
               ++ backfill counties in
    let null_keys := filter bad_row pre in
    let keyed := filter (fun r => ¬ bad_row r) pre in
    let ancient := filter ancient_row keyed in
    let frame := map null_fl_icu (filter (fun r => ¬ ancient_row r) keyed) in
    let log2 :=
      (if decide (Exists bad_row pre)
       then [mk_log WARNING "Dropping rows with null in important columns"
               [] (Some (str_frame null_keys))]
       else []) ++
      (if decide (Exists ancient_row keyed)
       then [mk_log INFO "Dropping rows of ancient data"
               [] (Some (str_frame ancient))]
       else []) in
    frame_of df = (Ok frame, log1 ++ log2) /\
    run df = (set_index_verify frame, log1 ++ log2) /\
    (forall r, r ∈ frame ->
       r_fips r ≠ None /\ r_date r ≠ None /\ r_state r ≠ None /\
       ¬ ancient_row r /\
       (is_incorrect_fl_icu r -> r_values r !! CURRENT_ICU = None)) /\
    (forall r0, r0 ∈ pre -> bad_row r0 ->
       r0 ∈ null_keys /\
       mk_log WARNING "Dropping rows with null in important columns"
         [] (Some (str_frame null_keys)) ∈ log2 /\
       (r0 ∉ ancient) /\
       null_fl_icu r0 ∉ frame).
Proof.
  split.
  { intros df' e He. by destruct (transform_stale df' e He) as (_ & _ & ?). }
  destruct (transform_fresh df Hfresh)
    as (counties & states & log1 & frame & log2 & Hres & Hdrop & Hsplit
        & Hframe & Hrun).
  rewrite drop_bad_rows_result in Hdrop. injection Hdrop as Hf Hl.
  exists (shift_tx_counties counties), states, log1.
  split; [exact Hsplit |]. cbv zeta. rewrite Hf, Hl.
  split; [exact Hframe |]. split; [exact Hrun |]. split.
  - intros r Hr. rewrite <- Hf in Hr.
    apply in_frame_inv in Hr as (r0 & -> & _ & Hbad & Hold).
    destruct (null_fl_icu_keeps r0) as (Hfi & Hd & _ & Hs & _).
    rewrite Hfi, Hd, Hs. unfold bad_row in Hbad.
    split; [intros Hnone; apply Hbad; auto |].
    split; [intros Hnone; apply Hbad; auto |].
    split; [intros Hnone; apply Hbad; auto |]. split.
    + by rewrite ancient_row_null_fl_icu.
    + intros Hfl. apply (proj1 (is_incorrect_fl_icu_stable r0)) in Hfl.
      by apply null_fl_icu_nulls.
  - intros r0 Hr0 Hbad. split; [by apply list_elem_of_filter |]. split.
    { rewrite <- Hl. apply elem_of_app. left.
      destruct (decide (Exists bad_row _)) as [_ | Hno]; [left |].
      exfalso. apply Hno. apply Exists_exists. eauto. }
    split.
    + intros Hin. apply list_elem_of_filter in Hin as [_ Hin].
      by apply list_elem_of_filter in Hin as [Hgood _].
    + intros Hin. rewrite <- Hf in Hin.
      apply in_frame_inv in Hin as (r1 & Heq & _ & Hgood & _).
      apply Hgood. apply (proj1 (bad_row_null_fl_icu r1)). rewrite <- Heq.
      by apply (proj2 (bad_row_null_fl_icu r0)).
Qed.

(** ** The state bed columns *)

Lemma filter_map_stable {A} (P : A -> Prop) `{forall x, Decision (P x)}
    (f : A -> A) (l : list A) :
  (forall x, P (f x) <-> P x) -> filter P (map f l) = map f (filter P l).
Proof.
  intros Hf. induction l as [|x l IH]; [done |]. simpl.
  rewrite !filter_cons.
  destruct (decide (P (f x))) as [Hy | Hn]; destruct (decide (P x)) as [Hx | Hx].
  - simpl. by rewrite IH.
  - exfalso. apply Hx. by apply Hf.
  - exfalso. apply Hn. by apply Hf.
  - exact IH.
Qed.

Lemma foldr_delete_commute (columns : list CommonFields) (c : CommonFields)
    (v : gmap CommonFields Z) :
  delete c (foldr delete v columns) = foldr delete (delete c v) columns.
Proof.
  induction columns as [|c' columns IH]; [done |]. simpl.
  by rewrite delete_delete, IH.
Qed.

Lemma null_fl_icu_drop_columns (columns : list CommonFields) (r : row) :
  null_fl_icu (drop_columns columns r) = drop_columns columns (null_fl_icu r).
Proof.
  unfold null_fl_icu.
  destruct (decide (is_incorrect_fl_icu (drop_columns columns r))) as [Hd | Hd];
    destruct (decide (is_incorrect_fl_icu r)) as [Hr | Hr]; try done.
  unfold drop_columns, set_values. simpl. f_equal.
  apply foldr_delete_commute.
Qed.

Lemma clean_app (l1 l2 : list row) : clean (l1 ++ l2) = clean l1 ++ clean l2.
Proof. unfold clean. by rewrite !filter_app, map_app. Qed.

Lemma clean_drop_columns (columns : list CommonFields) (l : list row) :
  clean (map (drop_columns columns) l) = map (drop_columns columns) (clean l).
Proof.
  unfold clean.
  rewrite (filter_map_stable (fun r => ¬ bad_row r)) by done.
  rewrite (filter_map_stable (fun r => ¬ ancient_row r)) by done.
  rewrite !map_map. apply map_ext. intros r. apply null_fl_icu_drop_columns.
Qed.

(** C10.  In [transform] the four bed columns are dropped from the
    state partition before the concatenation: on a fresh feed the frame
    that is indexed is, first, the state rows, each being the row it
    would be without this step with ICU_BEDS, HOSPITAL_BEDS_IN_USE_ANY,
    STAFFED_BEDS and CURRENT_ICU_TOTAL removed and every other column
    as it was, and then the county rows, which the step does not
    touch. *)
Theorem state_bed_columns_dropped (df : list (raw_row Fields))
    (Hfresh : _fail_if_no_recent_dates str_date today (map dt df) None = Ok tt) :
  exists counties states log1 log2,
    split df = (Ok (counties, states), log1) /\
    let drop := drop_columns state_columns_to_drop in
    let out_states := map drop (clean states) in
    let out_counties := clean (backfill counties) in
    frame_of df = (Ok (out_states ++ out_counties), log1 ++ log2) /\
    run df = (set_index_verify (out_states ++ out_counties), log1 ++ log2) /\
    clean (states ++ backfill counties) = clean states ++ out_counties /\
    (forall r, r ∈ out_states ->
       r_values r !! ICU_BEDS = None /\
       r_values r !! HOSPITAL_BEDS_IN_USE_ANY = None /\
       r_values r !! STAFFED_BEDS = None /\
       r_values r !! CURRENT_ICU_TOTAL = None) /\
    (forall r,
       r_fips (drop r) = r_fips r /\ r_date (drop r) = r_date r /\
       r_country (drop r) = r_country r /\ r_state (drop r) = r_state r /\
       r_county (drop r) = r_county r /\
       r_aggregate_level (drop r) = r_aggregate_level r /\
       forall c, c ∉ state_columns_to_drop ->
                 r_values (drop r) !! c = r_values r !! c).
Proof.
  destruct (transform_fresh df Hfresh)
    as (counties & states & log1 & frame & log2 & Hres & Hdrop & Hsplit
        & Hframe & Hrun).
  rewrite drop_bad_rows_result in Hdrop. injection Hdrop as Hf Hl.
  exists (shift_tx_counties counties), states, log1, log2.
  split; [exact Hsplit |]. cbv zeta.
  assert (Hshape : map null_fl_icu frame
                   = map (drop_columns state_columns_to_drop) (clean states)
                     ++ clean (backfill (shift_tx_counties counties))).
  { rewrite <- Hf. fold (clean (map (drop_columns state_columns_to_drop) states
                                ++ backfill (shift_tx_counties counties))).
    by rewrite clean_app, clean_drop_columns. }
  rewrite <- Hshape.
  split; [exact Hframe |]. split; [exact Hrun |].
  split; [apply clean_app |]. split.
  - intros r Hr. apply elem_of_map_iff in Hr as (r0 & -> & _).
    rewrite !drop_columns_lookup. repeat split; by case_decide.
  - intros r. destruct (drop_columns_keeps state_columns_to_drop r)
      as (? & ? & ? & ? & ? & ?).
    repeat split; try done. intros c Hc. rewrite drop_columns_lookup.
    destruct (decide (c ∈ state_columns_to_drop)) as [Hin | Hn];
      [by destruct (Hc Hin) | reflexivity].
Qed.

(** ** Rows without a match in a reference table *)

Lemma county_miss_dropped (df : list row) (r0 : row) :
  r0 ∈ df -> ¬ state_mask r0 ->
  (forall e, e ∈ fips_data -> Some e.1 ≠ r_fips r0) ->
  forall counties states log,
    resolver df = (Ok (counties, states), log) ->
    (forall r, r ∈ counties -> r_fips r ≠ r_fips r0) /\
    exists entry, entry ∈ log /\ log_level entry = WARNING /\
                  log_event entry = "Some counties did not match by fips" /\
                  r_fips r0 ∈ log_bad_fips entry.
Proof.
  intros Hr0 Hcounty Hmiss counties states log Hres.
  rewrite resolver_result in Hres. injection Hres as <- <- <-. split.
  - intros r Hr Hfips. apply elem_of_map_iff in Hr as (r1 & -> & Hr1).
    apply list_elem_of_filter in Hr1 as [Hstate Hr1].
    apply elem_of_flat_map_iff in Hr1 as (r2 & _ & Hr1).
    apply merge_county_elem in Hr1 as [(e & He & Hk & ->) | [_ ->]].
    + apply (Hmiss e He). rewrite Hk. exact Hfips.
    + by apply Hstate.
  - assert (Hin : set_state_county None None (usa r0)
                  ∈ filter (fun r => r_state r = None)
                      (flat_map (merge_county fips_data)
                         (filter (fun r => ¬ state_mask r) (map usa df)))).
    { apply list_elem_of_filter. split; [done |].
      apply elem_of_flat_map_iff. exists (usa r0). split.
      - apply list_elem_of_filter. split; [exact Hcounty |].
        apply elem_of_map_iff. by exists r0.
      - apply merge_county_elem. right. split; [exact Hmiss | done]. }
    destruct (decide _) as [_ | Hempty].
    + eexists. split; [left |]. simpl. repeat split.
      apply unique_elem. apply elem_of_map_iff. eexists. split; [| exact Hin].
      done.
    + exfalso. apply Hempty.
      destruct (filter _ _); [inversion Hin | simpl; lia].
Qed.

Lemma state_miss_kept (df : list row) (r0 : row) :
  r0 ∈ df -> state_mask r0 ->
  (forall e, e ∈ state_df -> Some e.1 ≠ r_fips r0) ->
  forall counties states log,
    resolver df = (Ok (counties, states), log) ->
    state_tag (set_state None (usa r0)) ∈ states /\
    forall entry, entry ∈ log ->
                  log_event entry = "Some counties did not match by fips".
Proof.
  intros Hr0 Hstate Hmiss counties states log Hres.
  rewrite resolver_result in Hres. injection Hres as <- <- <-. split.
  - apply elem_of_map_iff. eexists. split; [reflexivity |].
    apply elem_of_flat_map_iff. exists (usa r0). split.
    + apply list_elem_of_filter. split; [exact Hstate |].
      apply elem_of_map_iff. by exists r0.
    + apply merge_state_elem. right. split; [exact Hmiss | done].
  - intros entry Hentry. destruct (decide _); [| inversion Hentry].
    apply list_elem_of_singleton in Hentry as ->. done.
Qed.

(** C7.  On a fresh feed the joins never raise and [transform] reaches
    the indexing, so a row without a match is not fatal.  A row of the
    county partition whose FIPS is not in the county table is dropped by
    the resolver, which logs a warning that lists the FIPS.  A row of
    the state partition whose FIPS is not in the state table leaves the
    resolver with a null STATE and is dropped by [_drop_bad_rows], which
    logs a warning with the text of the frame of the rows it drops, this
    row among them.  The row is not in the frame that is indexed, and no
    row of that frame has a null STATE. *)
Theorem unmatched_join_rows (df : list (raw_row Fields))
    (Hfresh : _fail_if_no_recent_dates str_date today (map dt df) None = Ok tt) :
  exists counties states log1 log2 frame,
    resolver (renamed df) = (Ok (counties, states), log1) /\
    frame_of df = (Ok frame, log1 ++ log2) /\
    run df = (set_index_verify frame, log1 ++ log2) /\
    (forall r, r ∈ frame -> r_state r ≠ None) /\
    (forall r0, r0 ∈ renamed df -> ¬ state_mask r0 ->
       (forall e, e ∈ fips_data -> Some e.1 ≠ r_fips r0) ->
       (forall r, r ∈ counties -> r_fips r ≠ r_fips r0) /\
       exists entry, entry ∈ log1 /\ log_level entry = WARNING /\
                     log_event entry = "Some counties did not match by fips" /\
                     r_fips r0 ∈ log_bad_fips entry) /\
    (forall r0, r0 ∈ renamed df -> state_mask r0 ->
       (forall e, e ∈ state_df -> Some e.1 ≠ r_fips r0) ->
       let dropped := drop_columns state_columns_to_drop
                        (state_tag (set_state None (usa r0))) in
       let null_keys :=
         filter bad_row (map (drop_columns state_columns_to_drop) states
                         ++ backfill (shift_tx_counties counties)) in
       dropped ∈ null_keys /\
       mk_log WARNING "Dropping rows with null in important columns"
         [] (Some (str_frame null_keys)) ∈ log2 /\
       null_fl_icu dropped ∉ frame).
Proof.
  destruct (transform_fresh df Hfresh)
    as (counties & states & log1 & frame & log2 & Hres & Hdrop & Hsplit
        & Hframe & Hrun).
  exists counties, states, log1, log2, (map null_fl_icu frame).
  split; [exact Hres |]. split; [exact Hframe |]. split; [exact Hrun |].
  rewrite drop_bad_rows_result in Hdrop. injection Hdrop as Hf Hl.
  assert (Hstate : forall r, r ∈ map null_fl_icu frame -> r_state r ≠ None).
  { intros r Hr. rewrite <- Hf in Hr.
    apply in_frame_inv in Hr as (r1 & -> & _ & Hbad & _).
    destruct (null_fl_icu_keeps r1) as (_ & _ & _ & -> & _).
    intros Hnone. apply Hbad. unfold bad_row. auto. }
  split; [exact Hstate |]. split.
  - intros r0 Hr0 Hcounty Hmiss.
    exact (county_miss_dropped _ r0 Hr0 Hcounty Hmiss _ _ _ Hres).
  - intros r0 Hr0 Hmask Hmiss. cbv zeta.
    destruct (state_miss_kept _ r0 Hr0 Hmask Hmiss _ _ _ Hres) as [Hkept _].
    assert (Hin : drop_columns state_columns_to_drop
                    (state_tag (set_state None (usa r0)))
                  ∈ map (drop_columns state_columns_to_drop) states
                    ++ backfill (shift_tx_counties counties)).
    { apply elem_of_app. left. apply elem_of_map_iff. eauto. }
    assert (Hbad : bad_row (drop_columns state_columns_to_drop
                              (state_tag (set_state None (usa r0)))))
      by (unfold bad_row; simpl; auto).
    split; [by apply list_elem_of_filter |]. split.
    + rewrite <- Hl. apply elem_of_app. left.
      destruct (decide (Exists bad_row _)) as [_ | Hno]; [left |].
      exfalso. apply Hno. apply Exists_exists. eauto.
    + intros Hfr. apply (Hstate _ Hfr).
      by destruct (null_fl_icu_keeps
                     (drop_columns state_columns_to_drop
                        (state_tag (set_state None (usa r0)))))
        as (_ & _ & _ & -> & _).
Qed.

(** ** Indexing *)

Lemma transform_index (df : list (raw_row Fields)) (frame : list row)
    (log : list log_entry) :
  frame_of df = (Ok frame, log) -> run df = (set_index_verify frame, log).
Proof.
  intros Hframe. unfold transform, lift, mbind, M_bind. rewrite Hframe.
  by rewrite app_nil_r.
Qed.

Lemma transform_index_raise (df : list (raw_row Fields)) (e : error)
    (log : list log_entry) :
  frame_of df = (Raise e, log) -> run df = (Raise e, log).
Proof.
  intros Hframe. unfold transform, mbind, M_bind. by rewrite Hframe.
Qed.

Lemma transform_usafacts_index (df : list (raw_row UsaFactsFields))
    (frame : list row) (log : list log_entry) :
  transform_usafacts_frame str_date today fips_data state_df str_frame df
    = (Ok frame, log) ->
  transform_usafacts str_date today fips_data state_df str_frame df
    = (set_index_verify frame, log).
Proof.
  intros Hframe. unfold transform_usafacts, lift, mbind, M_bind.
  rewrite Hframe. by rewrite app_nil_r.
Qed.

Lemma transform_usafacts_index_raise (df : list (raw_row UsaFactsFields))
    (e : error) (log : list log_entry) :
  transform_usafacts_frame str_date today fips_data state_df str_frame df
    = (Raise e, log) ->
  transform_usafacts str_date today fips_data state_df str_frame df = (Raise e, log).
Proof.
  intros Hframe. unfold transform_usafacts, mbind, M_bind. by rewrite Hframe.
Qed.

(** A run that returns has indexed the frame as it was, and its keys are
    pairwise distinct; a frame with a repeated key makes the run raise. *)
Lemma transform_ok_inv (df : list (raw_row Fields)) (out : list row)
    (log : list log_entry) :
  run df = (Ok out, log) ->
  frame_of df = (Ok out, log) /\ NoDup (map key_of out).
Proof.
  intros Hrun. destruct (frame_of df) as [[frame | e] l] eqn:Hframe.
  - rewrite (transform_index df frame l Hframe) in Hrun.
    injection Hrun as Hindex <-.
    apply set_index_verify_ok in Hindex as [-> Hnd]. done.
  - rewrite (transform_index_raise df e l Hframe) in Hrun. discriminate.
Qed.

Lemma transform_usafacts_ok_inv (df : list (raw_row UsaFactsFields))
    (out : list row) (log : list log_entry) :
  transform_usafacts str_date today fips_data state_df str_frame df = (Ok out, log) ->
  transform_usafacts_frame str_date today fips_data state_df str_frame df
    = (Ok out, log) /\
  NoDup (map key_of out).
Proof.
  intros Hrun.
  destruct (transform_usafacts_frame str_date today fips_data state_df str_frame df)
    as [[frame | e] l] eqn:Hframe.
  - rewrite (transform_usafacts_index df frame l Hframe) in Hrun.
    injection Hrun as Hindex <-.
    apply set_index_verify_ok in Hindex as [-> Hnd]. done.
  - rewrite (transform_usafacts_index_raise df e l Hframe) in Hrun.
    discriminate.
Qed.

End Transform.

Import Samples.

Lemma quality_filters_order_witness :
  _fail_if_no_recent_dates isoformat (ymd 2020 6 2)
    (map dt feed_with_ancient_row) None = Ok tt /\
  exists counties states frame log,
    transform_split isoformat (ymd 2020 6 2) sample_fips_data sample_state_df
      feed_with_ancient_row = (Ok (counties, states), []) /\
    transform_frame isoformat (ymd 2020 6 2) sample_fips_data sample_state_df
      no_backfill str_rows feed_with_ancient_row = (Ok frame, log) /\
    mk_log INFO "Dropping rows of ancient data" [] (Some "1 rows") ∈ log /\
    forall r, r ∈ frame -> ¬ ancient_row r.
Proof.
  split; [reflexivity |].
  destruct (quality_filters_order isoformat (ymd 2020 6 2) sample_fips_data
              sample_state_df no_backfill str_rows feed_with_ancient_row
              eq_refl)
    as (_ & counties & states & log1 & Hsplit & Hframe & _ & Hrows & _).
  cbv zeta in Hframe, Hrows.
  assert (Hlog1 : log1 = []).
  { assert (Hquiet : snd (transform_split isoformat (ymd 2020 6 2)
                            sample_fips_data sample_state_df
                            feed_with_ancient_row) = [])
      by (apply (bool_decide_unpack _); vm_compute; exact I).
    by rewrite Hsplit in Hquiet. }
  subst log1. exists counties, states. eexists _, _.
  split; [exact Hsplit |]. split; [exact Hframe |]. split.
  - assert (Hentry : mk_log INFO "Dropping rows of ancient data" []
                       (Some "1 rows")
                     ∈ snd (transform_frame isoformat (ymd 2020 6 2)
                              sample_fips_data sample_state_df no_backfill
                              str_rows feed_with_ancient_row))
      by (apply (bool_decide_unpack _); vm_compute; exact I).
    by rewrite Hframe in Hentry.
  - intros r Hr. by apply Hrows.
Defined.

(** C3 (as stated).  If the backfill suppression came last, after the
    rejection of null keys and of ancient dates, no row dated before
    2019-12-01 and no row with a null key could reach it.  The frame
    that [transform] hands to the backfill removal does hold such a
    row. *)
Lemma backfill_runs_before_rejection :
  ¬ (forall str_date today fips_data state_df df counties states log,
        transform_split str_date today fips_data state_df df
          = (Ok (counties, states), log) ->
        forall r, r ∈ counties -> ¬ ancient_row r /\ ¬ bad_row r).
Proof.
  intros Hlast.
  destruct (transform_fresh isoformat (ymd 2020 6 2) sample_fips_data
              sample_state_df no_backfill str_rows feed_with_ancient_row
              eq_refl)
    as (counties & states & log1 & frame & log2 & Hres & _ & Hsplit & _).
  rewrite resolver_result in Hres. injection Hres as <- <- <-.
  match type of Hsplit with
  | _ = (Ok (?c, _), _) =>
      assert (Hold : Exists ancient_row c)
        by (apply (bool_decide_unpack _); vm_compute; exact I)
  end.
  apply Exists_exists in Hold as (r & Hr & Hold).
  pose proof (Hlast isoformat (ymd 2020 6 2) sample_fips_data sample_state_df
                feed_with_ancient_row _ _ _ Hsplit r Hr) as [Hnew _].
  exact (Hnew Hold).
Qed.

Lemma state_bed_columns_dropped_witness :
  _fail_if_no_recent_dates isoformat (ymd 2020 6 2)
    (map dt feed_state_and_county) None = Ok tt /\
  exists counties states log,
    transform_split isoformat (ymd 2020 6 2) sample_fips_data sample_state_df
      feed_state_and_county = (Ok (counties, states), log) /\
    forall r, r ∈ map (drop_columns state_columns_to_drop) (clean states) ->
              r_values r !! ICU_BEDS = None.
Proof.
  split; [reflexivity |].
  destruct (state_bed_columns_dropped isoformat (ymd 2020 6 2)
              sample_fips_data sample_state_df no_backfill str_rows
              feed_state_and_county eq_refl)
    as (counties & states & log1 & log2 & Hsplit & _ & _ & _ & Hnone & _).
  exists counties, states, log1. split; [exact Hsplit |].
  intros r Hr. by destruct (Hnone r Hr).
Defined.

Lemma unmatched_join_rows_witness :
  _fail_if_no_recent_dates isoformat (ymd 2020 6 2)
    (map dt feed_unmatched) None = Ok tt /\
  exists frame log,
    transform isoformat (ymd 2020 6 2) sample_fips_data sample_state_df
      no_backfill str_rows feed_unmatched = (set_index_verify frame, log) /\
    (forall r, r ∈ frame -> r_state r ≠ None) /\
    (exists entry, entry ∈ log /\ log_level entry = WARNING /\
                   Some "06999" ∈ log_bad_fips entry) /\
    mk_log WARNING "Dropping rows with null in important columns"
      [] (Some "1 rows") ∈ log.
Proof.
  split; [reflexivity |].
  destruct (unmatched_join_rows isoformat (ymd 2020 6 2)
              sample_fips_data sample_state_df no_backfill str_rows
              feed_unmatched eq_refl)
    as (counties & states & log1 & log2 & frame & _ & Hframe & Hrun & Hstate
        & Hcounty & _).
  exists frame, (log1 ++ log2). split; [exact Hrun |].
  split; [exact Hstate |]. split.
  - destruct (Hcounty (mk_row (Some "06999") (Some (ymd 2020 6 1))
                         None None None None
                         (<[CASES := 3]> (<[ICU_BEDS := 5]> ∅))))
      as (_ & entry & Hentry & Hlevel & _ & Hfips).
    + apply (bool_decide_unpack _). vm_compute. exact I.
    + unfold state_mask. simpl. lia.
    + intros e He. unfold sample_fips_data in He.
      repeat (apply elem_of_cons in He as [-> | He]; [discriminate |]).
      inversion He.
    + exists entry. split; [apply elem_of_app; by left |]. done.
  - assert (Hentry : mk_log WARNING
                       "Dropping rows with null in important columns"
                       [] (Some "1 rows")
                     ∈ snd (transform_frame isoformat (ymd 2020 6 2)
                              sample_fips_data sample_state_df no_backfill
                              str_rows feed_unmatched))
      by (apply (bool_decide_unpack _); vm_compute; exact I).
    by rewrite Hframe in Hentry.
Defined.


(** ** The shift of the Texas counties *)

Lemma shift_up_elem (rows : list row) (r : row) :
  r ∈ shift_up rows ->
  (exists d r', r' ∈ rows /\ r = set_date d r') \/ (exists d, r = null_row d).
Proof.
  induction rows as [|r0 rest IH]; simpl; [intros Hr; inversion Hr |].
  destruct rest as [|r1 rest'].
  - intros Hr. apply list_elem_of_singleton in Hr as ->. right. eauto.
  - intros Hr. apply elem_of_cons in Hr as [-> | Hr].
    + left. exists (r_date r0), r1. split; [right; left | done].
    + destruct (IH Hr) as [(d & r' & Hr' & ->) | Hnull]; [| by right].
      left. exists d, r'. split; [by right | done].
Qed.

(** The rows outside Texas pass through the shift as they are. *)
Lemma shift_keeps_other_counties (counties : list row) :
  filter (fun r => ¬ is_tx_county r) (shift_tx_counties counties)
  = filter (fun r => ¬ is_tx_county r) counties.
Proof.
  unfold shift_tx_counties. rewrite filter_app.
  rewrite (filter_all (fun r => ¬ is_tx_county r)).
  2:{ intros Hex. apply Exists_exists in Hex as (r & Hr & Hn).
      apply list_elem_of_filter in Hr as [Hr _]. by apply Hn. }
  assert (Htx : filter (fun r => ¬ is_tx_county r)
                  (dropna_all (shift_up (filter is_tx_county counties))) = []).
  { destruct (filter (fun r => ¬ is_tx_county r) _) as [|r rest] eqn:E;
      [done |].
    assert (Hr : r ∈ filter (fun r => ¬ is_tx_county r)
                       (dropna_all (shift_up (filter is_tx_county counties))))
      by (rewrite E; left).
    apply list_elem_of_filter in Hr as [Hn Hr]. exfalso. apply Hn.
    unfold dropna_all in Hr. apply list_elem_of_filter in Hr as [Hnn Hr].
    apply shift_up_elem in Hr as [(d & r' & Hr' & ->) | (d & ->)].
    - apply list_elem_of_filter in Hr' as [Htx _]. exact Htx.
    - exfalso. apply Hnn. by unfold all_null. }
  rewrite Htx. apply app_nil_r.
Qed.

(** One Texas county on three consecutive days with the values 10, 20
    and 30 keeps the first two days, with the values 20 and 30. *)
Lemma tx_shift_single_county :
  shift_tx_counties
    [tx_row "48001" "Anderson County" (ymd 2020 6 1) 10;
     tx_row "48001" "Anderson County" (ymd 2020 6 2) 20;
     tx_row "48001" "Anderson County" (ymd 2020 6 3) 30]
  = [tx_row "48001" "Anderson County" (ymd 2020 6 1) 20;
     tx_row "48001" "Anderson County" (ymd 2020 6 2) 30].
Proof. apply (bool_decide_unpack _). vm_compute. exact I. Qed.

(** C4.  With two Texas counties in the feed, each with three
    consecutive days, [transform] shifts the rows of all Texas counties
    as one series: the first county ends as claimed, with its second and
    third values on its first two days, but the first value of the second
    county, 1 on 2020-06-01, is moved onto the last day of the first
    county, 2020-06-03, where it stays as a row of the second county. *)
Theorem tx_shift_crosses_counties :
  transform_split isoformat (ymd 2020 6 4) sample_fips_data sample_state_df
    feed_two_tx_counties
  = (Ok (two_tx_counties_shifted, []), []).
Proof. apply (bool_decide_unpack _). vm_compute. exact I. Qed.

End CountyProofs.

(** * Invariants of the county data transformer *)

Module CountyInvariants.
Import CovidCountyData Samples CountyProofs.

(** ** Lists *)

Section Occurrences.
Context {A : Type} `{EqDecision A}.

Lemma duplicated_from_seen (seen l : list A) (x : A) :
  x ∈ seen -> x ∈ l -> x ∈ duplicated_from seen l.
Proof.
  revert seen. induction l as [|y l IH]; intros seen Hs Hl; [inversion Hl |].
  simpl. apply elem_of_cons in Hl as [<- | Hl].
  - rewrite bool_decide_eq_true_2 by done. left.
  - case_bool_decide; [right; by apply IH |].
    apply IH; [by right | done].
Qed.

Lemma duplicated_from_twice (seen l : list A) (x : A) :
  [x; x] `sublist_of` l -> x ∈ duplicated_from seen l.
Proof.
  revert seen. induction l as [|y l IH]; intros seen Hsub.
  - by apply sublist_nil_r in Hsub.
  - simpl. apply sublist_cons_r in Hsub as [Hsub | (l' & Heq & Hsub)].
    + case_bool_decide; [right |]; by apply IH.
    + injection Heq as <- <-.
      assert (Hx : x ∈ l) by (by apply singleton_sublist_l).
      case_bool_decide; [left |].
      apply duplicated_from_seen; [left | done].
Qed.

Lemma duplicated_from_inv (seen l : list A) (x : A) :
  x ∈ duplicated_from seen l ->
  (x ∈ seen /\ x ∈ l) \/ [x; x] `sublist_of` l.
Proof.
  revert seen. induction l as [|y l IH]; intros seen; simpl.
  - intros Hx. inversion Hx.
  - case_bool_decide as Hy.
    + intros Hx. apply elem_of_cons in Hx as [-> | Hx].
      * left. split; [done | left].
      * destruct (IH seen Hx) as [[Hs Hl] | Hsub].
        -- left. split; [done | by right].
        -- right. by apply sublist_cons.
    + intros Hx. destruct (IH (y :: seen) Hx) as [[Hs Hl] | Hsub].
      * apply elem_of_cons in Hs as [-> | Hs].
        -- right. apply sublist_skip. by apply singleton_sublist_l.
        -- left. split; [done | by right].
      * right. by apply sublist_cons.
Qed.

Lemma duplicated_elem (l : list A) (x : A) :
  x ∈ duplicated l <-> [x; x] `sublist_of` l.
Proof.
  split; [| apply duplicated_from_twice].
  intros Hx. destruct (duplicated_from_inv [] l x Hx) as [[Hs _] | Hsub];
    [inversion Hs | done].
Qed.

Lemma twice_not_NoDup (l : list A) (x : A) :
  [x; x] `sublist_of` l -> ¬ NoDup l.
Proof.
  intros Hsub Hnd. pose proof (sublist_NoDup _ _ Hnd Hsub) as Hxx.
  clear Hnd. rename Hxx into Hnd.
  apply NoDup_cons in Hnd as [Hx _]. apply Hx. left.
Qed.

End Occurrences.

Lemma unique_from_NoDup {A} `{EqDecision A} (seen l : list A) :
  NoDup (unique_from seen l).
Proof.
  revert seen. induction l as [|x l IH]; intros seen; simpl; [constructor |].
  case_bool_decide as Hin; [apply IH |].
  constructor; [| apply IH].
  intros Hx. apply unique_from_elem in Hx as [_ Hx]. apply Hx. left.
Qed.

Lemma unique_NoDup {A} `{EqDecision A} (l : list A) : NoDup (unique l).
Proof. apply unique_from_NoDup. Qed.

Lemma filter_split_length {A} (P : A -> Prop) `{forall x, Decision (P x)}
    (l : list A) :
  (length (filter P l) + length (filter (fun x => ¬ P x) l) = length l)%nat.
Proof.
  induction l as [|x l IH]; [done |].
  rewrite !filter_cons. destruct (decide (P x)) as [Hx | Hx].
  - destruct (decide (¬ P x)); [done |]. simpl. lia.
  - destruct (decide (¬ P x)); [| done]. simpl. lia.
Qed.


Lemma sublist_filter_all {A} (P : A -> Prop) `{forall x, Decision (P x)}
    (l1 l2 : list A) :
  l1 `sublist_of` l2 -> Forall P l1 -> l1 `sublist_of` filter P l2.
Proof.
  induction 1 as [|x l1 l2 Hsub IH|x l1 l2 Hsub IH]; intros Hall.
  - constructor.
  - apply Forall_cons in Hall as [Hx Hall]. rewrite filter_cons.
    destruct (decide (P x)); [| done]. apply sublist_skip. by apply IH.
  - rewrite filter_cons. destruct (decide (P x)); [apply sublist_cons |];
      by apply IH.
Qed.

Lemma sublist_flat_map {A B} (f : A -> list B) (l : list A) (x : A) :
  x ∈ l -> f x `sublist_of` flat_map f l.
Proof.
  induction l as [|y l IH]; intros Hx; [inversion Hx |]. simpl.
  apply elem_of_cons in Hx as [-> | Hx].
  - by apply sublist_inserts_r.
  - apply sublist_inserts_l. by apply IH.
Qed.

(** ** The staleness check *)

Lemma series_max_ext (dates dates' : list (option date)) :
  (forall d, Some d ∈ dates <-> Some d ∈ dates') ->
  series_max dates = series_max dates'.
Proof.
  intros Hsame.
  destruct (series_max dates) as [a |] eqn:Ha;
    destruct (series_max dates') as [b |] eqn:Hb; [| | | done].
  - apply series_max_spec in Ha as [Hina Hmaxa].
    apply series_max_spec in Hb as [Hinb Hmaxb].
    apply Hsame in Hina. apply Hsame in Hinb.
    f_equal. pose proof (Hmaxa b Hinb). pose proof (Hmaxb a Hina). lia.
  - apply series_max_spec in Ha as [Hina _].
    apply (proj1 (series_max_none dates')) with (d := a) in Hb.
    destruct Hb. by apply Hsame.
  - apply series_max_spec in Hb as [Hinb _].
    apply (proj1 (series_max_none dates)) with (d := b) in Ha.
    destruct Ha. by apply Hsame.
Qed.

(** X1.  The staleness check looks at the dates of the column only: two
    date columns with the same dates, in whatever order, with whatever
    repetitions and nulls, get the same answer, down to the message of
    the error. *)
Theorem staleness_depends_on_dates_only
    (str_date : date -> string) (today : date)
    (dates dates' : list (option date)) (stale_days_allowed : option Z)
    (Hsame : forall d, Some d ∈ dates <-> Some d ∈ dates') :
  _fail_if_no_recent_dates str_date today dates stale_days_allowed
  = _fail_if_no_recent_dates str_date today dates' stale_days_allowed.
Proof.
  unfold _fail_if_no_recent_dates. by rewrite (series_max_ext _ _ Hsame).
Qed.

Lemma staleness_depends_on_dates_only_witness :
  _fail_if_no_recent_dates isoformat (ymd 2020 6 5)
    [Some (ymd 2020 6 1); None; Some (ymd 2020 5 30)] None
  = _fail_if_no_recent_dates isoformat (ymd 2020 6 5)
      [Some (ymd 2020 5 30); Some (ymd 2020 6 1); Some (ymd 2020 6 1)] None.
Proof.
  apply staleness_depends_on_dates_only. intros d.
  rewrite !elem_of_cons, !elem_of_nil.
  split; intros H;
    repeat (destruct H as [H | H]; try discriminate H;
            try (rewrite H; auto 6)); try contradiction.
Defined.



(** ** Null keys and ancient dates *)

(** X3.  [_drop_bad_rows] never raises.  It splits the frame in three:
    the rows with a null FIPS, DATE or STATE; of the other rows, those
    dated before 2019-12-01; and the rest, which it returns, in their
    order.  Every row of the frame is in exactly one of the three.  It
    logs a warning with the text of the first frame when that frame has
    a row, then an entry at level INFO with the text of the second when
    that one has a row, and nothing else. *)
Theorem drop_bad_rows_accounts_for_every_row
    (str_frame : list row -> string) (df : list row) :
  let null_keys := filter bad_row df in
  let ancient := filter ancient_row (filter (fun r => ¬ bad_row r) df) in
  exists out log,
    _drop_bad_rows str_frame df = (Ok out, log) /\
    log = (if decide (Exists bad_row df)
           then [mk_log WARNING "Dropping rows with null in important columns"
                   [] (Some (str_frame null_keys))]
           else []) ++
          (if decide (Exists ancient_row (filter (fun r => ¬ bad_row r) df))
           then [mk_log INFO "Dropping rows of ancient data"
                   [] (Some (str_frame ancient))]
           else []) /\
    (Exists bad_row df <-> null_keys ≠ []) /\
    (Exists ancient_row (filter (fun r => ¬ bad_row r) df) <-> ancient ≠ []) /\
    (forall r, r ∈ df <-> r ∈ out \/ r ∈ null_keys \/ r ∈ ancient) /\
    (forall r, r ∈ out ->
       ¬ bad_row r /\ ¬ ancient_row r /\ (r ∉ null_keys) /\ (r ∉ ancient)) /\
    (forall r, r ∈ null_keys -> bad_row r /\ r ∉ ancient) /\
    (forall r, r ∈ ancient -> ancient_row r) /\
    out `sublist_of` df.
Proof.
  cbv zeta. rewrite drop_bad_rows_result. eexists _, _.
  split; [reflexivity |]. split; [reflexivity |].
  assert (Hany : forall (P : row -> Prop) `{forall r, Decision (P r)}
                   (l : list row),
            Exists P l <-> filter P l ≠ []).
  { intros P HP l. rewrite Exists_exists. split.
    - intros (r & Hr & HPr) Hnil.
      assert (Hin : r ∈ filter P l) by (by apply list_elem_of_filter).
      rewrite Hnil in Hin. inversion Hin.
    - intros Hne. destruct (filter P l) as [|r rest] eqn:E; [done |].
      assert (Hin : r ∈ filter P l) by (rewrite E; left).
      apply list_elem_of_filter in Hin as [HPr Hr]. eauto. }
  split; [apply Hany |]. split; [apply Hany |].
  split; [| split; [| split; [| split]]].
  - intros r. rewrite !list_elem_of_filter.
    destruct (decide (bad_row r)); destruct (decide (ancient_row r)); tauto.
  - intros r. rewrite !list_elem_of_filter. tauto.
  - intros r. rewrite !list_elem_of_filter. tauto.
  - intros r. rewrite !list_elem_of_filter. tauto.
  - etrans; apply sublist_filter.
Qed.

(** X4.  [_drop_bad_rows] applied to its own result returns it as it is
    and logs nothing; and it logs nothing exactly when it returns the
    frame it was given. *)
Theorem drop_bad_rows_idempotent
    (str_frame : list row -> string) (df : list row) :
  exists out log,
    _drop_bad_rows str_frame df = (Ok out, log) /\
    _drop_bad_rows str_frame out = (Ok out, []) /\
    (log = [] <-> out = df).
Proof.
  rewrite drop_bad_rows_result. eexists _, _. split; [reflexivity |].
  set (good := filter (fun r => ¬ bad_row r) df).
  set (out := filter (fun r => ¬ ancient_row r) good).
  assert (Hnobad : ¬ Exists bad_row out).
  { intros Hex. apply Exists_exists in Hex as (r & Hr & Hbad).
    apply list_elem_of_filter in Hr as [_ Hr].
    by apply list_elem_of_filter in Hr as [Hgood _]. }
  assert (Hnoold : ¬ Exists ancient_row out).
  { intros Hex. apply Exists_exists in Hex as (r & Hr & Hold).
    by apply list_elem_of_filter in Hr as [Hnew _]. }
  split.
  - rewrite drop_bad_rows_result.
    rewrite (filter_not_bad out Hnobad), (filter_not_ancient out Hnoold).
    destruct (decide (Exists bad_row out)); [done |].
    destruct (decide (Exists ancient_row out)); done.
  - split.
    + intros Hlog. apply app_eq_nil in Hlog as [Hl1 Hl2].
      destruct (decide (Exists bad_row df)) as [| Hb]; [discriminate |].
      destruct (decide (Exists ancient_row good)) as [| Ho]; [discriminate |].
      unfold out. rewrite (filter_not_ancient good Ho).
      apply (filter_not_bad df Hb).
    + intros Hsame.
      assert (Hb : ¬ Exists bad_row df) by (by rewrite <- Hsame).
      assert (Hgood : good = df) by apply (filter_not_bad df Hb).
      assert (Ho : ¬ Exists ancient_row good)
        by (rewrite Hgood; by rewrite <- Hsame).
      destruct (decide (Exists bad_row df)); [done |].
      destruct (decide (Exists ancient_row good)); done.
Qed.

(** ** The geo resolver *)

Section ResolverFacts.
Variable fips_data : county_table.
Variable state_df : state_table.

Local Abbreviation resolver :=
  (_counties_states_with_geoattributes fips_data state_df).

(** The county rows that the join leaves without a state. *)
Lemma no_match_elem (df : list row) (f : option string) :
  f ∈ map r_fips
        (filter (fun r => r_state r = None)
           (flat_map (merge_county fips_data)
              (filter (fun r => ¬ state_mask r) (map usa df)))) <->
  exists r0, r0 ∈ df /\ ¬ state_mask r0 /\ r_fips r0 = f /\
    ((forall e, e ∈ fips_data -> Some e.1 ≠ f) \/
     (exists e, e ∈ fips_data /\ Some e.1 = f /\ e.2.1 = None)).
Proof.
  rewrite elem_of_map_iff. split.
  - intros (r & -> & Hr). apply list_elem_of_filter in Hr as [Hnone Hr].
    apply elem_of_flat_map_iff in Hr as (r1 & Hr1 & Hr).
    apply list_elem_of_filter in Hr1 as [Hmask Hr1].
    apply elem_of_map_iff in Hr1 as (r0 & -> & Hr0).
    exists r0. split; [done |]. split; [done |].
    apply merge_county_elem in Hr as [(e & He & Hk & ->) | [Hmiss ->]].
    + split; [done |]. right. exists e. simpl in Hnone, Hk. done.
    + split; [done |]. left. exact Hmiss.
  - intros (r0 & Hr0 & Hmask & <- & Hwhy).
    assert (Hin : usa r0 ∈ filter (fun r => ¬ state_mask r) (map usa df)).
    { apply list_elem_of_filter. split; [exact Hmask |].
      apply elem_of_map_iff. by exists r0. }
    destruct Hwhy as [Hmiss | (e & He & Hk & Hnone)].
    + exists (set_state_county None None (usa r0)). split; [done |].
      apply list_elem_of_filter. split; [done |].
      apply elem_of_flat_map_iff. exists (usa r0). split; [done |].
      apply merge_county_elem. right. done.
    + exists (set_state_county e.2.1 e.2.2 (usa r0)). split; [done |].
      apply list_elem_of_filter. split; [done |].
      apply elem_of_flat_map_iff. exists (usa r0). split; [done |].
      apply merge_county_elem. left. by exists e.
Qed.

(** X5.  The geo resolver logs nothing, or one warning "Some counties did
    not match by fips" whose list is not empty and holds no FIPS twice.
    A FIPS is listed exactly when a row of the county partition has it
    and the county table has no entry for it, or has an entry for it
    with a null state. *)
Theorem resolver_warning_is_exact (df : list row) :
  exists counties states log,
    resolver df = (Ok (counties, states), log) /\
    (log = [] \/
     exists bad_fips,
       log = [mk_log WARNING "Some counties did not match by fips"
                bad_fips None]
       /\ bad_fips ≠ [] /\ NoDup bad_fips) /\
    (forall f,
       (exists entry, entry ∈ log /\ f ∈ log_bad_fips entry) <->
       (exists r0, r0 ∈ df /\ ¬ state_mask r0 /\ r_fips r0 = f /\
          ((forall e, e ∈ fips_data -> Some e.1 ≠ f) \/
           (exists e, e ∈ fips_data /\ Some e.1 = f /\ e.2.1 = None)))).
Proof.
  rewrite resolver_result. eexists _, _, _. split; [reflexivity |].
  set (missed := filter (fun r => r_state r = None)
                   (flat_map (merge_county fips_data)
                      (filter (fun r => ¬ state_mask r) (map usa df)))).
  split.
  - destruct (decide (0 < length missed)%nat) as [Hsome | Hnone]; [| by left].
    right. eexists. split; [reflexivity |]. split; [| apply unique_NoDup].
    destruct missed as [|r rest]; [simpl in Hsome; lia |].
    intros Hnil.
    assert (Hr : r_fips r ∈ unique (map r_fips (r :: rest)))
      by (apply unique_elem; left).
    rewrite Hnil in Hr. inversion Hr.
  - intros f. rewrite <- no_match_elem. fold missed. split.
    + intros (entry & Hentry & Hf).
      destruct (decide (0 < length missed)%nat); [| inversion Hentry].
      apply list_elem_of_singleton in Hentry as ->. simpl in Hf.
      by apply (proj1 (unique_elem _ _)) in Hf.
    + intros Hf. destruct (decide (0 < length missed)%nat) as [_ | Hnone].
      * eexists. split; [left |]. simpl. by apply unique_elem.
      * exfalso. apply Hnone.
        destruct missed; [inversion Hf | simpl; lia].
Qed.

End ResolverFacts.

Lemma filter_key_unique {V} (t : list (string * V)) (k : option string) :
  NoDup (map fst t) ->
  (length (filter (fun e => Some e.1 = k) t) <= 1)%nat.
Proof.
  induction t as [|e t IH]; intros Hnd; [simpl; lia |].
  simpl in Hnd. apply NoDup_cons in Hnd as [He Hnd].
  rewrite filter_cons. destruct (decide (Some e.1 = k)) as [Hk | Hk];
    [| by apply IH].
  assert (Hnone : filter (fun e => Some e.1 = k) t = []).
  { destruct (filter (fun e => Some e.1 = k) t) as [|e' rest] eqn:E; [done |].
    assert (He' : e' ∈ filter (fun e => Some e.1 = k) t) by (rewrite E; left).
    apply list_elem_of_filter in He' as [Hk' He'].
    exfalso. apply He. apply elem_of_map_iff. exists e'.
    split; [congruence | done]. }
  rewrite Hnone. simpl. lia.
Qed.

Section ResolverRows.
Variable fips_data : county_table.
Variable state_df : state_table.
Hypothesis fips_data_unique : NoDup (map fst fips_data).
Hypothesis state_df_unique : NoDup (map fst state_df).

Lemma merge_county_single (r : row) :
  exists s c, merge_county fips_data r = [set_state_county s c r].
Proof.
  unfold merge_county.
  match goal with
  | |- context [match ?l with [] => _ | _ :: _ => _ end] =>
      assert (Hlen : (length l <= 1)%nat)
        by exact (filter_key_unique fips_data (r_fips r) fips_data_unique);
      destruct l as [|e [|e' rest]]
  end.
  - by exists None, None.
  - by exists e.2.1, e.2.2.
  - simpl in Hlen. lia.
Qed.

Lemma merge_state_single (r : row) :
  exists s, merge_state state_df r = [set_state s r].
Proof.
  unfold merge_state.
  match goal with
  | |- context [match ?l with [] => _ | _ :: _ => _ end] =>
      assert (Hlen : (length l <= 1)%nat)
        by exact (filter_key_unique state_df (r_fips r) state_df_unique);
      destruct l as [|e [|e' rest]]
  end.
  - by exists None.
  - by exists e.2.
  - simpl in Hlen. lia.
Qed.

Lemma flat_map_merge_county (l : list row) :
  map key_of (flat_map (merge_county fips_data) l) = map key_of l /\
  map r_values (flat_map (merge_county fips_data) l) = map r_values l.
Proof.
  induction l as [|r l [IHk IHv]]; [done |]. simpl.
  destruct (merge_county_single r) as (s & c & ->). simpl.
  by rewrite IHk, IHv.
Qed.

Lemma flat_map_merge_state (l : list row) :
  map key_of (flat_map (merge_state state_df) l) = map key_of l /\
  map r_values (flat_map (merge_state state_df) l) = map r_values l.
Proof.
  induction l as [|r l [IHk IHv]]; [done |]. simpl.
  destruct (merge_state_single r) as (s & ->). simpl.
  by rewrite IHk, IHv.
Qed.

Lemma filter_usa (P : row -> Prop) `{forall r, Decision (P r)} (df : list row) :
  (forall r, P (usa r) <-> P r) ->
  map key_of (filter P (map usa df)) = map key_of (filter P df) /\
  map r_values (filter P (map usa df)) = map r_values (filter P df).
Proof.
  intros HP. rewrite (filter_map_stable P usa df HP), !map_map. done.
Qed.

(** X6.  When no FIPS is listed twice in the county table or in the state
    table, the joins of the resolver neither repeat nor reorder rows:
    the state partition has the keys and the values of the rows with a
    FIPS of length 2, one for one and in order; the keys of the county
    partition are a subsequence of the keys of the other rows; and the
    two partitions together have no more rows than the frame. *)
Theorem resolver_keeps_rows_apart (df : list row) :
  exists counties states log,
    _counties_states_with_geoattributes fips_data state_df df
      = (Ok (counties, states), log) /\
    map key_of states = map key_of (filter state_mask df) /\
    map r_values states = map r_values (filter state_mask df) /\
    map key_of counties
      `sublist_of` map key_of (filter (fun r => ¬ state_mask r) df) /\
    (length counties + length states <= length df)%nat.
Proof.
  rewrite resolver_result. eexists _, _, _. split; [reflexivity |].
  destruct (filter_usa state_mask df) as [Hsk Hsv]; [done |].
  destruct (filter_usa (fun r => ¬ state_mask r) df) as [Hck _]; [done |].
  destruct (flat_map_merge_state (filter state_mask (map usa df)))
    as [Hmk Hmv].
  destruct (flat_map_merge_county
              (filter (fun r => ¬ state_mask r) (map usa df))) as [Hjk _].
  assert (Hstates_k : map key_of
            (map state_tag
               (flat_map (merge_state state_df)
                  (filter state_mask (map usa df))))
            = map key_of (filter state_mask df)).
  { by rewrite map_map, <- Hsk, <- Hmk. }
  assert (Hcounties_k : map key_of
            (map county_tag
               (filter (fun r => r_state r ≠ None)
                  (flat_map (merge_county fips_data)
                     (filter (fun r => ¬ state_mask r) (map usa df)))))
            `sublist_of` map key_of (filter (fun r => ¬ state_mask r) df)).
  { rewrite map_map, <- Hck, <- Hjk.
    change (map (fun x => key_of (county_tag x)) ?l) with (key_of <$> l).
    change (map key_of ?l) with (key_of <$> l).
    apply fmap_sublist, sublist_filter. }
  split; [exact Hstates_k |]. split; [| split; [exact Hcounties_k |]].
  - by rewrite map_map, <- Hsv, <- Hmv.
  - apply sublist_length in Hcounties_k.
    apply (f_equal length) in Hstates_k.
    rewrite !length_map in Hcounties_k, Hstates_k. rewrite !length_map.
    pose proof (filter_split_length state_mask df). lia.
Qed.

End ResolverRows.

(** ** Indexing by the timeseries key *)

(** X7.  Indexing by (FIPS, DATE) with [verify_integrity=True] returns
    the frame as it is exactly when no key occurs twice.  Otherwise it
    raises the ValueError for duplicate keys, and nothing else; the keys
    reported are exactly those that occur at least twice in the frame,
    each reported once. *)
Theorem set_index_verify_reports_repeated_keys (df : list row) :
  (forall out, set_index_verify df = Ok out <->
               out = df /\ NoDup (map key_of df)) /\
  (forall e, set_index_verify df = Raise e ->
     exists dups, e = ValueError_duplicate_keys dups /\
       dups ≠ [] /\ NoDup dups /\
       forall k, k ∈ dups <-> [k; k] `sublist_of` map key_of df).
Proof.
  split; [intros out; apply set_index_verify_ok |].
  intros e. unfold set_index_verify.
  destruct (duplicated (map key_of df)) as [|k0 ks] eqn:E; [discriminate |].
  intros [= <-]. eexists. split; [reflexivity |]. split; [| split].
  - intros Hnil.
    assert (Hk : k0 ∈ unique (k0 :: ks)) by (apply unique_elem; left).
    rewrite Hnil in Hk. inversion Hk.
  - apply unique_NoDup.
  - intros k. by rewrite unique_elem, <- E, duplicated_elem.
Qed.

Lemma set_index_verify_twice (df : list row) (k : key) :
  [k; k] `sublist_of` map key_of df ->
  exists dups, set_index_verify df = Raise (ValueError_duplicate_keys dups) /\
               k ∈ dups.
Proof.
  intros Hsub. apply (duplicated_elem (map key_of df) k) in Hsub.
  unfold set_index_verify.
  destruct (duplicated (map key_of df)) as [|k0 ks]; [inversion Hsub |].
  eexists. split; [reflexivity |]. by apply unique_elem.
Qed.

Section Usafacts.
Variable str_date : date -> string.
Variable today : date.
Variable fips_data : county_table.
Variable state_df : state_table.
Variable str_frame : list row -> string.

Local Abbreviation renamed :=
  (fun df : list (raw_row UsaFactsFields) =>
     rename_fields (map (fun r => (fips_from_int (location r), r)) df)).

Lemma transform_usafacts_fresh (df : list (raw_row UsaFactsFields)) :
  _fail_if_no_recent_dates str_date today (map dt df) (Some 7) = Ok tt ->
  exists counties states log1 log2,
    _counties_states_with_geoattributes fips_data state_df (renamed df)
      = (Ok (counties, states), log1) /\
    _drop_bad_rows str_frame (states ++ counties)
      = (Ok (filter (fun r => ¬ ancient_row r)
               (filter (fun r => ¬ bad_row r) (states ++ counties))), log2) /\
    transform_usafacts_frame str_date today fips_data state_df str_frame df
      = (Ok (filter (fun r => ¬ ancient_row r)
               (filter (fun r => ¬ bad_row r) (states ++ counties))),
         log1 ++ log2) /\
    transform_usafacts str_date today fips_data state_df str_frame df
      = (set_index_verify
           (filter (fun r => ¬ ancient_row r)
              (filter (fun r => ¬ bad_row r) (states ++ counties))),
         log1 ++ log2).
Proof.
  intros Hfresh.
  pose proof (resolver_result fips_data state_df (renamed df)) as Hres.
  set (counties := map county_tag _) in Hres.
  set (states := map state_tag _) in Hres.
  set (log1 := if decide _ then _ else _) in Hres.
  clearbody counties states log1.
  pose proof (drop_bad_rows_result str_frame (states ++ counties)) as Hdrop.
  match type of Hdrop with
  | _ = (Ok ?f, ?l) => set (log2 := l) in Hdrop
  end.
  clearbody log2.
  exists counties, states, log1, log2.
  split; [exact Hres |]. split; [exact Hdrop |].
  unfold transform_usafacts, transform_usafacts_frame, lift, mbind, M_bind,
    mret, M_ret.
  rewrite Hfresh, Hres. cbn. rewrite Hdrop. cbn.
  rewrite !app_nil_r. destruct (set_index_verify _); done.
Qed.

(** X8.  [transform_usafacts] checks staleness with 7 days allowed: a
    stale feed raises before anything is logged.  On a fresh feed the
    frame that is indexed is the state partition followed by the county
    partition of the resolver, less the rows that [_drop_bad_rows]
    rejects; nothing is shifted, no column is dropped and no value is
    nulled.  Every row of it has FIPS, DATE and STATE and is tagged
    "state" or "county". *)
Theorem usafacts_pipeline (df : list (raw_row UsaFactsFields))
    (Hfresh : _fail_if_no_recent_dates str_date today (map dt df) (Some 7)
              = Ok tt) :
  (forall df' e,
     _fail_if_no_recent_dates str_date today (map dt df') (Some 7) = Raise e ->
     transform_usafacts str_date today fips_data state_df str_frame df' = (Raise e, [])) /\
  exists counties states log1 log2,
    _counties_states_with_geoattributes fips_data state_df (renamed df)
      = (Ok (counties, states), log1) /\
    _drop_bad_rows str_frame (states ++ counties)
      = (Ok (filter (fun r => ¬ ancient_row r)
               (filter (fun r => ¬ bad_row r) (states ++ counties))), log2) /\
    let frame := filter (fun r => ¬ ancient_row r)
                   (filter (fun r => ¬ bad_row r) (states ++ counties)) in
    transform_usafacts str_date today fips_data state_df str_frame df
      = (set_index_verify frame, log1 ++ log2) /\
    (forall r, r ∈ frame <->
               (r ∈ states \/ r ∈ counties) /\ ¬ bad_row r /\ ¬ ancient_row r) /\
    (forall r, r ∈ frame ->
       r_fips r ≠ None /\ r_date r ≠ None /\ r_state r ≠ None /\
       (r_aggregate_level r = Some "state" \/
        r_aggregate_level r = Some "county")).
Proof.
  split.
  { intros df' e He.
    unfold transform_usafacts, transform_usafacts_frame, lift, mbind, M_bind.
    by rewrite He. }
  destruct (transform_usafacts_fresh df Hfresh)
    as (counties & states & log1 & log2 & Hres & Hdrop & _ & Hrun).
  exists counties, states, log1, log2.
  split; [exact Hres |]. split; [exact Hdrop |]. cbv zeta.
  split; [exact Hrun |].
  assert (Hmem : forall r,
            r ∈ filter (fun r => ¬ ancient_row r)
                  (filter (fun r => ¬ bad_row r) (states ++ counties)) <->
            (r ∈ states \/ r ∈ counties) /\ ¬ bad_row r /\ ¬ ancient_row r).
  { intros r. rewrite !list_elem_of_filter, elem_of_app. tauto. }
  split; [exact Hmem |].
  intros r Hr. apply Hmem in Hr as (Hwhere & Hbad & _).
  unfold bad_row in Hbad.
  split; [tauto |]. split; [tauto |]. split; [tauto |].
  rewrite resolver_result in Hres. injection Hres as <- <- _.
  destruct Hwhere as [Hs | Hc].
  - apply elem_of_map_iff in Hs as (r1 & -> & _). by left.
  - apply elem_of_map_iff in Hc as (r1 & -> & _). by right.
Qed.

(** X9.  A FIPS listed twice in the county table, with a state each time,
    makes the left join return every row of that county twice; a fresh
    usafacts feed with a row of that county, dated and not before
    2019-12-01, then makes [transform_usafacts] raise the ValueError for
    duplicate keys, and the key of the row is among those reported. *)
Theorem repeated_county_entry_is_fatal
    (t1 t2 t3 : county_table) (fips s1 s2 : string) (c1 c2 : option string)
    (df : list (raw_row UsaFactsFields)) (r : raw_row UsaFactsFields) (d : date)
    (Htable : fips_data
              = t1 ++ (fips, (Some s1, c1)) :: t2 ++ (fips, (Some s2, c2)) :: t3)
    (Hfresh : _fail_if_no_recent_dates str_date today (map dt df) (Some 7)
              = Ok tt)
    (Hr : r ∈ df) (Hfips : fips_from_int (location r) = fips)
    (Hlen : String.length fips ≠ 2%nat)
    (Hd : dt r = Some d) (Hnew : ymd 2019 12 1 <= d) :
  exists dups log,
    transform_usafacts str_date today fips_data state_df str_frame df
      = (Raise (ValueError_duplicate_keys dups), log) /\
    (Some fips, Some d) ∈ dups.
Proof.
  destruct (transform_usafacts_fresh df Hfresh)
    as (counties & states & log1 & log2 & Hres & _ & _ & Hrun).
  rewrite Hrun. clear Hrun.
  rewrite resolver_result in Hres. injection Hres as <- <- _.
  set (r0 := mk_row (Some fips) (Some d) None None None None
               (rename_values (raw_values r))).
  assert (Hr0 : usa r0 ∈ filter (fun r => ¬ state_mask r)
                           (map usa (renamed df))).
  { apply list_elem_of_filter. split.
    - unfold state_mask. simpl. done.
    - apply elem_of_map_iff. exists r0. split; [done |].
      unfold rename_fields. rewrite map_map.
      apply elem_of_map_iff. exists r. split; [| done].
      unfold r0. by rewrite Hfips, Hd. }
  set (e1 := (fips, (Some s1, c1))). set (e2 := (fips, (Some s2, c2))).
  set (join := fun e : string * (option string * option string) =>
                 set_state_county e.2.1 e.2.2 (usa r0)).
  assert (Hjoin : [join e1; join e2]
                    `sublist_of` merge_county fips_data (usa r0)).
  { assert (Hsub : [e1; e2] `sublist_of`
                     filter (fun e => Some e.1 = r_fips (usa r0)) fips_data).
    { apply sublist_filter_all; [| by repeat constructor].
      rewrite Htable. apply sublist_inserts_l, sublist_skip,
        sublist_inserts_l, sublist_skip, sublist_nil_l. }
    unfold merge_county.
    destruct (filter (fun e => Some e.1 = r_fips (usa r0)) fips_data)
      as [|m ms] eqn:E.
    - by apply sublist_nil_r in Hsub.
    - change [join e1; join e2] with (join <$> [e1; e2]).
      change (map ?f (m :: ms)) with (f <$> m :: ms).
      by apply fmap_sublist. }
  assert (Hframe : [county_tag (join e1); county_tag (join e2)]
            `sublist_of`
            filter (fun r => ¬ ancient_row r)
              (filter (fun r => ¬ bad_row r)
                 (map state_tag
                    (flat_map (merge_state state_df)
                       (filter state_mask (map usa (renamed df)))) ++
                  map county_tag
                    (filter (fun r => r_state r ≠ None)
                       (flat_map (merge_county fips_data)
                          (filter (fun r => ¬ state_mask r)
                             (map usa (renamed df)))))))).
  { apply sublist_filter_all.
    2:{ repeat constructor; unfold ancient_row; simpl; lia. }
    apply sublist_filter_all.
    2:{ repeat constructor; unfold bad_row; simpl; intros [? | [? | ?]];
          discriminate. }
    apply sublist_inserts_l.
    change [county_tag (join e1); county_tag (join e2)]
      with (county_tag <$> [join e1; join e2]).
    change (map county_tag ?l) with (county_tag <$> l).
    apply fmap_sublist. apply sublist_filter_all; [| by repeat constructor].
    etrans; [exact Hjoin |]. by apply sublist_flat_map. }
  match goal with
  | |- context [set_index_verify ?f] =>
      destruct (set_index_verify_twice f (Some fips, Some d))
        as (dups & Hraise & Hk)
  end.
  { change [(Some fips, Some d); (Some fips, Some d)]
      with (key_of <$> [county_tag (join e1); county_tag (join e2)]).
    change (map key_of ?l) with (key_of <$> l).
    apply fmap_sublist, Hframe. }
  exists dups. eexists. rewrite Hraise. done.
Qed.

End Usafacts.


(** ** The shift of the Texas counties *)

Lemma dropna_shift_up (rows : list row) :
  Forall (fun r => r_fips r ≠ None) rows ->
  dropna_all (shift_up rows)
  = zip_with (fun r r' => set_date (r_date r) r') rows (tail rows).
Proof.
  induction rows as [|r rest IH]; intros Hall; [done |].
  apply Forall_cons in Hall as [Hr Hall]. specialize (IH Hall).
  destruct rest as [|r' rest'].
  - simpl. unfold dropna_all. rewrite filter_cons.
    destruct (decide (¬ all_null (null_row (r_date r)))) as [Hn | _]; [| done].
    exfalso. apply Hn. by unfold all_null.
  - change (shift_up (r :: r' :: rest'))
      with (set_date (r_date r) r' :: shift_up (r' :: rest')).
    unfold dropna_all in *. rewrite filter_cons.
    apply Forall_cons in Hall as [Hr' _].
    destruct (decide (¬ all_null (set_date (r_date r) r'))) as [_ | Hn].
    + simpl. f_equal. exact IH.
    + exfalso. apply Hn. intros (Hf & _). by apply Hr'.
Qed.

Lemma filter_none {A} (P : A -> Prop) `{forall x, Decision (P x)} (l : list A) :
  Forall (fun x => ¬ P x) l -> filter P l = [].
Proof.
  induction l as [|x l IH]; intros Hall; [done |].
  apply Forall_cons in Hall as [Hx Hall]. rewrite filter_cons.
  destruct (decide (P x)); [done | by apply IH].
Qed.

Lemma zip_shift_tx (l k : list row) :
  Forall is_tx_county k ->
  Forall is_tx_county (zip_with (fun r r' => set_date (r_date r) r') l k).
Proof.
  revert k. induction l as [|r l IH]; intros k Hk; [constructor |].
  destruct k as [|r' k]; [constructor |].
  apply Forall_cons in Hk as [Hr' Hk]. simpl. constructor; [done | by apply IH].
Qed.

Lemma zip_tail_length {A} (f : A -> A -> A) (l : list A) :
  length (zip_with f l (tail l)) = (length l - 1)%nat.
Proof.
  rewrite length_zip_with. destruct l as [|x l]; [done |].
  change (tail (x :: l)) with l. change (length (x :: l)) with (S (length l)).
  lia.
Qed.

Lemma zip_tail_lookup {A} (f : A -> A -> A) (l : list A) (i : nat) (x y : A) :
  l !! i = Some x -> l !! S i = Some y ->
  zip_with f l (tail l) !! i = Some (f x y).
Proof.
  intros Hi Hi'. apply lookup_zip_with_Some. exists x, y.
  split; [done |]. split; [done |]. by destruct l.
Qed.

(** X10.  The shift of lines 143-149 leaves the rows outside Texas as
    they are and puts them first.  The Texas rows follow, taken together
    in frame order whatever their county: each carries the columns of
    the next Texas row under the date of its own, so the columns of the
    first Texas row and the date of the last are lost, and the frame is
    one row shorter when it has a Texas row. *)
Theorem tx_shift_structure (counties : list row) :
  let tx := filter is_tx_county counties in
  let shifted := zip_with (fun r r' => set_date (r_date r) r') tx (tail tx) in
  shift_tx_counties counties
  = filter (fun r => ¬ is_tx_county r) counties ++ shifted /\
  filter is_tx_county (shift_tx_counties counties) = shifted /\
  (forall i r r', tx !! i = Some r -> tx !! S i = Some r' ->
     shifted !! i = Some (set_date (r_date r) r')) /\
  length shifted = (length tx - 1)%nat /\
  length (shift_tx_counties counties)
  = (length counties - (if decide (tx = []) then 0 else 1))%nat.
Proof.
  cbv zeta.
  assert (Htx : Forall is_tx_county (filter is_tx_county counties)).
  { apply Forall_forall. intros r Hr.
    by apply list_elem_of_filter in Hr as [Hr _]. }
  assert (Hfips : Forall (fun r => r_fips r ≠ None)
                    (filter is_tx_county counties)).
  { eapply Forall_impl; [exact Htx |]. intros r Hr Hnone.
    unfold is_tx_county in Hr. by rewrite Hnone in Hr. }
  assert (Hshape : shift_tx_counties counties
                   = filter (fun r => ¬ is_tx_county r) counties
                     ++ zip_with (fun r r' => set_date (r_date r) r')
                          (filter is_tx_county counties)
                          (tail (filter is_tx_county counties))).
  { unfold shift_tx_counties. by rewrite (dropna_shift_up _ Hfips). }
  pose proof (filter_split_length is_tx_county counties) as Hsplit.
  revert Htx Hshape Hsplit. generalize (filter is_tx_county counties) as tx.
  intros tx Htx Hshape Hsplit.
  split; [exact Hshape |]. split; [| split; [| split]].
  - rewrite Hshape, filter_app.
    rewrite (filter_none is_tx_county).
    2:{ apply Forall_forall. intros r Hr.
        by apply list_elem_of_filter in Hr as [Hr _]. }
    simpl. apply filter_all. intros Hex.
    apply Exists_exists in Hex as (r & Hr & Hn). apply Hn.
    assert (Hall : Forall is_tx_county
                     (zip_with (fun r r' => set_date (r_date r) r') tx (tail tx))).
    { apply zip_shift_tx. destruct tx as [|r0 rest]; [constructor |].
      by apply Forall_cons in Htx as [_ Htx]. }
    by apply (proj1 (Forall_forall _ _) Hall).
  - intros i r r'.
    apply (zip_tail_lookup (fun r r' => set_date (r_date r) r')).
  - apply zip_tail_length.
  - rewrite Hshape, length_app, zip_tail_length.
    destruct (decide (tx = [])) as [-> | Hne]; [simpl in *; lia |].
    destruct tx as [|r0 rest]; [done |]. simpl in *. lia.
Qed.

(** X11.  In [Fields] and in [UsaFactsFields] no two members have the
    same column name, no two members have the same common field, and no
    member is mapped to FIPS, COUNTRY, STATE, COUNTY or AGGREGATE_LEVEL,
    the columns that the transformer derives itself. *)
Theorem field_tables_consistent :
  (forall f g : Fields, field_name f = field_name g -> f = g) /\
  (forall (f g : Fields) c,
     common_field f = Some c -> common_field g = Some c -> f = g) /\
  (forall f : Fields,
     common_field f ∉ [Some FIPS; Some COUNTRY; Some STATE; Some COUNTY;
                       Some AGGREGATE_LEVEL]) /\
  (forall f g : UsaFactsFields, field_name f = field_name g -> f = g) /\
  (forall (f g : UsaFactsFields) c,
     common_field f = Some c -> common_field g = Some c -> f = g) /\
  (forall f : UsaFactsFields,
     common_field f ∉ [Some FIPS; Some COUNTRY; Some STATE; Some COUNTY;
                       Some AGGREGATE_LEVEL]).
Proof.
  split; [| split; [| split; [| split; [| split]]]].
  - (intros f g; destruct f, g; simpl; intros Hn;
      first [reflexivity | discriminate Hn]).
  - (intros f g c; destruct f, g; simpl; intros Hf Hg;
      first [reflexivity | congruence]).
  - intros f Hin. destruct f; simpl in Hin;
      repeat (apply elem_of_cons in Hin as [Hin | Hin]; [discriminate Hin |]);
      inversion Hin.
  - intros f g; destruct f, g; simpl; intros Hn;
      first [reflexivity | discriminate Hn].
  - intros f g c; destruct f, g; simpl; intros Hf Hg;
      first [reflexivity | congruence].
  - intros f Hin. destruct f; simpl in Hin;
      repeat (apply elem_of_cons in Hin as [Hin | Hin]; [discriminate Hin |]);
      inversion Hin.
Qed.

(** ** The frames that are returned *)

Section Indexed.
Variable str_date : date -> string.
Variable today : date.
Variable fips_data : county_table.
Variable state_df : state_table.
Variable backfill : list row -> list row.
Variable str_frame : list row -> string.

(** X12.  A frame returned by [transform] or by [transform_usafacts] is
    the frame that was built, with pairwise distinct (FIPS, DATE) keys.
    When the frame that was built has a key twice, the run raises the
    ValueError for duplicate keys, after the same log, and reports the
    key. *)
Theorem indexed_frames_have_distinct_keys
    (df : list (raw_row Fields)) (uf : list (raw_row UsaFactsFields)) :
  (forall out log,
     transform str_date today fips_data state_df backfill str_frame df = (Ok out, log) ->
     transform_frame str_date today fips_data state_df backfill str_frame df
       = (Ok out, log) /\
     NoDup (map key_of out)) /\
  (forall frame log k,
     transform_frame str_date today fips_data state_df backfill str_frame df
       = (Ok frame, log) ->
     [k; k] `sublist_of` map key_of frame ->
     exists dups,
       transform str_date today fips_data state_df backfill str_frame df
         = (Raise (ValueError_duplicate_keys dups), log) /\ k ∈ dups) /\
  (forall out log,
     transform_usafacts str_date today fips_data state_df str_frame uf = (Ok out, log) ->
     transform_usafacts_frame str_date today fips_data state_df str_frame uf
       = (Ok out, log) /\
     NoDup (map key_of out)) /\
  (forall frame log k,
     transform_usafacts_frame str_date today fips_data state_df str_frame uf
       = (Ok frame, log) ->
     [k; k] `sublist_of` map key_of frame ->
     exists dups,
       transform_usafacts str_date today fips_data state_df str_frame uf
         = (Raise (ValueError_duplicate_keys dups), log) /\ k ∈ dups).
Proof.
  split; [| split; [| split]].
  - intros out log. apply transform_ok_inv.
  - intros frame log k Hframe Hsub.
    rewrite (transform_index _ _ _ _ _ _ df frame log Hframe).
    destruct (set_index_verify_twice frame k Hsub) as (dups & -> & Hk).
    by exists dups.
  - intros out log. apply transform_usafacts_ok_inv.
  - intros frame log k Hframe Hsub.
    rewrite (transform_usafacts_index _ _ _ _ _ uf frame log Hframe).
    destruct (set_index_verify_twice frame k Hsub) as (dups & -> & Hk).
    by exists dups.
Qed.

End Indexed.

(** ** Examples *)

Lemma resolver_keeps_rows_apart_witness :
  NoDup (map fst sample_fips_data) /\ NoDup (map fst sample_state_df) /\
  exists counties states log,
    _counties_states_with_geoattributes sample_fips_data sample_state_df
      [unmatched_state_row; unpadded_county_row]
      = (Ok (counties, states), log) /\
    map key_of states = [(Some "99", Some (ymd 2020 6 1))] /\
    (length counties + length states <= 2)%nat.
Proof.
  assert (Hc : NoDup (map fst sample_fips_data))
    by (apply (bool_decide_unpack _); vm_compute; exact I).
  assert (Hs : NoDup (map fst sample_state_df))
    by (apply (bool_decide_unpack _); vm_compute; exact I).
  split; [exact Hc |]. split; [exact Hs |].
  destruct (resolver_keeps_rows_apart sample_fips_data sample_state_df Hc Hs
              [unmatched_state_row; unpadded_county_row])
    as (counties & states & log & Hres & Hkeys & _ & _ & Hlen).
  exists counties, states, log. split; [exact Hres |].
  split; [exact Hkeys | exact Hlen].
Defined.

Lemma usafacts_pipeline_witness :
  _fail_if_no_recent_dates isoformat (ymd 2020 6 6) (map dt feed_usafacts)
    (Some 7) = Ok tt /\
  exists counties states log,
    _counties_states_with_geoattributes sample_fips_data sample_state_df
      (rename_fields
         (map (fun r => (fips_from_int (location r), r)) feed_usafacts))
      = (Ok (counties, states), log) /\
    forall r, r ∈ filter (fun r => ¬ ancient_row r)
                    (filter (fun r => ¬ bad_row r) (states ++ counties)) ->
              r_state r ≠ None.
Proof.
  split; [reflexivity |].
  destruct (usafacts_pipeline isoformat (ymd 2020 6 6) sample_fips_data
              sample_state_df str_rows feed_usafacts eq_refl)
    as (_ & counties & states & log1 & log2 & Hres & _ & _ & _ & Hrows).
  exists counties, states, log1. split; [exact Hres |].
  intros r Hr. by destruct (Hrows r Hr) as (_ & _ & ? & _).
Defined.

Lemma repeated_county_entry_is_fatal_witness :
  exists dups log,
    transform_usafacts isoformat (ymd 2020 6 6) repeated_fips_data
      sample_state_df str_rows feed_usafacts
      = (Raise (ValueError_duplicate_keys dups), log) /\
    (Some "06037", Some (ymd 2020 6 1)) ∈ dups.
Proof.
  apply (repeated_county_entry_is_fatal isoformat (ymd 2020 6 6)
           repeated_fips_data sample_state_df str_rows
           [] [] [] "06037" "CA" "CA"
           (Some "Los Angeles County") (Some "Los Angeles")
           feed_usafacts (usafacts_row 6037 (ymd 2020 6 1) 7)
           (ymd 2020 6 1)).
  - reflexivity.
  - reflexivity.
  - right. left.
  - reflexivity.
  - discriminate.
  - reflexivity.
  - vm_compute. discriminate.
Defined.

End CountyInvariants.

(** * The forecast hub updater *)

Module ForecastProofs.
Import ForecastHub Samples.

(** ** Tokens *)

Lemma split_token (a b : string) :
  has_no_space a = true -> split " " (a +:+ String " " b) = a :: split " " b.
Proof.
  induction a as [|c a IH]; intros Ha; [reflexivity |].
  simpl in Ha. apply andb_true_iff in Ha as [Hc Ha].
  simpl. destruct (Ascii.eqb c " "); [discriminate |].
  by rewrite (IH Ha).
Qed.

Lemma split_last_token (a : string) :
  has_no_space a = true -> split " " a = [a].
Proof.
  induction a as [|c a IH]; intros Ha; [reflexivity |].
  simpl in Ha. apply andb_true_iff in Ha as [Hc Ha].
  simpl. destruct (Ascii.eqb c " "); [discriminate |].
  by rewrite (IH Ha).
Qed.

Lemma split_descriptor (sn agg typ : string) :
  has_no_space sn = true -> has_no_space agg = true ->
  has_no_space typ = true ->
  split " " (sn +:+ " wk " +:+ agg +:+ " " +:+ typ) = [sn; "wk"; agg; typ].
Proof.
  intros Hsn Hagg Htyp.
  change (sn +:+ " wk " +:+ agg +:+ " " +:+ typ)
    with (sn +:+ String " " ("wk" +:+ String " " (agg +:+ String " " typ))).
  rewrite (split_token sn _ Hsn).
  rewrite (split_token "wk" _ eq_refl).
  rewrite (split_token agg _ Hagg).
  by rewrite (split_last_token typ Htyp).
Qed.

(** ** The loop over the rows *)

Lemma traverse_ok {A B} (f : A -> result B) (l : list A) :
  (forall x, x ∈ l -> exists y, f x = Ok y) ->
  exists ys, traverse f l = Ok ys /\ length ys = length l.
Proof.
  induction l as [|x l IH]; intros Hall; [by exists [] |].
  destruct (Hall x) as [y Hy]; [left |].
  destruct IH as (ys & Hys & Hlen); [intros z Hz; apply Hall; by right |].
  exists (y :: ys). simpl. rewrite Hy. simpl. rewrite Hys. simpl.
  by rewrite Hlen.
Qed.

Lemma traverse_raise {A B} (f : A -> result B) (l : list A) (x : A) (e : error) :
  x ∈ l -> f x = Raise e -> exists e', traverse f l = Raise e'.
Proof.
  induction l as [|z l IH]; intros Hx He; [inversion Hx |].
  simpl. destruct (f z) as [y | e0] eqn:Hz; [| by exists e0].
  apply elem_of_cons in Hx as [-> | Hx]; [congruence |].
  destruct (IH Hx He) as [e' He']. exists e'. simpl. by rewrite He'.
Qed.

Lemma traverse_ok_inv {A B} (f : A -> result B) (l : list A) (ys : list B) :
  traverse f l = Ok ys ->
  (forall y, y ∈ ys -> exists x, x ∈ l /\ f x = Ok y) /\
  (forall x, x ∈ l -> exists y, y ∈ ys /\ f x = Ok y).
Proof.
  revert ys. induction l as [|x l IH]; intros ys; simpl.
  - intros [= <-]. split; intros z Hz; inversion Hz.
  - destruct (f x) as [y | e] eqn:Hx; [| discriminate]. simpl.
    destruct (traverse f l) as [ys' | e] eqn:Hl; [| discriminate]. simpl.
    intros [= <-]. destruct (IH ys' eq_refl) as [Hback Hforth]. split.
    + intros z Hz. apply elem_of_cons in Hz as [-> | Hz].
      * exists x. split; [left | done].
      * destruct (Hback z Hz) as (x' & Hx' & Hfx'). exists x'.
        split; [by right | done].
    + intros z Hz. apply elem_of_cons in Hz as [-> | Hz].
      * exists y. split; [left | done].
      * destruct (Hforth z Hz) as (y' & Hy' & Hfz). exists y'.
        split; [by right | done].
Qed.

Lemma split_nonempty (s : string) : split " " s ≠ [].
Proof.
  destruct s as [|c s]; simpl; [done |].
  destruct (Ascii.eqb c " "); [done |]. by destruct (split " " s).
Qed.

Lemma split_concat (toks : list string) :
  toks ≠ [] -> Forall (fun t => has_no_space t = true) toks ->
  split " " (String.concat " " toks) = toks.
Proof.
  induction toks as [|t toks IH]; intros Hne Hall; [done |].
  apply Forall_cons in Hall as [Ht Hall].
  destruct toks as [|t' toks].
  - by apply split_last_token.
  - change (String.concat " " (t :: t' :: toks))
      with (t +:+ String " " (String.concat " " (t' :: toks))).
    rewrite (split_token t _ Ht). f_equal. by apply IH.
Qed.

Lemma concat_split (s : string) : String.concat " " (split " " s) = s.
Proof.
  induction s as [|c s IH]; [done |]. simpl.
  destruct (Ascii.eqb_spec c " ") as [-> | Hc].
  - pose proof (split_nonempty s) as Hne.
    destruct (split " " s) as [|t ts] eqn:E; [done |].
    change (String.concat " " ("" :: t :: ts))
      with (String " " (String.concat " " (t :: ts))).
    by rewrite IH.
  - pose proof (split_nonempty s) as Hne.
    destruct (split " " s) as [|t ts] eqn:E; [done |].
    rewrite <- IH. by destruct ts.
Qed.

Lemma split_tokens (s t : string) : t ∈ split " " s -> has_no_space t = true.
Proof.
  revert t. induction s as [|c s IH]; intros t; simpl.
  - intros Ht. by apply list_elem_of_singleton in Ht as ->.
  - destruct (Ascii.eqb c " ") eqn:Hc.
    + intros Ht. apply elem_of_cons in Ht as [-> | Ht]; [done | by apply IH].
    + pose proof (split_nonempty s) as Hne.
      destruct (split " " s) as [|t' ts] eqn:E; [done |].
      intros Ht. apply elem_of_cons in Ht as [-> | Ht].
      * simpl. rewrite Hc. simpl. apply IH. left.
      * apply IH. by right.
Qed.

(** X20.  [target.split(" ")] loses nothing: the tokens joined by single
    blanks are the target again, no token holds a blank, and there is at
    least one token; and tokens without a blank, joined by single blanks,
    split into themselves. *)
Theorem split_join_round_trip (s : string) :
  String.concat " " (split " " s) = s /\
  split " " s ≠ [] /\
  (forall t, t ∈ split " " s -> has_no_space t = true) /\
  (forall toks, toks ≠ [] -> Forall (fun t => has_no_space t = true) toks ->
     split " " (String.concat " " toks) = toks).
Proof.
  split; [apply concat_split |]. split; [apply split_nonempty |].
  split; [apply split_tokens | apply split_concat].
Qed.

Lemma int_raise (token : string) (e : error) :
  int token = Raise e -> e = ValueError_invalid_literal token.
Proof.
  unfold int. destruct (match strip _ with [] => _ | _ => _ end); [discriminate |].
  by intros [= <-].
Qed.

(** A delta of whole weeks is in range up to 15250 weeks. *)
Lemma timedelta_weeks_range (n : Z) :
  in_timedelta_range (7 * n) = true <-> -15250 <= n <= 15250.
Proof.
  unfold in_timedelta_range, int64_max, nanoseconds_per_day.
  rewrite Z.leb_le.
  change (86400 * 10 ^ 9) with 86400000000000.
  change (2 ^ 63 - 1) with 9223372036854775807. lia.
Qed.

Lemma parse_target_ok (x : forecast_row) (p : parsed_row) :
  parse_target x = Ok p <->
  exists n, int (hd "" (split " " (target x))) = Ok n /\
    in_timedelta_range (7 * n) = true /\
    in_timestamp_range (forecast_date x + 7 * n) = true /\
    p = mk_parsed_row x (forecast_date x + 7 * n)
          (last_token (split " " (target x)))
          (penultimate_token (split " " (target x))).
Proof.
  unfold parse_target, Timedelta_weeks, timestamp_add.
  destruct (int (hd "" (split " " (target x)))) as [n | e]; simpl.
  - destruct (in_timedelta_range (7 * n)) eqn:Hdelta; simpl.
    + destruct (in_timestamp_range (forecast_date x + 7 * n)) eqn:Hstamp;
        simpl.
      * split.
        -- intros [= <-]. by exists n.
        -- intros (m & Hm & _ & _ & Hp). injection Hm as <-. by rewrite Hp.
      * split; [discriminate |].
        intros (m & Hm & _ & Hs & _). injection Hm as <-. congruence.
    + split; [discriminate |].
      intros (m & Hm & Hd & _). injection Hm as <-. congruence.
  - split; [discriminate |]. intros (m & Hm & _). discriminate Hm.
Qed.

Lemma parse_target_raise (x : forecast_row) (e : error) :
  parse_target x = Raise e <->
  int (hd "" (split " " (target x))) = Raise e \/
  exists n, int (hd "" (split " " (target x))) = Ok n /\
    (in_timedelta_range (7 * n)
     && in_timestamp_range (forecast_date x + 7 * n) = false) /\
    e = OverflowError.
Proof.
  unfold parse_target, Timedelta_weeks, timestamp_add.
  destruct (int (hd "" (split " " (target x)))) as [n | e']; simpl.
  - destruct (in_timedelta_range (7 * n)) eqn:Hdelta; simpl.
    + destruct (in_timestamp_range (forecast_date x + 7 * n)) eqn:Hstamp;
        simpl.
      * split; [discriminate |].
        intros [Hr | (m & Hm & Hout & _)]; [discriminate Hr |].
        injection Hm as <-. rewrite Hdelta, Hstamp in Hout. discriminate Hout.
      * split.
        -- intros [= <-]. right. exists n. by rewrite Hdelta, Hstamp.
        -- intros [Hr | (m & _ & _ & ->)]; [discriminate Hr | done].
    + split.
      * intros [= <-]. right. exists n. by rewrite Hdelta.
      * intros [Hr | (m & _ & _ & ->)]; [discriminate Hr | done].
  - split.
    + intros [= <-]. by left.
    + intros [[= <-] | (m & Hm & _)]; [done | discriminate Hm].
Qed.

Lemma traverse_raise_inv {A B} (f : A -> result B) (l : list A) (e : error) :
  traverse f l = Raise e -> exists x, x ∈ l /\ f x = Raise e.
Proof.
  induction l as [|z l IH]; simpl; [discriminate |].
  destruct (f z) as [y | e0] eqn:Hz; simpl.
  - destruct (traverse f l) as [ys | e1]; simpl; [discriminate |].
    intros [= <-]. destruct (IH eq_refl) as (x & Hx & Hfx).
    exists x. split; [by right | done].
  - intros [= <-]. exists z. split; [left | done].
Qed.

(** The loop stops at the first row on which the function raises. *)
Lemma traverse_first_raise {A B} (f : A -> result B) (l : list A) (e : error) :
  traverse f l = Raise e <->
  exists pre x post, l = pre ++ x :: post /\
    (forall y, y ∈ pre -> is_ok (f y) = true) /\ f x = Raise e.
Proof.
  split.
  - induction l as [|z l IH]; simpl; [discriminate |].
    destruct (f z) as [y | e0] eqn:Hz; simpl.
    + destruct (traverse f l) as [ys | e1]; simpl; [discriminate |].
      intros [= <-]. destruct (IH eq_refl) as (pre & x & post & -> & Hpre & Hx).
      exists (z :: pre), x, post. split; [done |]. split; [| done].
      intros y' Hy'. apply elem_of_cons in Hy' as [-> | Hy'];
        [by rewrite Hz | by apply Hpre].
    + intros [= <-]. exists [], z, l. split; [done |]. split; [| done].
      intros y Hy. inversion Hy.
  - intros (pre & x & post & -> & Hpre & Hx).
    induction pre as [|z pre IH]; simpl.
    + by rewrite Hx.
    + pose proof (Hpre z ltac:(left)) as Hz.
      destruct (f z) as [y | e0]; [| discriminate Hz]. simpl.
      rewrite IH; [done |]. intros y' Hy'. apply Hpre. by right.
Qed.

Lemma apply_rows_traverse {A B} (f : A -> result B) (df : list A) :
  df ≠ [] -> apply_rows f df = traverse f df.
Proof. by destruct df. Qed.

Lemma apply_rows_ok {A B} (f : A -> result B) (df : list A) (ys : list B) :
  apply_rows f df = Ok ys <-> df ≠ [] /\ traverse f df = Ok ys.
Proof.
  destruct df as [|x df]; simpl.
  - split; [discriminate | by intros [? _]].
  - split; [by intros -> | by intros [_ ->]].
Qed.

(** ** Pivots *)

Lemma pivot_ok_inv {K C} `{Countable K} `{Countable C}
    (long : list (K * C * Z)) (fr : frame K C) :
  pivot long = Ok fr ->
  NoDup (map fst long) /\
  fr = mk_frame (list_to_set (map (fun x => x.1.1) long))
                (list_to_set (map (fun x => x.1.2) long))
                (list_to_map long).
Proof.
  unfold pivot. destruct (duplicated (map fst long)) eqn:E; [| discriminate].
  intros [= <-]. split; [by apply duplicated_nil | done].
Qed.

Lemma pivot_raise {K C} `{Countable K} `{Countable C}
    (long : list (K * C * Z)) :
  ¬ NoDup (map fst long) -> pivot long = Raise ValueError_duplicate_entries.
Proof.
  intros Hdup. unfold pivot.
  destruct (duplicated (map fst long)) eqn:E; [| done].
  by apply duplicated_nil in E.
Qed.

Lemma pivot_raise_inv {K C} `{Countable K} `{Countable C}
    (long : list (K * C * Z)) (e : error) :
  pivot long = Raise e -> e = ValueError_duplicate_entries.
Proof.
  unfold pivot. destruct (duplicated (map fst long)); [discriminate |].
  by intros [= <-].
Qed.

Lemma value_field_some (c : string) (f : CommonFields) :
  value_field c = Some f ->
  c = match f with WEEKLY_NEW_CASES => "case" | WEEKLY_NEW_DEATHS => "death" end.
Proof.
  unfold value_field.
  destruct (String.eqb_spec c "case") as [-> | _]; [by intros [= <-] |].
  destruct (String.eqb_spec c "death") as [-> | _]; [by intros [= <-] |].
  discriminate.
Qed.

Lemma value_field_inj (c1 c2 : string) (f : CommonFields) :
  value_field c1 = Some f -> value_field c2 = Some f -> c1 = c2.
Proof.
  intros H1 H2. apply value_field_some in H1, H2. congruence.
Qed.

Lemma column_name_inj (f1 f2 : CommonFields) (q1 q2 : string) :
  column_name f1 (Some q1) = column_name f2 (Some q2) -> f1 = f2 /\ q1 = q2.
Proof.
  unfold column_name. destruct f1, f2; simpl; intros Heq;
    (discriminate Heq || (by injection Heq)).
Qed.

Lemma rename_fields_lookup (fr : frame key5 string) (k : key5)
    (f : CommonFields) (v : Z) :
  cells (rename_fields fr) !! (k, f) = Some v <->
  exists c, value_field c = Some f /\ cells fr !! (k, c) = Some v.
Proof.
  unfold rename_fields. simpl.
  rewrite <- elem_of_list_to_map.
  - rewrite list_elem_of_omap. split.
    + intros ([[k0 c] v0] & Hin & Hcell). unfold rename_cell in Hcell.
      simpl in Hcell. destruct (value_field c) as [f0 |] eqn:Hc; [| done].
      simpl in Hcell. injection Hcell as <- <- <-.
      exists c. split; [done |]. by apply elem_of_map_to_list.
    + intros (c & Hc & Hcell). exists (k, c, v).
      split; [by apply elem_of_map_to_list |].
      unfold rename_cell. simpl. by rewrite Hc.
  - pose proof (NoDup_fst_map_to_list (cells fr)) as Hnd.
    revert Hnd. generalize (map_to_list (cells fr)) as l.
    induction l as [|[[k0 c0] v0] l IH]; intros Hnd; [constructor |].
    apply NoDup_cons in Hnd as [Hhd Hnd]. simpl.
    unfold rename_cell at 1. simpl.
    destruct (value_field c0) as [f0 |] eqn:Hc0; simpl; [| by apply IH].
    apply NoDup_cons. split; [| by apply IH].
    intros Hin. apply Hhd.
    apply list_elem_of_fmap in Hin as ([[k1 f1] v1] & Hk & Hin).
    simpl in Hk. injection Hk as <- <-.
    apply list_elem_of_omap in Hin as ([[k2 c2] v2] & Hin & Hcell).
    unfold rename_cell in Hcell. simpl in Hcell.
    destruct (value_field c2) as [f2 |] eqn:Hc2; [| done].
    simpl in Hcell. injection Hcell as <- <- <-.
    rewrite (value_field_inj c0 c2 _ Hc0 Hc2).
    apply list_elem_of_fmap. by exists (k2, c2, v2).
Qed.

Lemma pivot_quantile_lookup (data : frame key5 CommonFields) (k : key4)
    (c : string) (v : Z) :
  (forall k5 f v, cells data !! (k5, f) = Some v -> quantile_of k5 ≠ None) ->
  cells (pivot_quantile data) !! (k, c) = Some v <->
  exists k5 f, cells data !! (k5, f) = Some v /\ k = key4_of k5 /\
               c = column_name f (quantile_of k5).
Proof.
  intros Hq. unfold pivot_quantile. simpl.
  rewrite <- elem_of_list_to_map.
  - rewrite CountyProofs.elem_of_map_iff. split.
    + intros ([[k5 f] v0] & Heq & Hin). unfold wide_cell in Heq.
      simpl in Heq. injection Heq as -> -> ->. exists k5, f.
      split; [by apply elem_of_map_to_list | done].
    + intros (k5 & f & Hcell & -> & ->). exists (k5, f, v).
      split; [done | by apply elem_of_map_to_list].
  - change (map wide_cell (map_to_list (cells data)))
      with (wide_cell <$> map_to_list (cells data)).
    rewrite <- list_fmap_compose.
    apply NoDup_fmap_2_strong; [| apply NoDup_map_to_list].
    intros [[k5 f] v1] [[k5' f'] v2] Hin1 Hin2 Heq.
    apply elem_of_map_to_list in Hin1, Hin2.
    pose proof (Hq _ _ _ Hin1) as Hq1. pose proof (Hq _ _ _ Hin2) as Hq2.
    destruct k5 as [[[[m r] fd] td] q], k5' as [[[[m' r'] fd'] td'] q'].
    unfold quantile_of in Hq1, Hq2. simpl in Hq1, Hq2.
    destruct q as [q |], q' as [q' |]; try done.
    unfold wide_cell, compose in Heq. simpl in Heq.
    injection Heq as -> -> -> -> Hc.
    apply column_name_inj in Hc as [-> ->]. congruence.
Qed.

(** ** The transform *)

Local Abbreviation long_form parsed :=
  (map (fun x => (key5_of x, target_type x, value (p_row x)))
       (filter mask parsed)).

Lemma forecast_transform_inv (df : list forecast_row)
    (wide : frame key4 string) :
  transform df = Ok wide ->
  exists parsed fr,
    traverse parse_target df = Ok parsed /\
    pivot (long_form parsed) = Ok fr /\
    (forall c, c ∈ index_names -> c ∉ columns fr) /\
    wide = pivot_quantile (rename_fields fr).
Proof.
  unfold transform.
  destruct (apply_rows parse_target df) as [parsed | e] eqn:Hrows; simpl;
    [| discriminate].
  apply apply_rows_ok in Hrows as [_ Hparse].
  unfold pivot_target_type.
  destruct (pivot (long_form parsed)) as [fr | e] eqn:Hp; simpl; [| discriminate].
  match goal with
  | |- context [match ?l with [] => _ | _ :: _ => _ end] =>
      destruct l as [|c0 l'] eqn:Hf; [| discriminate]
  end.
  intros [= <-]. exists parsed, fr. repeat split; try done.
  intros c Hc Hin.
  assert (Hc' : c ∈ @nil string); [| by inversion Hc'].
  rewrite <- Hf. apply list_elem_of_filter. split; [done |].
  change (c ∈ rev index_names).
  apply list_elem_of_In, (proj1 (in_rev _ _)). by apply list_elem_of_In.
Qed.

Lemma forecast_transform_nonempty (df : list forecast_row)
    (wide : frame key4 string) :
  transform df = Ok wide -> df ≠ [].
Proof. by intros Hrun ->. Qed.

Lemma survivors (df : list forecast_row) (parsed : list parsed_row)
    (p : parsed_row) :
  traverse parse_target df = Ok parsed ->
  p ∈ filter mask parsed <->
  exists x, x ∈ df /\ parse_target x = Ok p /\ mask p.
Proof.
  intros Hparse. destruct (traverse_ok_inv _ _ _ Hparse) as [Hback Hforth].
  rewrite list_elem_of_filter. split.
  - intros [Hm Hp]. destruct (Hback p Hp) as (x & Hx & Hfx). by exists x.
  - intros (x & Hx & Hfx & Hm). split; [done |].
    destruct (Hforth x Hx) as (p' & Hp' & Hfx'). congruence.
Qed.

Lemma parse_target_row (x : forecast_row) (p : parsed_row) :
  parse_target x = Ok p -> p_row p = x.
Proof.
  intros Hp. apply parse_target_ok in Hp as (n & _ & _ & _ & ->). done.
Qed.

Lemma first_pivot_lookup (parsed : list parsed_row) (fr : frame key5 string)
    (k : key5) (c : string) (v : Z) :
  pivot (long_form parsed) = Ok fr ->
  cells fr !! (k, c) = Some v <->
  exists p, p ∈ filter mask parsed /\ key5_of p = k /\ target_type p = c /\
            value (p_row p) = v.
Proof.
  intros Hp. apply pivot_ok_inv in Hp as [Hnd ->]. simpl.
  rewrite <- elem_of_list_to_map by exact Hnd.
  rewrite CountyProofs.elem_of_map_iff. split.
  - intros (p & [= -> -> ->] & Hin). by exists p.
  - intros (p & Hin & <- & <- & <-). by exists p.
Qed.

Lemma renamed_quantiles (parsed : list parsed_row) (fr : frame key5 string) :
  pivot (long_form parsed) = Ok fr ->
  forall k f v, cells (rename_fields fr) !! (k, f) = Some v ->
                quantile_of k ≠ None.
Proof.
  intros Hp k f v Hcell.
  apply rename_fields_lookup in Hcell as (c & _ & Hcell).
  apply (first_pivot_lookup _ _ _ _ _ Hp) in Hcell as (p & Hin & <- & _).
  apply list_elem_of_filter in Hin as [(_ & Hq & _) _]. exact Hq.
Qed.

(** X16.  When [transform] returns, a cell of the wide frame holds a
    value exactly when a row of the feed that the mask keeps, with a
    target type of "case" or "death", has that value: the cell is in the
    row of (unit, target date, model, forecast date) and in the column
    named by the common field of the type, "_" and the quantile.  So no
    cell comes from a row that the mask excludes or from another target
    type. *)
Theorem forecast_cells (df : list forecast_row) (wide : frame key4 string)
    (Hrun : transform df = Ok wide) (k : key4) (c : string) (v : Z) :
  cells wide !! (k, c) = Some v <->
  exists x p f,
    x ∈ df /\ parse_target x = Ok p /\ mask p /\
    value_field (target_type p) = Some f /\
    k = (unit_ x, target_date p, model_abbr x, forecast_date x) /\
    c = column_name f (quantile x) /\
    v = value x.
Proof.
  apply forecast_transform_inv in Hrun
    as (parsed & fr & Hparse & Hpivot & _ & ->).
  rewrite (pivot_quantile_lookup _ _ _ _ (renamed_quantiles _ _ Hpivot)).
  split.
  - intros (k5 & f & Hcell & -> & ->).
    apply rename_fields_lookup in Hcell as (c0 & Hc0 & Hcell).
    apply (first_pivot_lookup _ _ _ _ _ Hpivot) in Hcell
      as (p & Hin & <- & <- & <-).
    apply (survivors _ _ _ Hparse) in Hin as (x & Hx & Hfx & Hm).
    pose proof (parse_target_row x p Hfx) as <-.
    by exists (p_row p), p, f.
  - intros (x & p & f & Hx & Hfx & Hm & Hf & -> & -> & ->).
    pose proof (parse_target_row x p Hfx) as <-.
    exists (key5_of p), f. split; [| done].
    apply rename_fields_lookup. exists (target_type p). split; [done |].
    apply (first_pivot_lookup _ _ _ _ _ Hpivot). exists p.
    split; [| done]. apply (survivors _ _ _ Hparse). by exists (p_row p).
Qed.

Lemma first_pivot_columns (parsed : list parsed_row) (fr : frame key5 string)
    (c : string) :
  pivot (long_form parsed) = Ok fr ->
  c ∈ columns fr <-> exists p, p ∈ filter mask parsed /\ target_type p = c.
Proof.
  intros Hp. apply pivot_ok_inv in Hp as [_ ->]. simpl.
  rewrite elem_of_list_to_set, map_map, CountyProofs.elem_of_map_iff. simpl.
  split; intros (p & Hc & Hin); by exists p.
Qed.

Lemma first_pivot_index (parsed : list parsed_row) (fr : frame key5 string)
    (k : key5) :
  pivot (long_form parsed) = Ok fr ->
  k ∈ index fr <-> exists p, p ∈ filter mask parsed /\ key5_of p = k.
Proof.
  intros Hp. apply pivot_ok_inv in Hp as [_ ->]. simpl.
  rewrite elem_of_list_to_set, map_map, CountyProofs.elem_of_map_iff. simpl.
  split; intros (p & Hc & Hin); by exists p.
Qed.

(** X17.  When [transform] returns, the columns of the wide frame are
    the names made of a value field that a kept row has and of a
    quantile that a kept row has, whether or not one row has both; its
    rows are the keys (unit, target date, model, forecast date) of the
    kept rows. *)
Theorem forecast_columns_and_index (df : list forecast_row)
    (wide : frame key4 string) (Hrun : transform df = Ok wide) :
  (forall c, c ∈ columns wide <->
     exists x p f y p',
       x ∈ df /\ parse_target x = Ok p /\ mask p /\
       value_field (target_type p) = Some f /\
       y ∈ df /\ parse_target y = Ok p' /\ mask p' /\
       c = column_name f (quantile y)) /\
  (forall k, k ∈ index wide <->
     exists x p,
       x ∈ df /\ parse_target x = Ok p /\ mask p /\
       k = (unit_ x, target_date p, model_abbr x, forecast_date x)).
Proof.
  apply forecast_transform_inv in Hrun
    as (parsed & fr & Hparse & Hpivot & _ & ->).
  split.
  - intros c. unfold pivot_quantile, rename_fields. simpl.
    rewrite elem_of_list_to_set, list_elem_of_bind. split.
    + intros (f & Hc & Hf).
      apply list_elem_of_bind in Hc as (q & Hc & Hq).
      apply list_elem_of_singleton in Hc as ->.
      apply elem_of_elements, elem_of_list_to_set, list_elem_of_omap in Hf
        as (c0 & Hc0 & Hf).
      apply elem_of_elements, (first_pivot_columns _ _ _ Hpivot) in Hc0
        as (p & Hp & <-).
      apply elem_of_elements, elem_of_map in Hq as (k5 & -> & Hk5).
      apply (first_pivot_index _ _ _ Hpivot) in Hk5 as (p' & Hp' & <-).
      apply (survivors _ _ _ Hparse) in Hp as (x & Hx & Hfx & Hm).
      apply (survivors _ _ _ Hparse) in Hp' as (y & Hy & Hfy & Hm').
      pose proof (parse_target_row x p Hfx) as <-.
      pose proof (parse_target_row y p' Hfy) as <-.
      by exists (p_row p), p, f, (p_row p'), p'.
    + intros (x & p & f & y & p' & Hx & Hfx & Hm & Hf & Hy & Hfy & Hm' & ->).
      exists f. split.
      * apply list_elem_of_bind. exists (quantile y).
        split; [by apply list_elem_of_singleton |].
        apply elem_of_elements, elem_of_map. exists (key5_of p'). split.
        -- by rewrite <- (parse_target_row y p' Hfy).
        -- apply (first_pivot_index _ _ _ Hpivot). exists p'.
           split; [| done]. apply (survivors _ _ _ Hparse). by exists y.
      * apply elem_of_elements, elem_of_list_to_set, list_elem_of_omap.
        exists (target_type p). split; [| done].
        apply elem_of_elements, (first_pivot_columns _ _ _ Hpivot).
        exists p. split; [| done]. apply (survivors _ _ _ Hparse). by exists x.
  - intros k. unfold pivot_quantile, rename_fields. simpl.
    rewrite elem_of_map. split.
    + intros (k5 & -> & Hk5).
      apply (first_pivot_index _ _ _ Hpivot) in Hk5 as (p & Hp & <-).
      apply (survivors _ _ _ Hparse) in Hp as (x & Hx & Hfx & Hm).
      pose proof (parse_target_row x p Hfx) as <-.
      by exists (p_row p), p.
    + intros (x & p & Hx & Hfx & Hm & ->). exists (key5_of p). split.
      * by rewrite <- (parse_target_row x p Hfx).
      * apply (first_pivot_index _ _ _ Hpivot). exists p.
        split; [| done]. apply (survivors _ _ _ Hparse). by exists x.
Qed.

(** X13.  For a target made of tokens without a blank, joined by single
    blanks, whose first token reads as the integer [n], line 117 returns
    when [n] is between -15250 and 15250 weeks (the range of
    [pd.Timedelta]) and the forecast date plus [7 * n] days is a
    timestamp in range, and raises an OverflowError otherwise.  When it
    returns, the columns added at lines 116-124 are: the target date,
    [7 * n] days after the forecast date; the target type, the last
    token; the summation, the token before the last, which is null when
    there is one token only.  Neither the number of the tokens nor the
    second token is looked at. *)
Theorem parse_target_tokens (x : forecast_row) (toks : list string) (n : Z)
    (Hne : toks ≠ [])
    (Htoks : Forall (fun t => has_no_space t = true) toks)
    (Htarget : target x = String.concat " " toks)
    (Hint : int (hd "" toks) = Ok n) :
  (-15250 <= n <= 15250 ->
   in_timestamp_range (forecast_date x + 7 * n) = true ->
   parse_target x
   = Ok (mk_parsed_row x (forecast_date x + 7 * n)
           (last_token toks) (penultimate_token toks))) /\
  (¬ (-15250 <= n <= 15250) \/
   in_timestamp_range (forecast_date x + 7 * n) = false ->
   parse_target x = Raise OverflowError) /\
  (forall pre agg typ, toks = pre ++ [agg; typ] ->
     last_token toks = typ /\ penultimate_token toks = Some agg) /\
  (forall t, toks = [t] ->
     last_token toks = t /\ penultimate_token toks = None).
Proof.
  assert (Hsplit : split " " (target x) = toks)
    by (by rewrite Htarget, (split_concat toks Hne Htoks)).
  split; [| split; [| split]].
  - intros Hn Hstamp. apply parse_target_ok. exists n. rewrite Hsplit.
    split; [done |]. split; [by apply timedelta_weeks_range |]. done.
  - intros Hout. apply parse_target_raise. right. exists n. rewrite Hsplit.
    split; [done |]. split; [| done].
    apply andb_false_iff. destruct Hout as [Hn | Hstamp]; [left | by right].
    destruct (in_timedelta_range (7 * n)) eqn:Hdelta; [| done].
    by apply timedelta_weeks_range in Hdelta.
  - intros pre agg typ ->. unfold last_token, penultimate_token. split.
    + change (pre ++ [agg; typ]) with (pre ++ [agg] ++ [typ]).
      rewrite app_assoc. apply last_last.
    + by rewrite rev_app_distr.
  - by intros t ->.
Qed.

Lemma parse_target_tokens_witness :
  parse_target (forecast "06" "3 wk inc death" (Some "0.5") 12)
  = Ok (mk_parsed_row (forecast "06" "3 wk inc death" (Some "0.5") 12)
          (ymd 2020 8 24) "death" (Some "inc")) /\
  parse_target (forecast "06" "15251 wk inc death" (Some "0.5") 12)
  = Raise OverflowError.
Proof.
  split.
  - exact (proj1 (parse_target_tokens
                    (forecast "06" "3 wk inc death" (Some "0.5") 12)
                    ["3"; "wk"; "inc"; "death"] 3
                    ltac:(discriminate)
                    ltac:(repeat constructor) eq_refl eq_refl)
             ltac:(lia) eq_refl).
  - apply (proj1 (proj2 (parse_target_tokens
                    (forecast "06" "15251 wk inc death" (Some "0.5") 12)
                    ["15251"; "wk"; "inc"; "death"] 15251
                    ltac:(discriminate)
                    ltac:(repeat constructor) eq_refl eq_refl))).
    left. lia.
Defined.

(** The errors of [transform] that come from line 116-119 are those of
    the loop over the rows. *)
Lemma transform_parse_raise (df : list forecast_row) (e : error) :
  traverse parse_target df = Raise e -> transform df = Raise e.
Proof.
  intros Hparse. unfold transform.
  rewrite apply_rows_traverse; [by rewrite Hparse |].
  intros ->. discriminate Hparse.
Qed.

Lemma transform_raise_inv (df : list forecast_row) (e : error) :
  transform df = Raise e ->
  traverse parse_target df = Raise e \/
  e = ValueError_cannot_set_frame \/
  e = ValueError_duplicate_entries \/
  exists c, e = ValueError_cannot_insert c.
Proof.
  unfold transform. destruct df as [|x df]; [intros [= <-]; auto |].
  rewrite apply_rows_traverse; [| done].
  destruct (traverse parse_target (x :: df)) as [parsed | e0];
    [| intros [= <-]; by left].
  change (Ok parsed ≫= _) with
    (pivot ← pivot_target_type (filter mask parsed) ;
     Ok (pivot_quantile (rename_fields pivot))).
  unfold pivot_target_type.
  destruct (pivot _) as [fr | e1] eqn:Hpivot.
  - change (Ok fr ≫= _) with
      (match filter (fun c => c ∈ columns fr) (rev index_names) with
       | [] => Ok fr
       | c :: _ => Raise (ValueError_cannot_insert c)
       end).
    match goal with
    | |- context [match ?l with [] => _ | _ :: _ => _ end] =>
        destruct l as [|c0 l']
    end.
    + discriminate.
    + intros [= <-]. right. right. right. by exists c0.
  - apply pivot_raise_inv in Hpivot as ->. intros [= <-]. auto.
Qed.

(** X14.  [df.apply] at lines 116-119 stops at the first row, in the
    order of the feed, whose target cannot be turned into a target date,
    and [transform] raises that row's error, whether the filters would
    keep the row or not: the ValueError of [int] when the first token of
    its target is not an integer literal, an OverflowError when the
    number of weeks is beyond 15250 either way or the target date is not
    a timestamp in range.  So a row whose first token is not an integer
    literal always makes [transform] fail, with one of these two
    errors. *)
Theorem first_unparsable_target_is_fatal (df : list forecast_row) :
  (forall tok, transform df = Raise (ValueError_invalid_literal tok) <->
     exists pre x post, df = pre ++ x :: post /\
       (forall y, y ∈ pre -> is_ok (parse_target y) = true) /\
       int (hd "" (split " " (target x)))
       = Raise (ValueError_invalid_literal tok)) /\
  (transform df = Raise OverflowError <->
     exists pre x post n, df = pre ++ x :: post /\
       (forall y, y ∈ pre -> is_ok (parse_target y) = true) /\
       int (hd "" (split " " (target x))) = Ok n /\
       (¬ (-15250 <= n <= 15250) \/
        in_timestamp_range (forecast_date x + 7 * n) = false)) /\
  ((exists x, x ∈ df /\ is_ok (int (hd "" (split " " (target x)))) = false) ->
   (exists tok, transform df = Raise (ValueError_invalid_literal tok)) \/
   transform df = Raise OverflowError).
Proof.
  split; [| split].
  - intros tok. split.
    + intros Hrun.
      destruct (transform_raise_inv _ _ Hrun) as [Hparse | [H | [H | [c H]]]];
        try discriminate H.
      apply traverse_first_raise in Hparse as (pre & x & post & -> & Hpre & Hx).
      exists pre, x, post. split; [done |]. split; [done |].
      apply parse_target_raise in Hx as [Hx | (n & _ & _ & Hx)];
        [done | discriminate Hx].
    + intros (pre & x & post & -> & Hpre & Hx).
      apply transform_parse_raise, traverse_first_raise.
      exists pre, x, post. split; [done |]. split; [done |].
      apply parse_target_raise. by left.
  - split.
    + intros Hrun.
      destruct (transform_raise_inv _ _ Hrun) as [Hparse | [H | [H | [c H]]]];
        try discriminate H.
      apply traverse_first_raise in Hparse as (pre & x & post & -> & Hpre & Hx).
      apply parse_target_raise in Hx as [Hx | (n & Hn & Hout & _)].
      { apply int_raise in Hx. discriminate Hx. }
      exists pre, x, post, n. split; [done |]. split; [done |].
      split; [done |].
      apply andb_false_iff in Hout as [Hdelta | Hstamp]; [left | by right].
      intros Hrange. apply timedelta_weeks_range in Hrange. congruence.
    + intros (pre & x & post & n & -> & Hpre & Hn & Hout).
      apply transform_parse_raise, traverse_first_raise.
      exists pre, x, post. split; [done |]. split; [done |].
      apply parse_target_raise. right. exists n. split; [done |].
      split; [| done].
      apply andb_false_iff. destruct Hout as [Hrange | Hstamp];
        [left | by right].
      destruct (in_timedelta_range (7 * n)) eqn:Hdelta; [| done].
      by apply timedelta_weeks_range in Hdelta.
  - intros (x & Hx & Hbad).
    destruct (int (hd "" (split " " (target x)))) as [n | e] eqn:Hint;
      [discriminate Hbad |].
    assert (Hfx : parse_target x = Raise e)
      by (apply parse_target_raise; by left).
    destruct (traverse_raise parse_target df x e Hx Hfx) as [e' Hparse].
    pose proof (transform_parse_raise _ _ Hparse) as Hrun.
    apply traverse_raise_inv in Hparse as (y & _ & Hfy).
    apply parse_target_raise in Hfy as [Hy | (m & _ & _ & ->)].
    + apply int_raise in Hy. subst e'. left. by eexists.
    + by right.
Qed.

(** X15.  The mask of lines 126-136 on a row as parsed: the row is kept
    exactly when its unit is not "US", its quantile is not null, the
    token before the last of its target is "inc", and the number of
    weeks it starts with is at most 4.  Zero and negative numbers of
    weeks pass. *)
Theorem mask_on_descriptor (x : forecast_row) (p : parsed_row)
    (Hp : parse_target x = Ok p) :
  mask p <->
  unit_ x ≠ "US" /\ quantile x ≠ None /\
  penultimate_token (split " " (target x)) = Some "inc" /\
  exists n, int (hd "" (split " " (target x))) = Ok n /\ n <= 4.
Proof.
  apply parse_target_ok in Hp as (n & Hn & _ & _ & ->).
  unfold mask, add_weeks. simpl. split.
  - intros (Hu & Hq & Hs & Hh). repeat split; try done. exists n.
    split; [done | lia].
  - intros (Hu & Hq & Hs & m & Hm & Hh). repeat split; try done.
    rewrite Hn in Hm. injection Hm as <-. lia.
Qed.

Lemma mask_on_descriptor_witness :
  mask (mk_parsed_row (forecast "06" "4 wk inc case" (Some "0.5") 50)
          (ymd 2020 8 31) "case" (Some "inc")) /\
  ¬ mask (mk_parsed_row (forecast "06" "5 wk inc case" (Some "0.5") 50)
            (ymd 2020 9 7) "case" (Some "inc")).
Proof.
  split.
  - apply (proj2 (mask_on_descriptor
                    (forecast "06" "4 wk inc case" (Some "0.5") 50) _ eq_refl)).
    repeat split; try done. exists 4. split; [reflexivity | lia].
  - intros Hm.
    apply (proj1 (mask_on_descriptor
                    (forecast "06" "5 wk inc case" (Some "0.5") 50) _ eq_refl))
      in Hm as (_ & _ & _ & n & Hn & Hle).
    vm_compute in Hn. injection Hn as <-. lia.
Defined.

Lemma traverse_lookup {A B} (f : A -> result B) (l : list A) (ys : list B)
    (i : nat) (x : A) :
  traverse f l = Ok ys -> l !! i = Some x ->
  exists y, ys !! i = Some y /\ f x = Ok y.
Proof.
  revert ys i. induction l as [|z l IH]; intros ys i; simpl; [done |].
  destruct (f z) as [y | e] eqn:Hz; [| discriminate]. simpl.
  destruct (traverse f l) as [ys' | e]; [| discriminate]. simpl.
  intros [= <-]. destruct i as [|i]; simpl.
  - intros [= <-]. by exists y.
  - intros Hx. by apply IH.
Qed.

Lemma NoDup_filter_lookup {A B} `{EqDecision B} (g : A -> B) (P : A -> Prop)
    `{forall a, Decision (P a)} (l : list A) (i j : nat) (a b : A) :
  NoDup (map g (filter P l)) ->
  l !! i = Some a -> l !! j = Some b -> P a -> P b -> g a = g b -> i = j.
Proof.
  revert i j. induction l as [|z l IH]; intros i j Hnd Hi Hj Ha Hb Hg;
    [done |].
  assert (Hin : forall k c, l !! k = Some c -> P c ->
                            g c ∈ map g (filter P l)).
  { intros k c Hk Hc. apply CountyProofs.elem_of_map_iff. exists c.
    split; [done |]. apply list_elem_of_filter. split; [done |].
    by apply list_elem_of_lookup_2 with k. }
  rewrite filter_cons in Hnd.
  destruct i as [|i], j as [|j]; simpl in Hi, Hj; [done | | |].
  - injection Hi as ->. destruct (decide (P a)); [| done].
    simpl in Hnd. apply NoDup_cons in Hnd as [Hhd _]. exfalso. apply Hhd.
    rewrite Hg. by apply (Hin j).
  - injection Hj as ->. destruct (decide (P b)); [| done].
    simpl in Hnd. apply NoDup_cons in Hnd as [Hhd _]. exfalso. apply Hhd.
    rewrite <- Hg. by apply (Hin i).
  - f_equal. apply IH; try done.
    destruct (decide (P z)); [| done].
    simpl in Hnd. by apply NoDup_cons in Hnd as [_ Hnd].
Qed.

(** X18.  When every target of the feed starts with an integer and two
    rows that the mask keeps agree on model, unit, forecast date, target
    date, quantile and target type, the first pivot raises the
    ValueError for duplicate entries, whatever the two values. *)
Theorem duplicate_forecasts_raise (df : list forecast_row) (i j : nat)
    (x y : forecast_row) (p q : parsed_row)
    (Hall : forall z, z ∈ df -> is_ok (parse_target z) = true)
    (Hi : df !! i = Some x) (Hj : df !! j = Some y) (Hij : i ≠ j)
    (Hx : parse_target x = Ok p) (Hy : parse_target y = Ok q)
    (Hp : mask p) (Hq : mask q)
    (Hkey : key5_of p = key5_of q) (Htype : target_type p = target_type q) :
  transform df = Raise ValueError_duplicate_entries.
Proof.
  destruct (traverse_ok parse_target df) as (parsed & Hparse & _).
  { intros z Hz. specialize (Hall z Hz).
    destruct (parse_target z) as [r | e]; [by exists r | discriminate]. }
  destruct (traverse_lookup _ _ _ _ _ Hparse Hi) as (p' & Hi' & Hx').
  destruct (traverse_lookup _ _ _ _ _ Hparse Hj) as (q' & Hj' & Hy').
  assert (p' = p) as -> by congruence. assert (q' = q) as -> by congruence.
  unfold transform.
  rewrite apply_rows_traverse; [| intros ->; by destruct i].
  rewrite Hparse. simpl. unfold pivot_target_type.
  rewrite pivot_raise; [done |].
  rewrite map_map. simpl. intros Hnd. apply Hij.
  apply (NoDup_filter_lookup (fun r => (key5_of r, target_type r)) mask
           parsed i j p q Hnd Hi' Hj' Hp Hq).
  by rewrite Hkey, Htype.
Qed.

Lemma duplicate_forecasts_raise_witness :
  transform forecast_feed_repeated = Raise ValueError_duplicate_entries.
Proof.
  apply (duplicate_forecasts_raise forecast_feed_repeated 0 1
           (forecast "06" "1 wk inc case" (Some "0.5") 50)
           (forecast "06" "1 wk ahead inc case" (Some "0.5") 51)
           (mk_parsed_row (forecast "06" "1 wk inc case" (Some "0.5") 50)
              (ymd 2020 8 10) "case" (Some "inc"))
           (mk_parsed_row (forecast "06" "1 wk ahead inc case" (Some "0.5") 51)
              (ymd 2020 8 10) "case" (Some "inc"))).
  - intros z Hz. unfold forecast_feed_repeated in Hz.
    repeat (apply elem_of_cons in Hz as [-> | Hz]; [reflexivity |]).
    inversion Hz.
  - reflexivity.
  - reflexivity.
  - lia.
  - reflexivity.
  - reflexivity.
  - by repeat split.
  - by repeat split.
  - reflexivity.
  - reflexivity.
Defined.

(** X19.  When the kept rows have no duplicate entry and one of them has
    a target type named like a level of the index (model_abbr, unit,
    forecast_date, target_date or quantile), [reset_index] at line 163
    raises the ValueError "cannot insert", for one of these names. *)
Theorem target_type_named_like_index_raises (df : list forecast_row)
    (parsed : list parsed_row) (p : parsed_row)
    (Hparse : traverse parse_target df = Ok parsed)
    (Hnd : NoDup (map (fun r => (key5_of r, target_type r))
                      (filter mask parsed)))
    (Hin : p ∈ parsed) (Hp : mask p) (Htype : target_type p ∈ index_names) :
  exists c, c ∈ index_names /\ transform df = Raise (ValueError_cannot_insert c).
Proof.
  assert (Hrev : forall c, c ∈ rev index_names <-> c ∈ index_names).
  { intros c. rewrite !list_elem_of_In. symmetry. apply in_rev. }
  unfold transform.
  rewrite apply_rows_traverse;
    [| intros ->; injection Hparse as <-; inversion Hin].
  rewrite Hparse. simpl. unfold pivot_target_type.
  destruct (pivot (long_form parsed)) as [fr | e] eqn:Hpivot.
  - change (Ok fr ≫= _) with
      (match filter (fun c => c ∈ columns fr) (rev index_names) with
       | [] => Ok fr
       | c :: _ => Raise (ValueError_cannot_insert c)
       end).
    match goal with
    | |- context [match ?l with [] => _ | _ :: _ => _ end] =>
        destruct l as [|c l'] eqn:Hf
    end.
    + exfalso.
      assert (Hc : target_type p ∈ @nil string); [| by inversion Hc].
      rewrite <- Hf. apply list_elem_of_filter. split; [| by apply Hrev].
      apply (first_pivot_columns _ _ _ Hpivot). exists p.
      split; [| done]. by apply list_elem_of_filter.
    + exists c. split; [| done].
      apply Hrev.
      assert (Hc : c ∈ c :: l') by left.
      rewrite <- Hf in Hc. by apply list_elem_of_filter in Hc as [_ Hc].
  - exfalso. unfold pivot in Hpivot.
    destruct (duplicated _) eqn:E in Hpivot; [discriminate |].
    rewrite map_map in E. simpl in E.
    apply duplicated_nil in Hnd. congruence.
Qed.

Lemma filter_first {A} (P : A -> Prop) `{forall x, Decision (P x)}
    (pre post : list A) (x : A) :
  (forall y, y ∈ pre -> ¬ P y) -> P x ->
  item0 (filter P (pre ++ x :: post)) = Returned x.
Proof.
  intros Hpre Hx. induction pre as [|y pre IH]; simpl.
  - rewrite filter_cons. by destruct (decide (P x)).
  - rewrite filter_cons. destruct (decide (P y)) as [Hy | _].
    + exfalso. apply (Hpre y); [left | done].
    + apply IH. intros z Hz. apply Hpre. by right.
Qed.

Lemma item0_index_error {A} (P : A -> Prop) `{forall x, Decision (P x)}
    (l : list A) :
  item0 (filter P l) = IndexError <-> forall x, x ∈ l -> ¬ P x.
Proof.
  split.
  - intros Hnone x Hx HP.
    assert (Hin : x ∈ filter P l) by (by apply list_elem_of_filter).
    destruct (filter P l); [inversion Hin | discriminate].
  - intros Hnone. destruct (filter P l) as [|x rest] eqn:E; [done |].
    assert (Hin : x ∈ filter P l) by (rewrite E; left).
    apply list_elem_of_filter in Hin as [HP Hx]. by destruct (Hnone x Hx).
Qed.

Lemma item0_returned {A} (P : A -> Prop) `{forall x, Decision (P x)}
    (l : list A) (x : A) :
  item0 (filter P l) = Returned x <->
  exists pre post, l = pre ++ x :: post /\ (forall y, y ∈ pre -> ¬ P y) /\ P x.
Proof.
  split.
  - induction l as [|y l IH]; [discriminate |].
    rewrite filter_cons. destruct (decide (P y)) as [Hy | Hy].
    + intros [= ->]. exists [], l. split; [done |]. split; [| done].
      intros z Hz. inversion Hz.
    + intros Hx. destruct (IH Hx) as (pre & post & -> & Hpre & HP).
      exists (y :: pre), post. split; [done |]. split; [| done].
      intros z Hz. apply elem_of_cons in Hz as [-> | Hz]; auto.
  - intros (pre & post & -> & Hpre & HP). by apply filter_first.
Qed.

Section LatestForecastFacts.
Variable str_date : date -> string.

(** X21.  [get_latest_forecast_date] looks at the first project of the
    given name, and in it at the first model of the given abbreviation,
    and at nothing else.  It returns the date of the time zero of the
    latest forecast of that model as a string, or the empty string when
    the date is null, and logs one message; when the model has no latest
    forecast it raises an AttributeError. *)
Theorem latest_forecast_first_match
    (pre post : list zoltar_project) (project : zoltar_project)
    (mpre mpost : list zoltar_model) (model : zoltar_model)
    (project_name model_abbr : string)
    (Hpre : forall p, p ∈ pre -> name p ≠ project_name)
    (Hname : name project = project_name)
    (Hmodels : models project = mpre ++ model :: mpost)
    (Hmpre : forall m, m ∈ mpre -> abbreviation m ≠ model_abbr)
    (Habbr : abbreviation model = model_abbr) :
  get_latest_forecast_date str_date (pre ++ project :: post)
    project_name model_abbr
  = match latest_forecast model with
    | None => AttributeError
    | Some forecast =>
        match timezero_date forecast with
        | Some d =>
            Returned (str_date d,
                      ["Latest forecast for " +:+ model_abbr +:+ " is "
                       +:+ str_date d])
        | None =>
            Returned ("", ["No forecasts found for " +:+ model_abbr +:+ " in "
                           +:+ project_name])
        end
    end.
Proof.
  unfold get_latest_forecast_date.
  rewrite (filter_first (fun p => name p = project_name) pre post project)
    by done.
  rewrite Hmodels.
  rewrite (filter_first (fun m => abbreviation m = model_abbr) mpre mpost model)
    by done.
  reflexivity.
Qed.

(** X22.  [get_latest_forecast_date] raises an IndexError exactly when no
    project has the given name, or the first project of that name has
    no model of the given abbreviation, whatever the later projects
    hold.  It raises an AttributeError exactly when the first such model
    of the first such project has no latest forecast. *)
Theorem latest_forecast_errors (projects : list zoltar_project)
    (project_name model_abbr : string) :
  (get_latest_forecast_date str_date projects project_name model_abbr
   = IndexError <->
   (forall p, p ∈ projects -> name p ≠ project_name) \/
   exists pre project post,
     projects = pre ++ project :: post /\
     (forall p, p ∈ pre -> name p ≠ project_name) /\
     name project = project_name /\
     forall m, m ∈ models project -> abbreviation m ≠ model_abbr) /\
  (get_latest_forecast_date str_date projects project_name model_abbr
   = AttributeError <->
   exists pre project post mpre model mpost,
     projects = pre ++ project :: post /\
     (forall p, p ∈ pre -> name p ≠ project_name) /\
     name project = project_name /\
     models project = mpre ++ model :: mpost /\
     (forall m, m ∈ mpre -> abbreviation m ≠ model_abbr) /\
     abbreviation model = model_abbr /\
     latest_forecast model = None).
Proof.
  unfold get_latest_forecast_date.
  destruct (item0 (filter (fun p => name p = project_name) projects))
    as [project | |] eqn:Hp.
  - apply item0_returned in Hp as (pre & post & -> & Hpre & Hname).
    destruct (item0 (filter (fun m => abbreviation m = model_abbr)
                            (models project))) as [model | |] eqn:Hm.
    + apply item0_returned in Hm as (mpre & mpost & Hmodels & Hmpre & Habbr).
      assert (Hfirst : forall pre' project' post',
                pre ++ project :: post = pre' ++ project' :: post' ->
                (forall p, p ∈ pre' -> name p ≠ project_name) ->
                name project' = project_name -> project' = project).
      { intros pre' project' post' Heq Hpre' Hname'.
        assert (Hr : Returned project' = Returned project).
        { rewrite <- (filter_first (fun p => name p = project_name)
                        pre' post' project' Hpre' Hname').
          rewrite <- Heq. by apply filter_first. }
        by injection Hr. }
      assert (Hmfirst : forall mpre' model' mpost',
                models project = mpre' ++ model' :: mpost' ->
                (forall m, m ∈ mpre' -> abbreviation m ≠ model_abbr) ->
                abbreviation model' = model_abbr -> model' = model).
      { intros mpre' model' mpost' Heq Hpre' Habbr'.
        assert (Hr : Returned model' = Returned model).
        { rewrite <- (filter_first (fun m => abbreviation m = model_abbr)
                        mpre' mpost' model' Hpre' Habbr').
          rewrite <- Heq, Hmodels. by apply filter_first. }
        by injection Hr. }
      split.
      * split.
        -- destruct (latest_forecast model) as [f |];
             [destruct (timezero_date f) |]; discriminate.
        -- intros [Hnone | (pre' & project' & post' & Heq & Hpre' & Hname'
                             & Hnone)].
           ++ exfalso. apply (Hnone project); [| done].
              apply elem_of_app. right. left.
           ++ exfalso.
              rewrite (Hfirst pre' project' post' Heq Hpre' Hname') in Hnone.
              apply (Hnone model); [| done].
              rewrite Hmodels. apply elem_of_app. right. left.
      * split.
        -- intros Hattr. exists pre, project, post, mpre, model, mpost.
           repeat split; try done.
           destruct (latest_forecast model) as [f |]; [| done].
           destruct (timezero_date f); discriminate.
        -- intros (pre' & project' & post' & mpre' & model' & mpost' & Heq
                   & Hpre' & Hname' & Hmodels' & Hmpre' & Habbr' & Hnone).
           pose proof (Hfirst pre' project' post' Heq Hpre' Hname') as ->.
           pose proof (Hmfirst mpre' model' mpost' Hmodels' Hmpre' Habbr')
             as ->.
           by rewrite Hnone.
    + pose proof (proj1 (item0_index_error _ _) Hm) as Hnom. clear Hm.
      rename Hnom into Hm. split.
      * split; [| done]. intros _. right. by exists pre, project, post.
      * split; [discriminate |].
        intros (pre' & project' & post' & mpre' & model' & mpost' & Heq
                & Hpre' & Hname' & Hmodels' & Hmpre' & Habbr' & Hnone).
        assert (Hr : Returned project' = Returned project).
        { rewrite <- (filter_first (fun p => name p = project_name)
                        pre' post' project' Hpre' Hname').
          rewrite <- Heq. by apply filter_first. }
        injection Hr as ->. exfalso. apply (Hm model'); [| done].
        rewrite Hmodels'. apply elem_of_app. right. left.
    + exfalso. destruct (filter _ (models project)); discriminate.
  - pose proof (proj1 (item0_index_error _ _) Hp) as Hnop. clear Hp.
    rename Hnop into Hp. split.
    + split; [| done]. intros _. by left.
    + split; [discriminate |].
      intros (pre' & project' & post' & _ & _ & _ & -> & _ & Hname' & _).
      exfalso. apply (Hp project'); [| done]. apply elem_of_app. right. left.
  - exfalso. destruct (filter _ projects); discriminate.
Qed.

End LatestForecastFacts.

(** ** Examples *)

Lemma forecast_feed_runs : is_ok (transform forecast_feed) = true.
Proof. vm_compute. reflexivity. Qed.

Ltac feed_rows H :=
  repeat (apply elem_of_cons in H as [-> | H]); [.. | inversion H].


Lemma forecast_cells_witness :
  exists wide, transform forecast_feed = Ok wide /\
    cells wide !! (("06", ymd 2020 8 10, "COVIDhub-ensemble", ymd 2020 8 3),
                   "weekly_new_cases_0.9") = Some 90 /\
    forall k c, cells wide !! (k, c) ≠ Some 5000.
Proof.
  pose proof forecast_feed_runs as Hok.
  destruct (transform forecast_feed) as [wide | e] eqn:Hrun;
    [| discriminate Hok].
  exists wide. split; [reflexivity |]. split.
  - apply (proj2 (forecast_cells forecast_feed wide Hrun _ _ _)).
    exists (forecast "06" "1 wk inc case" (Some "0.9") 90),
      (mk_parsed_row (forecast "06" "1 wk inc case" (Some "0.9") 90)
         (ymd 2020 8 10) "case" (Some "inc")), WEEKLY_NEW_CASES.
    split; [do 2 right; left |]. by repeat split.
  - intros k c Hcell.
    apply (proj1 (forecast_cells forecast_feed wide Hrun _ _ _)) in Hcell
      as (x & p & f & Hx & Hfx & Hm & _ & _ & _ & Hv).
    unfold forecast_feed in Hx. feed_rows Hx; try discriminate Hv.
    vm_compute in Hfx. injection Hfx as <-.
    destruct Hm as (Hunit & _). by apply Hunit.
Defined.

Lemma forecast_columns_and_index_witness :
  exists wide, transform forecast_feed = Ok wide /\
    (forall c, c ∈ columns wide <->
       c ∈ ["weekly_new_cases_0.1"; "weekly_new_cases_0.5";
            "weekly_new_cases_0.9"]) /\
    (forall k, k ∈ index wide <->
       k = ("06", ymd 2020 8 10, "COVIDhub-ensemble", ymd 2020 8 3)).
Proof.
  pose proof forecast_feed_runs as Hok.
  destruct (transform forecast_feed) as [wide | e] eqn:Hrun;
    [| discriminate Hok].
  exists wide. split; [reflexivity |].
  destruct (forecast_columns_and_index forecast_feed wide Hrun)
    as [Hcols Hindex].
  assert (Hkept : forall x p, x ∈ forecast_feed -> parse_target x = Ok p ->
            mask p ->
            exists q, q ∈ ["0.1"; "0.5"; "0.9"] /\
                      x = forecast "06" "1 wk inc case" (Some q) (value x)).
  { intros x p Hx Hfx Hm. unfold forecast_feed in Hx.
    feed_rows Hx; vm_compute in Hfx; injection Hfx as <-;
      destruct Hm as (Hu & Hq & Hs & Hh).
    - exists "0.1". split; [left | reflexivity].
    - exists "0.5". split; [right; left | reflexivity].
    - exists "0.9". split; [do 2 right; left | reflexivity].
    - exfalso. apply Hq. reflexivity.
    - exfalso. apply Hu. reflexivity.
    - discriminate Hs.
    - exfalso. vm_compute in Hh. apply Hh. reflexivity. }
  split.
  - intros c. rewrite Hcols. split.
    + intros (x & p & f & y & p' & Hx & Hfx & Hm & Hf & Hy & Hfy & Hm' & ->).
      destruct (Hkept x p Hx Hfx Hm) as (q & _ & Hxq).
      destruct (Hkept y p' Hy Hfy Hm') as (q' & Hq' & Hyq).
      rewrite Hxq in Hfx. vm_compute in Hfx. injection Hfx as <-.
      vm_compute in Hf. injection Hf as <-. rewrite Hyq. simpl.
      feed_rows Hq'.
      * left.
      * right; left.
      * do 2 right; left.
    + intros Hc.
      assert (Hrow : forall q v,
                forecast "06" "1 wk inc case" (Some q) v ∈ forecast_feed ->
                column_name WEEKLY_NEW_CASES (Some q) ∈ columns wide).
      { intros q v Hin. apply Hcols.
        exists (forecast "06" "1 wk inc case" (Some q) v),
          (mk_parsed_row (forecast "06" "1 wk inc case" (Some q) v)
             (ymd 2020 8 10) "case" (Some "inc")), WEEKLY_NEW_CASES,
          (forecast "06" "1 wk inc case" (Some q) v),
          (mk_parsed_row (forecast "06" "1 wk inc case" (Some q) v)
             (ymd 2020 8 10) "case" (Some "inc")).
        by repeat split. }
      rewrite <- Hcols. feed_rows Hc.
      * apply (Hrow "0.1" 10). left.
      * apply (Hrow "0.5" 50). right; left.
      * apply (Hrow "0.9" 90). do 2 right; left.
  - intros k. rewrite Hindex. split.
    + intros (x & p & Hx & Hfx & Hm & ->).
      destruct (Hkept x p Hx Hfx Hm) as (q & _ & Hxq).
      rewrite Hxq in Hfx. vm_compute in Hfx. injection Hfx as <-.
      by rewrite Hxq.
    + intros ->.
      exists (forecast "06" "1 wk inc case" (Some "0.5") 50),
        (mk_parsed_row (forecast "06" "1 wk inc case" (Some "0.5") 50)
           (ymd 2020 8 10) "case" (Some "inc")).
      split; [right; left |]. by repeat split.
Defined.

Lemma target_type_named_like_index_raises_witness :
  exists c, c ∈ index_names /\
    transform forecast_feed_quantile_type = Raise (ValueError_cannot_insert c).
Proof.
  apply (target_type_named_like_index_raises forecast_feed_quantile_type
           [mk_parsed_row (forecast "06" "1 wk inc quantile" (Some "0.5") 50)
              (ymd 2020 8 10) "quantile" (Some "inc")]
           (mk_parsed_row (forecast "06" "1 wk inc quantile" (Some "0.5") 50)
              (ymd 2020 8 10) "quantile" (Some "inc"))).
  - reflexivity.
  - apply (bool_decide_unpack _). vm_compute. exact I.
  - left.
  - by repeat split.
  - do 4 right. left.
Defined.

Lemma latest_forecast_first_match_witness :
  get_latest_forecast_date isoformat zoltar_projects
    "COVID-19 Forecasts" "COVIDhub-baseline"
  = Returned ("2020-08-03",
              ["Latest forecast for COVIDhub-baseline is 2020-08-03"]).
Proof.
  exact (latest_forecast_first_match isoformat []
           [mk_zoltar_project "COVID-19 Forecasts"
              [mk_zoltar_model "COVIDhub-ensemble"
                 (Some (mk_zoltar_forecast (Some (ymd 2020 8 10))))]]
           (mk_zoltar_project "COVID-19 Forecasts"
              [mk_zoltar_model "COVIDhub-baseline"
                 (Some (mk_zoltar_forecast (Some (ymd 2020 8 3))));
               mk_zoltar_model "COVIDhub-baseline" None])
           [] [mk_zoltar_model "COVIDhub-baseline" None]
           (mk_zoltar_model "COVIDhub-baseline"
              (Some (mk_zoltar_forecast (Some (ymd 2020 8 3)))))
           "COVID-19 Forecasts" "COVIDhub-baseline"
           ltac:(intros p Hp; inversion Hp) eq_refl eq_refl
           ltac:(intros m Hm; inversion Hm) eq_refl).
Defined.


(** ** The order of the feed *)

Lemma traverse_Permutation {A B} (f : A -> result B) (l l' : list A)
    (ys : list B) :
  l ≡ₚ l' -> traverse f l = Ok ys ->
  exists ys', traverse f l' = Ok ys' /\ ys ≡ₚ ys'.
Proof.
  intros Hperm. revert ys.
  induction Hperm as [|x l l' Hperm IH|x y l|l l' l'' H1 IH1 H2 IH2];
    intros ys; simpl.
  - intros [= <-]. by exists [].
  - destruct (f x) as [z | e]; [| discriminate]. simpl.
    destruct (traverse f l) as [zs | e]; [| discriminate]. simpl.
    intros [= <-]. destruct (IH zs eq_refl) as (zs' & -> & Hzs).
    exists (z :: zs'). split; [done |]. by constructor.
  - destruct (f y) as [b | e]; [| discriminate]. simpl.
    destruct (f x) as [a | e]; [| discriminate]. simpl.
    destruct (traverse f l) as [zs | e]; [| discriminate]. simpl.
    intros [= <-]. exists (a :: b :: zs). split; [done |]. constructor.
  - intros Hys. destruct (IH1 ys Hys) as (ys' & Hys' & Hp1).
    destruct (IH2 ys' Hys') as (ys'' & Hys'' & Hp2).
    exists ys''. split; [done |]. by etrans.
Qed.

Lemma pivot_Permutation {K C} `{Countable K} `{Countable C}
    (long long' : list (K * C * Z)) (fr : frame K C) :
  long ≡ₚ long' -> pivot long = Ok fr -> pivot long' = Ok fr.
Proof.
  intros Hperm Hp. apply pivot_ok_inv in Hp as [Hnd ->].
  unfold pivot.
  assert (Hnd' : NoDup (map fst long')).
  { change (map fst long') with (long'.*1).
    change (map fst long) with (long.*1) in Hnd. by rewrite <- Hperm. }
  apply duplicated_nil in Hnd'. rewrite Hnd'. f_equal. f_equal.
  - apply set_eq. intros k. rewrite !elem_of_list_to_set.
    change (map ?f ?l) with (f <$> l). by rewrite Hperm.
  - apply set_eq. intros k. rewrite !elem_of_list_to_set.
    change (map ?f ?l) with (f <$> l). by rewrite Hperm.
  - symmetry. apply list_to_map_proper; [| done].
    change (map fst long) with (long.*1) in Hnd. exact Hnd.
Qed.

(** X23.  The wide frame does not depend on the order of the rows of the
    feed: when [transform] returns a frame for a feed, it returns the
    same frame for every permutation of the feed. *)
Theorem forecast_frame_ignores_row_order (df df' : list forecast_row)
    (wide : frame key4 string)
    (Hperm : df ≡ₚ df') (Hrun : transform df = Ok wide) :
  transform df' = Ok wide.
Proof.
  pose proof (forecast_transform_nonempty _ _ Hrun) as Hne.
  apply forecast_transform_inv in Hrun
    as (parsed & fr & Hparse & Hpivot & Hnames & ->).
  destruct (traverse_Permutation _ _ _ _ Hperm Hparse)
    as (parsed' & Hparse' & Hparsed).
  assert (Hpivot' :
            pivot (map (fun x => (key5_of x, target_type x, value (p_row x)))
                       (filter mask parsed')) = Ok fr).
  { apply (pivot_Permutation
             (map (fun x => (key5_of x, target_type x, value (p_row x)))
                  (filter mask parsed))); [| exact Hpivot].
    change (map ?f ?l) with (f <$> l).
    by apply fmap_Permutation, filter_Permutation. }
  unfold transform.
  rewrite apply_rows_traverse;
    [| intros ->; by apply Permutation_nil_r in Hperm].
  rewrite Hparse'. simpl. unfold pivot_target_type.
  rewrite Hpivot'.
  change (Ok fr ≫= _) with
    (match filter (fun c => c ∈ columns fr) (rev index_names) with
     | [] => Ok fr
     | c :: _ => Raise (ValueError_cannot_insert c)
     end).
  match goal with
  | |- context [match ?l with [] => _ | _ :: _ => _ end] =>
      destruct l as [|c l'] eqn:Hf; [done |]
  end.
  assert (Hc : c ∈ c :: l') by left.
  rewrite <- Hf in Hc. apply list_elem_of_filter in Hc as [Hin Hc].
  destruct (Hnames c); [| done].
  apply list_elem_of_In, in_rev, list_elem_of_In. exact Hc.
Qed.

Lemma forecast_frame_ignores_row_order_witness :
  transform (rev forecast_feed) = transform forecast_feed.
Proof.
  pose proof forecast_feed_runs as Hok.
  destruct (transform forecast_feed) as [wide | e] eqn:Hrun;
    [| discriminate Hok].
  apply (forecast_frame_ignores_row_order forecast_feed (rev forecast_feed)
           wide); [| exact Hrun].
  symmetry. apply Permutation_rev.
Defined.

End ForecastProofs.
